(** * pf2e-hud: the token HUD and its actions sidebar

  A shallow embedding of [src/hud/token.ts] (class [PF2eHudToken]) and of
  the actions sidebar (class [PF2eHudSidebarActions]) that follows it in the
  same source file, with the properties stated about them.

  Conventions.
  - A JavaScript object that the code mutates is a record that is passed in
    and returned; a method [m(args)] of the HUD is a function
    [m args : Hud -> Hud] (or [Hud -> A * Hud] when it returns a value).
  - An element of the page is a tree node that carries the identity of the
    element object ([nid]); a reference to an element is that identity.
  - JavaScript numbers used for geometry are kept abstract ([JsNumber]):
    nothing below depends on how doubles round.
  - Code of the module that lives in other files (the base classes, the
    stat providers, the host framework) is either a field of a type class
    or a definition whose comment starts with "Modelled from the spec". *)

From stdpp Require Import base option list strings gmap sorting.
From Stdlib Require Import ZArith QArith.QArith_base Lia.

Close Scope Q_scope.
Local Open Scope string_scope.
Set Warnings "-register-all".

(** ** JavaScript numbers (geometry only) *)

Class JsNumber (num : Type) := {
jmul : num -> num -> num;
jdiv : num -> num -> num;
jone : num;
jhundred : num;
}.

(** ** The part of the DOM that the HUD touches *)

Module Dom.
Section Dom.
Context {num : Type}.

(** The values the HUD writes into [style]: [`${v}px`] and [`scale(${v})`]. *)
Inductive CssValue := Px (v : num) | ScaleOf (v : num).

(** An element. [name] is the [name] property (the empty string when the
    attribute is absent); [kids] are the element children. *)
Inductive Node := mkNode {
  nid : nat;
  tag : string;
  elemId : string;
  name : string;
  classes : list string;
  dataset : gmap string string;
  style : gmap string CssValue;
  kids : list Node;
}.

(** Markup once parsed: what assigning [innerHTML] builds, before the
    elements get their identity. *)
Inductive Tpl := mkTpl {
  tTag : string;
  tName : string;
  tClasses : list string;
  tKids : list Tpl;
}.

(** [innerHTML = ...]: fresh elements, numbered from [next] on. *)
Fixpoint build (t : Tpl) (next : nat) : Node * nat :=
  let '(ks, next') :=
    (fix buildAll (ts : list Tpl) (n : nat) : list Node * nat :=
       match ts with
       | [] => ([], n)
       | t' :: ts' =>
           let '(k, n1) := build t' n in
           let '(ks, n2) := buildAll ts' n1 in
           (k :: ks, n2)
       end) (tKids t) (S next) in
  (mkNode next (tTag t) "" (tName t) (tClasses t) ∅ ∅ ks, next').

Fixpoint buildAll (ts : list Tpl) (n : nat) : list Node * nat :=
  match ts with
  | [] => ([], n)
  | t :: ts' =>
      let '(k, n1) := build t n in
      let '(ks, n2) := buildAll ts' n1 in
      (k :: ks, n2)
  end.

(** The descendants of an element, in document order. *)
Fixpoint descendants (n : Node) : list Node :=
  (fix go (l : list Node) : list Node :=
     match l with
     | [] => []
     | k :: l' => k :: descendants k ++ go l'
     end) (kids n).

(** [el.querySelector(sel)]: the first descendant that matches. *)
Definition querySelector (sel : Node -> bool) (n : Node) : option Node :=
  head (filter (fun d => sel d = true) (descendants n)).

(** Is the element with identity [i] the node [n] or inside it? *)
Definition contains (n : Node) (i : nat) : bool :=
  bool_decide (i ∈ nid <$> (n :: descendants n)).

Definition setKids (ks : list Node) (n : Node) : Node :=
  mkNode (nid n) (tag n) (elemId n) (name n) (classes n) (dataset n) (style n) ks.

(** [el.style.setProperty(prop, v)] *)
Definition setProperty (prop : string) (v : CssValue) (n : Node) : Node :=
  mkNode (nid n) (tag n) (elemId n) (name n) (classes n) (dataset n)
         (<[prop := v]> (style n)) (kids n).

(** [el.dataset[key] = v] *)
Definition setData (key v : string) (n : Node) : Node :=
  mkNode (nid n) (tag n) (elemId n) (name n) (classes n)
         (<[key := v]> (dataset n)) (style n) (kids n).

(** [el.classList.add(c)] *)
Definition classListAdd (c : string) (n : Node) : Node :=
  mkNode (nid n) (tag n) (elemId n) (name n)
         (if bool_decide (c ∈ classes n) then classes n else classes n ++ [c])
         (dataset n) (style n) (kids n).

(** [parent.appendChild(child)] for a child that has no parent yet. *)
Definition appendChild (child : Node) (parent : Node) : Node :=
  setKids (kids parent ++ [child]) parent.

(** The child of [parent] whose identity is [i]. *)
Definition childById (i : nat) (parent : Node) : option Node :=
  List.find (fun k => bool_decide (nid k = i)) (kids parent).

Fixpoint mapChild (i : nat) (f : Node -> Node) (ks : list Node) : list Node :=
  match ks with
  | [] => []
  | k :: ks' => if bool_decide (nid k = i) then f k :: ks' else k :: mapChild i f ks'
  end.

(** A write through a reference to the child [i] of [parent]. *)
Definition updateChild (i : nat) (f : Node -> Node) (parent : Node) : Node :=
  setKids (mapChild i f (kids parent)) parent.

(** [old.replaceWith(new)] where [old] is looked for among the children of
    [parent]; an [old] that has no parent is left alone, as in the DOM. *)
Definition replaceWith (old : nat) (new : Node) (parent : Node) : Node :=
  updateChild old (fun _ => new) parent.

(** [document.activeElement]: the body, an element outside the HUD (only its
    tag matters) or an element of the HUD, by identity. *)
Inductive Active := NoFocus | Outside (tag : string) | Inside (i : nat).

#[global] Instance Active_eq_dec : EqDecision Active.
Proof. solve_decision. Defined.

(** [el.focus()]. Only an element that is in the document can take the
    focus: on a detached element the call does nothing. [doc] is the tree
    that is attached to the document, if any. *)
Definition focus (doc : option Node) (el : Node) (a : Active) : Active :=
  match doc with
  | Some root => if contains root (nid el) then Inside (nid el) else a
  | None => a
  end.

(** An element that leaves the document loses the focus. *)
Definition fixupFocus (doc : option Node) (a : Active) : Active :=
  match a with
  | Inside i =>
      match doc with
      | Some root => if contains root i then a else NoFocus
      | None => NoFocus
      end
  | _ => a
  end.

(** The selector [input:focus]. *)
Definition isFocusedInput (a : Active) (n : Node) : bool :=
  bool_decide (tag n = "input") && bool_decide (a = Inside (nid n)).

(** The selector [input[name="..."]]. *)
Definition isInputNamed (nm : string) (n : Node) : bool :=
  bool_decide (tag n = "input") && bool_decide (name n = nm).

(** The identities of an element and of everything inside it, in document
    order. *)
Definition ids (n : Node) : list nat := nid <$> (n :: descendants n).

(** The number of elements a piece of markup builds. *)
Fixpoint tsize (t : Tpl) : nat :=
  S ((fix sizes (ts : list Tpl) : nat :=
        match ts with
        | [] => 0
        | t' :: ts' => tsize t' + sizes ts'
        end) (tKids t)).

Fixpoint tsizes (ts : list Tpl) : nat :=
  match ts with
  | [] => 0
  | t :: ts' => tsize t + tsizes ts'
  end.

End Dom.
Arguments CssValue : clear implicits.
Arguments Node : clear implicits.
End Dom.

(** ** Host data: actors and the stat providers *)

Inductive ActorType :=
army | character | familiar | hazard | loot | npc | party | vehicle.

#[global] Instance ActorType_eq_dec : EqDecision ActorType.
Proof. solve_decision. Defined.

Record Actor := mkActor {
actorUuid : string;
actorType : ActorType;
isOwner : bool;
sheetRendered : bool;          (* [actor.sheet.rendered] *)
}.

(** [actor.isOfType(...types)] *)
Definition isOfType (a : Actor) (types : list ActorType) : bool :=
bool_decide (actorType a ∈ types).

(** The shapes of the stat blocks are the providers' business (they live in
  [./shared/base] and [./shared/advanced]); the HUD only looks at [health]. *)
Class StatTypes := {
Health : Type;
HeaderRest : Type;
StatsAdvanced : Type;
StatsHeaderExtras : Type;
SidebarMenu : Type;
}.

Record StatsHeader `{StatTypes} := mkStatsHeader {
health : option Health;
headerRest : HeaderRest;
}.
Arguments mkStatsHeader {_} _ _.

Class StatProviders `{StatTypes} := {
getStatsHeader : Actor -> StatsHeader;
getAdvancedStats : Actor -> StatsAdvanced;
getStatsHeaderExtras : Actor -> StatsHeaderExtras;
getSidebars : Actor -> list SidebarMenu;
}.

(** ** The token HUD ([class PF2eHudToken]) *)

Module TokenHud.
Import Dom.
Section TokenHud.
Context {num : Type} {JN : JsNumber num} {ST : StatTypes} {SP : StatProviders}.

(** *** Settings *)

Inductive Mode := modeExploded | modeLeft | modeRight.

(** [CLOSE_OPTIONS = ["never", "sidebar", "all"]] *)
Inductive TokenCloseOption := optNever | optSidebar | optAll.

(** The close settings of [SETTINGS_ORDER]. *)
Inductive CloseSetting := closeOnSendToChat | closeOnSpell.

(** The semantic events of the advanced HUD. *)
Inductive AdvancedHudEvent := evSendToChat | evCastSpell.

Record TokenSettings := mkSettings {
  enabled : bool;
  mode : Mode;
  scaleDimensions : bool;
  fontSize : num;
  closeAllOnCLick : bool;
  closeOnSendToChatSetting : TokenCloseOption;
  closeOnSpellSetting : TokenCloseOption;
}.

(** *** Tokens and the canvas *)

Record Rect := mkRect { rectLeft : num; rectTop : num }.

Record TokenDocument := mkDocument {
  docName : string;
  docWidth : num;
  docHeight : num;
}.

Record TokenPF2e := mkToken {
  tokenId : nat;
  tokenActor : option Actor;
  tokenBounds : Rect;
  tokenDocument : TokenDocument;
}.

Record Canvas := mkCanvas {
  primaryX : num;               (* [canvas.primary.getGlobalPosition()] *)
  primaryY : num;
  dimWidth : num;               (* [canvas.dimensions] *)
  dimHeight : num;
  dimSize : num;
  stageScale : num;             (* [canvas.stage.scale.x] *)
}.

Record ApplicationPosition := mkPosition {
  posLeft : option num;
  posTop : option num;
  posWidth : option num;
  posHeight : option num;
  posScale : option num;
  posZIndex : option num;
}.

(** [{} as ApplicationPosition], the default argument of [_updatePosition]. *)
Definition emptyPosition : ApplicationPosition :=
  mkPosition None None None None None None.

Definition SidebarName := string.

(** *** The state: the fields of the HUD object, then the ambient state of
    the host that the HUD reads and writes. *)

Record Hud := mkHud {
  token : option TokenPF2e;          (* the tracked token (base class slot) *)
  sidebar : option SidebarName;      (* the open sidebar panel *)
  element : option (Node num);           (* the application's element *)
  inserted : bool;                   (* ... and whether it is in the document *)
  mainElement : option nat;          (* [#mainElement], a reference *)
  canvasPanHook : bool;              (* [#canvasPanHook] is active *)
  position : ApplicationPosition;
  settings : TokenSettings;
  canvas : Canvas;
  persistentActor : option string;   (* the actor of [hud.persistent] *)
  activeElement : Active;            (* [document.activeElement] *)
  nextId : nat;                      (* identity of the next new element *)
}.

Definition setTokenSlot (t : option TokenPF2e) (s : Hud) : Hud :=
  mkHud t (sidebar s) (element s) (inserted s) (mainElement s) (canvasPanHook s)
        (position s) (settings s) (canvas s) (persistentActor s) (activeElement s)
        (nextId s).

Definition setSidebarSlot (sb : option SidebarName) (s : Hud) : Hud :=
  mkHud (token s) sb (element s) (inserted s) (mainElement s) (canvasPanHook s)
        (position s) (settings s) (canvas s) (persistentActor s) (activeElement s)
        (nextId s).

Definition setElement (e : option (Node num)) (ins : bool) (s : Hud) : Hud :=
  mkHud (token s) (sidebar s) e ins (mainElement s) (canvasPanHook s)
        (position s) (settings s) (canvas s) (persistentActor s) (activeElement s)
        (nextId s).

Definition setMainElement (m : option nat) (s : Hud) : Hud :=
  mkHud (token s) (sidebar s) (element s) (inserted s) m (canvasPanHook s)
        (position s) (settings s) (canvas s) (persistentActor s) (activeElement s)
        (nextId s).

Definition setCanvasPanHook (b : bool) (s : Hud) : Hud :=
  mkHud (token s) (sidebar s) (element s) (inserted s) (mainElement s) b
        (position s) (settings s) (canvas s) (persistentActor s) (activeElement s)
        (nextId s).

Definition setPositionSlot (p : ApplicationPosition) (s : Hud) : Hud :=
  mkHud (token s) (sidebar s) (element s) (inserted s) (mainElement s)
        (canvasPanHook s) p (settings s) (canvas s) (persistentActor s)
        (activeElement s) (nextId s).

Definition setActiveElement (a : Active) (s : Hud) : Hud :=
  mkHud (token s) (sidebar s) (element s) (inserted s) (mainElement s)
        (canvasPanHook s) (position s) (settings s) (canvas s) (persistentActor s)
        a (nextId s).

Definition setNextId (n : nat) (s : Hud) : Hud :=
  mkHud (token s) (sidebar s) (element s) (inserted s) (mainElement s)
        (canvasPanHook s) (position s) (settings s) (canvas s) (persistentActor s)
        (activeElement s) n.

(** [this.actor] (base class): the actor of the tracked token. *)
Definition actor (s : Hud) : option Actor := token s ≫= tokenActor.

(** The tree that is attached to the document. *)
Definition document (s : Hud) : option (Node num) :=
  if inserted s then element s else None.

(** *** The render context *)

(** Modelled from the spec: the context of the base class
    ([super._prepareContext], in [./base/token]), "base actor/token
    identity": the tracked actor, [hasActor] telling whether there is one. *)
Record BaseTokenContext := mkBaseContext { ctxActor : option Actor }.

Definition hasActor (c : BaseTokenContext) : bool :=
  match ctxActor c with Some _ => true | None => false end.

(** [TokenContext | TokenContextBase]: the base context and, when the render
    did not stop short, the stat blocks spread into it. *)
Record TokenContext := mkContext {
  parentData : BaseTokenContext;
  ctxStatsHeader : option StatsHeader;
  ctxAdvanced : option StatsAdvanced;
  ctxExtras : option StatsHeaderExtras;
  ctxSidebars : option (list SidebarMenu);
  ctxName : option string;
}.

(** [context.health] *)
Definition ctxHealth (c : TokenContext) : option Health :=
  ctxStatsHeader c ≫= health.

(** A context that is the base context and nothing more. *)
Definition baseOnly (p : BaseTokenContext) : TokenContext :=
  mkContext p None None None None None.

Record RenderOptions := mkOptions { optFontSize : num }.

(** The host's templating ([this.renderTemplate]) and HTML parser (what
    assigning [innerHTML] builds). *)
Class Templates := {
  renderTemplate : string -> TokenContext -> string;
  parseHTML : string -> list Tpl;
  parseHTML_empty : parseHTML "" = [];     (* no markup, no elements *)
}.

Context {TP : Templates}.

(** *** The render pipeline *)

(** Modelled from the spec: [super._prepareContext] of [./base/token]. *)
Definition base_prepareContext (options : RenderOptions) (s : Hud)
  : BaseTokenContext :=
  mkBaseContext (actor s).

Definition _prepareContext (options : RenderOptions) (s : Hud) : TokenContext :=
  let parentData := base_prepareContext options s in
  match ctxActor parentData with
  | None => baseOnly parentData                  (* [!parentData.hasActor] *)
  | Some actor =>
      let statsHeader := getStatsHeader actor in
      match health statsHeader with
      | None => baseOnly parentData              (* [!statsHeader.health] *)
      | Some _ =>
          mkContext parentData
                    (Some statsHeader)
                    (Some (getAdvancedStats actor))
                    (Some (getStatsHeaderExtras actor))
                    (Some (getSidebars actor))
                    ((fun t => docName (tokenDocument t)) <$> token s)
      end
  end.

Definition _renderHTML (context : TokenContext) (options : RenderOptions)
  : string :=
  match ctxHealth context with
  | None => ""
  | Some _ => renderTemplate "hud" context
  end.

(** [createHTMLElement("div", { id, innerHTML })]: a new, detached element. *)
Definition createMain (result : string) (next : nat) : Node num * nat :=
  let '(ks, next') := buildAll (parseHTML result) (S next) in
  (mkNode next "div" "pf2e-hud-token-main" "" [] ∅ ∅ ks, next').

(** [createHTMLElement("div", { classes, children })]: the children move
    into the new element. *)
Definition createWrapper (cls : list string) (children : list (Node num))
           (next : nat) : Node num * nat :=
  (mkNode next "div" "" "" cls ∅ ∅ children, S next).

(** [.name] of the focused input, when it is a non-empty string. *)
Definition focusedName (s : Hud) (content : Node num) : option string :=
  old ← mainElement s;
  oldElement ← childById old content;
  inp ← querySelector (isFocusedInput (activeElement s)) oldElement;
  if bool_decide (name inp = "") then None else Some (name inp).

(** The input names come from the HUD template and are plain identifiers,
    so that the selector built from one is well formed. *)
Definition _replaceHTML (result : string) (content : Node num)
           (options : RenderOptions) (s : Hud) : Node num * Hud :=
  let content := setProperty "--font-size" (Px (optFontSize options)) content in
  let oldElement := mainElement s in
  let focusName := focusedName s content in
  let '(main0, next1) := createMain result (nextId s) in
  let '(main1, next2) :=
    match mode (settings s) with
    | modeExploded => (classListAdd "exploded" main0, next1)
    | m =>
        let classes :=
          "joined" :: match m with modeLeft => ["left"] | _ => [] end in
        let '(wrapper, n) := createWrapper classes (kids main0) next1 in
        (appendChild wrapper (setKids [] main0), n)
    end in
  (* the new element is not in the document yet when [focus] is called *)
  let doc := if inserted s then Some content else None in
  let active1 :=
    match focusName with
    | Some nm =>
        match querySelector (isInputNamed nm) main1 with
        | Some inp => focus doc inp (activeElement s)
        | None => activeElement s
        end
    | None => activeElement s
    end in
  let content' :=
    match oldElement with
    | Some old => replaceWith old main1 content
    | None => appendChild main1 content
    end in
  let doc' := if inserted s then Some content' else None in
  (content',
   setNextId next2
     (setActiveElement (fixupFocus doc' active1)
        (setMainElement (Some (nid main1)) s))).

(** [super._insertElement] puts the element into the document. *)
Definition _insertElement (s : Hud) : Hud :=
  setElement (setData "tooltipDirection" "UP" <$> element s) true s.

(** [this.sidebar?.render(true)] re-renders the sidebar panel, which is an
    application of its own: nothing of the HUD's state changes there. *)
Definition _onRender (s : Hud) : Hud := setCanvasPanHook true s.

Definition _onClose (s : Hud) : Hud :=
  setCanvasPanHook false (setMainElement None s).

(** *** Position *)

Definition _updatePosition (position : ApplicationPosition) (s : Hud)
  : ApplicationPosition * Hud :=
  match token s, element s with
  | Some token, Some element =>
      let cv := canvas s in
      let scale := stageScale cv in
      let mainElement := mainElement s in
      let scaleDimensions := scaleDimensions (settings s) in
      let usedScale := if scaleDimensions then jone else scale in
      let posScale' := if scaleDimensions then scale else jone in
      let position :=
        mkPosition (Some (primaryX cv)) (Some (primaryY cv))
                   (Some (dimWidth cv)) (Some (dimHeight cv))
                   (Some posScale') (posZIndex position) in
      let element :=
        setProperty "transform" (ScaleOf posScale')
          (setProperty "height" (Px (jmul (dimHeight cv) usedScale))
             (setProperty "width" (Px (jmul (dimWidth cv) usedScale))
                (setProperty "top" (Px (primaryY cv))
                   (setProperty "left" (Px (primaryX cv)) element)))) in
      let element :=
        match mainElement with
        | Some mainId =>
            let tokenBounds := tokenBounds token in
            let tokenDimensions := tokenDocument token in
            let ratio := jdiv (dimSize cv) jhundred in
            let mainLeft := jmul (rectLeft tokenBounds) usedScale in
            let mainTop := jmul (rectTop tokenBounds) usedScale in
            let mainWidth :=
              jmul (jmul (jmul (docWidth tokenDimensions) ratio) jhundred) usedScale in
            let mainHeight :=
              jmul (jmul (jmul (docHeight tokenDimensions) ratio) jhundred) usedScale in
            updateChild mainId
              (fun m =>
                 setProperty "height" (Px mainHeight)
                   (setProperty "width" (Px mainWidth)
                      (setProperty "top" (Px mainTop)
                         (setProperty "left" (Px mainLeft) m))))
              element
        | None => element
        end in
      (position, setElement (Some element) (inserted s) s)
  | _, _ => (position, s)
  end.

(** Modelled from the spec: [render] of the host framework, for the part
    that calls back into the HUD. "Re-executes the render pipeline against
    the current tracked token if open; no-op if closed"; the context is
    prepared, turned into markup and swapped into the element (which is
    created and inserted on the first render), and "the resolver must be
    re-invoked after every DOM swap". *)
Definition render (force : bool) (s : Hud) : Hud :=
  match token s with
  | None => s
  | Some _ =>
      let options := mkOptions (fontSize (settings s)) in
      let context := _prepareContext options s in
      let result := _renderHTML context options in
      let '(content, firstRender, s) :=
        match element s with
        | Some el => (el, false, s)
        | None =>
            (mkNode (nextId s) "div" "pf2e-hud-token" "" [] ∅ ∅ [], true,
             setNextId (S (nextId s)) s)
        end in
      let '(content, s) := _replaceHTML result content options s in
      let s := setElement (Some content) (inserted s) s in
      let s := if firstRender then _insertElement s else s in
      let s := _onRender s in
      let '(position, s) := _updatePosition (position s) s in
      setPositionSlot position s
  end.

(** *** Selection and visibility *)

Definition _onSetToken (token : option TokenPF2e) (s : Hud) : Hud :=
  render true s.

(** Modelled from the spec: [toggleSidebar] of [./base/advanced]. "If name
    equals the currently showing sidebar, closes it; if name is null, forces
    None; otherwise switches to Showing(name)". *)
Definition toggleSidebar (name : option SidebarName) (s : Hud) : Hud :=
  match name with
  | None => setSidebarSlot None s
  | Some n =>
      if bool_decide (sidebar s = Some n) then setSidebarSlot None s
      else setSidebarSlot (Some n) s
  end.

(** Modelled from the spec: closing the application. "Tear down DOM; unhook
    any transient listeners; release focus": the element leaves the
    document and the host calls [_onClose]. *)
Definition teardown (s : Hud) : Hud :=
  _onClose
    (setActiveElement (fixupFocus (num:=num) None (activeElement s))
       (setElement None false s)).

(** Modelled from the spec: [setToken] of the base class ([./base/token]).
    "If candidate is null, transition to Closed; ... otherwise transition to
    Open(candidate), trigger a full render". *)
Definition base_setToken (token : option TokenPF2e) (s : Hud) : Hud :=
  match token with
  | None => teardown (setTokenSlot None s)
  | Some t => _onSetToken (Some t) (setTokenSlot (Some t) s)
  end.

(** Modelled from the spec: [hud.persistent.isCurrentActor(actor, true)],
    whether the actor is "the subject of a different, mutually-exclusive
    persistent HUD". *)
Definition persistentIsCurrentActor (a : Actor) (s : Hud) : bool :=
  bool_decide (persistentActor s = Some (actorUuid a)).

Definition setToken (token : option TokenPF2e) (s : Hud) : Hud :=
  let s := toggleSidebar None s in
  match token with
  | None => base_setToken None s
  | Some tk =>
      let actor := tokenActor tk in
      let token :=
        if match actor with
           | None => true                          (* [!actor?.isOwner] *)
           | Some a =>
               negb (isOwner a)
               || isOfType a [loot; party]
               || sheetRendered a
               || persistentIsCurrentActor a s
           end
        then None
        else Some tk in
      base_setToken token s
  end.

(** Modelled from the spec: [close()] is "equivalent to setToken(null)". *)
Definition close (s : Hud) : Hud := setToken None s.

(** *** Close policies *)

(** Modelled from the spec: [eventToSetting] of [./base/advanced], the
    setting that belongs to a semantic event. *)
Definition eventToSetting (event : AdvancedHudEvent) : CloseSetting :=
  match event with
  | evSendToChat => closeOnSendToChat
  | evCastSpell => closeOnSpell
  end.

(** [this.getSetting(key)] for the close settings. *)
Definition getCloseSetting (key : CloseSetting) (s : Hud) : TokenCloseOption :=
  match key with
  | closeOnSendToChat => closeOnSendToChatSetting (settings s)
  | closeOnSpell => closeOnSpellSetting (settings s)
  end.

Definition closeIf (event : AdvancedHudEvent) (s : Hud) : bool * Hud :=
  let settingKey := eventToSetting event in
  let setting := getCloseSetting settingKey s in
  match setting with
  | optNever => (false, s)
  | optAll => (true, close s)
  | optSidebar => (true, toggleSidebar None s)
  end.

(** The tag of [document.activeElement]. *)
Definition activeTag (s : Hud) : string :=
  match activeElement s with
  | NoFocus => "body"
  | Outside t => t
  | Inside i =>
      match document s with
      | Some root =>
          from_option tag "body"
            (List.find (fun n => bool_decide (nid n = i)) (root :: descendants root))
      | None => "body"
      end
  end.

(** [#clickClose], run on a click on the token layer. *)
Definition clickClose (s : Hud) : Hud :=
  if closeAllOnCLick (settings s) then close s
  else
    let focused := activeTag s in
    if bool_decide (focused = "input") || bool_decide (focused = "textarea")
    then setActiveElement NoFocus s                       (* [focused.blur()] *)
    else match sidebar s with
         | Some _ => toggleSidebar None s
         | None => close s
         end.

(** *** Runs of the selection operations *)

Inductive Op := OpSetToken (candidate : option TokenPF2e) | OpClose.

Definition step (o : Op) (s : Hud) : Hud :=
  match o with
  | OpSetToken c => setToken c s
  | OpClose => close s
  end.

Definition run (ops : list Op) (s : Hud) : Hud :=
  fold_left (fun s o => step o s) ops s.

(** [HudVisibilityState]: open exactly when a token is tracked. *)
Definition isOpen (s : Hud) : Prop := is_Some (token s).

(** The invariant of the data model: a sidebar shows only on an open HUD. *)
Definition sidebarInvariant (s : Hud) : Prop :=
  sidebar s ≠ None -> isOpen s.

(** The resting state the HUD is in when closed: no token, no element, no
    main element, no sidebar, the canvas hook off. *)
Definition isClosed (s : Hud) : Prop :=
  token s = None /\ sidebar s = None /\ element s = None /\ inserted s = false
  /\ mainElement s = None /\ canvasPanHook s = false.

(** What makes a candidate ineligible, in the words of the specification:
    its actor is not controllable by the acting user, is of an excluded
    category, has its full sheet open, or is the subject of the persistent
    HUD. A token without an actor has no owner. *)
Definition ineligible (tk : TokenPF2e) (s : Hud) : Prop :=
  match tokenActor tk with
  | None => True
  | Some a =>
      isOwner a = false \/ actorType a = loot \/ actorType a = party
      \/ sheetRendered a = true \/ persistentActor s = Some (actorUuid a)
  end.

(** Open on [tk]: the token is tracked and the container exists, with a
    main element. *)
Definition isOpenOn (tk : TokenPF2e) (s : Hud) : Prop :=
  token s = Some tk /\ is_Some (element s) /\ is_Some (mainElement s).

(** What the position resolver computes: the geometry fields of the
    position, and the geometry properties of the container's style and of
    the main element's style. *)
Definition styleProps (props : list string) (n : Node num)
  : list (option (CssValue num)) :=
  (fun p => style n !! p) <$> props.

Definition mainNode (s : Hud) : option (Node num) :=
  el ← element s; m ← mainElement s; childById m el.

Definition geometry (r : ApplicationPosition * Hud) :=
  (posLeft r.1, posTop r.1, posWidth r.1, posHeight r.1, posScale r.1,
   styleProps ["left"; "top"; "width"; "height"; "transform"] <$> element r.2,
   styleProps ["left"; "top"; "width"; "height"] <$> mainNode r.2).

(** An input or a text area has the keyboard focus. *)
Definition typing (s : Hud) : Prop :=
  activeTag s = "input" \/ activeTag s = "textarea".

(** *** Gestures, hooks and setting changes

    What [_onEnable] registers, the callbacks of the settings, the canvas
    hook and the listener of the sidebar buttons, each as the transition it
    makes. *)

Record PointerEvent := mkPointer { shiftKey : bool; ctrlKey : bool }.

(** [this === context.token]: a token object is identified by [tokenId]. *)
Definition isTrackedToken (this : TokenPF2e) (s : Hud) : bool :=
  match token s with
  | Some t => bool_decide (tokenId t = tokenId this)
  | None => false
  end.

(** The wrapper around [Token.prototype._onClickLeft]; [activeTool] is
    [game.activeTool]. *)
Definition onTokenClickLeft (this : TokenPF2e) (event : PointerEvent)
           (activeTool : string) (s : Hud) : Hud :=
  if shiftKey event || ctrlKey event || negb (bool_decide (activeTool = "select"))
  then s
  else if isTrackedToken this s then close s
       else setToken (Some this) s.

(** The wrapper around [Token.prototype._onDragLeftStart]. *)
Definition onTokenDragLeftStart (s : Hud) : Hud := close s.

(** The wrapper around [TokenLayer.prototype._onClickLeft]. *)
Definition onLayerClickLeft (s : Hud) : Hud := clickClose s.

(** [Hooks.on("renderTokenHUD", ...)] *)
Definition onRenderTokenHUD (s : Hud) : Hud := close s.

Definition setCanvas (cv : Canvas) (s : Hud) : Hud :=
  mkHud (token s) (sidebar s) (element s) (inserted s) (mainElement s)
        (canvasPanHook s) (position s) (settings s) cv (persistentActor s)
        (activeElement s) (nextId s).

Definition setSettings (st : TokenSettings) (s : Hud) : Hud :=
  mkHud (token s) (sidebar s) (element s) (inserted s) (mainElement s)
        (canvasPanHook s) (position s) st (canvas s) (persistentActor s)
        (activeElement s) (nextId s).

(** The canvas was panned or zoomed to [cv]; the hook [#canvasPanHook] runs
    its callback while it is active. [this.sidebar?._updatePosition()] moves
    the sidebar panel, an application of its own. *)
Definition onCanvasPan (cv : Canvas) (s : Hud) : Hud :=
  let s := setCanvas cv s in
  if canvasPanHook s then (_updatePosition emptyPosition s).2 else s.

(** [onChange] of the settings "mode" and "scaleDimensions", after the
    setting took its new value. *)
Definition onLayoutSettingChange (s : Hud) : Hud :=
  render false (toggleSidebar None s).

Definition changeMode (m : Mode) (s : Hud) : Hud :=
  let st := settings s in
  onLayoutSettingChange
    (setSettings (mkSettings (enabled st) m (scaleDimensions st) (fontSize st)
                             (closeAllOnCLick st) (closeOnSendToChatSetting st)
                             (closeOnSpellSetting st)) s).

Definition changeScaleDimensions (b : bool) (s : Hud) : Hud :=
  let st := settings s in
  onLayoutSettingChange
    (setSettings (mkSettings (enabled st) (mode st) b (fontSize st)
                             (closeAllOnCLick st) (closeOnSendToChatSetting st)
                             (closeOnSpellSetting st)) s).

(** The listener that [#activateListeners] puts on the buttons
    [[data-action='open-sidebar']] of the content: there is a button to click
    only while the container is in the document. *)
Definition onOpenSidebarClick (name : SidebarName) (s : Hud) : Hud :=
  match document s with
  | Some _ => toggleSidebar (Some name) s
  | None => s
  end.

(** The user puts the keyboard focus on the element [i] of the HUD, or on
    an element outside of it. *)
Definition userFocus (i : nat) (s : Hud) : Hud :=
  match document s with
  | Some root => if contains root i then setActiveElement (Inside i) s else s
  | None => s
  end.

Inductive Event :=
| EvSetToken (candidate : option TokenPF2e)
| EvClose
| EvTokenClick (this : TokenPF2e) (event : PointerEvent) (activeTool : string)
| EvTokenDrag
| EvLayerClick
| EvRenderTokenHUD
| EvCloseIf (event : AdvancedHudEvent)
| EvCanvasPan (cv : Canvas)
| EvChangeMode (m : Mode)
| EvChangeScaleDimensions (b : bool)
| EvOpenSidebar (name : SidebarName)
| EvRender (force : bool)
| EvFocus (i : nat)
| EvFocusOutside (tag : string).

Definition handle (e : Event) (s : Hud) : Hud :=
  match e with
  | EvSetToken c => setToken c s
  | EvClose => close s
  | EvTokenClick this event tool => onTokenClickLeft this event tool s
  | EvTokenDrag => onTokenDragLeftStart s
  | EvLayerClick => onLayerClickLeft s
  | EvRenderTokenHUD => onRenderTokenHUD s
  | EvCloseIf event => (closeIf event s).2
  | EvCanvasPan cv => onCanvasPan cv s
  | EvChangeMode m => changeMode m s
  | EvChangeScaleDimensions b => changeScaleDimensions b s
  | EvOpenSidebar name => onOpenSidebarClick name s
  | EvRender force => render force s
  | EvFocus i => userFocus i s
  | EvFocusOutside tag => setActiveElement (Outside tag) s
  end.

Definition runEvents (es : list Event) (s : Hud) : Hud :=
  fold_left (fun s e => handle e s) es s.

(** The main element that [_replaceHTML] creates for the markup [result],
    with its layout classes and its wrapper, and the identity counter after
    it. *)
Definition newMain (result : string) (s : Hud) : Node num * nat :=
  let '(main0, next1) := createMain result (nextId s) in
  match mode (settings s) with
  | modeExploded => (classListAdd "exploded" main0, next1)
  | m =>
      let classes :=
        "joined" :: match m with modeLeft => ["left"] | _ => [] end in
      let '(wrapper, n) := createWrapper classes (kids main0) next1 in
      (appendChild wrapper (setKids [] main0), n)
  end.

(** The state of a render of an open HUD once the markup is swapped in and
    [_onRender] has run, before the position is resolved. *)
Definition afterSwap (s : Hud) : Hud :=
  let options := mkOptions (fontSize (settings s)) in
  let result := _renderHTML (_prepareContext options s) options in
  let '(content, firstRender, s) :=
    match element s with
    | Some el => (el, false, s)
    | None =>
        (mkNode (nextId s) "div" "pf2e-hud-token" "" [] ∅ ∅ [], true,
         setNextId (S (nextId s)) s)
    end in
  let '(content, s) := _replaceHTML result content options s in
  let s := setElement (Some content) (inserted s) s in
  let s := if firstRender then _insertElement s else s in
  _onRender s.

(** The markup of a render. *)
Definition renderResult (s : Hud) : string :=
  _renderHTML (_prepareContext (mkOptions (fontSize (settings s))) s)
              (mkOptions (fontSize (settings s))).

(** The container [el] holds exactly one main element, the one with
    identity [m]: no other child has its identity or its [id] attribute. *)
Definition oneMain (m : nat) (el : Node num) : Prop :=
  exists pre o post,
    kids el = (pre ++ o :: post)%list
    /\ nid o = m /\ elemId o = "pf2e-hud-token-main"
    /\ Forall (fun k => nid k <> m /\ elemId k <> "pf2e-hud-token-main")
              (pre ++ post)%list.

(** The shape the state has between two events: closed and at rest, or
    open with the container in the document, one main element in it, the
    canvas hook on, and the identities in use below the counter; and the
    focus, when inside the HUD, is on an element of the document. *)
Definition wellFormed (s : Hud) : Prop :=
  match token s with
  | None => isClosed s
  | Some _ =>
      exists el m,
        element s = Some el /\ inserted s = true /\ mainElement s = Some m
        /\ canvasPanHook s = true /\ oneMain m el
        /\ NoDup (ids el) /\ (forall i, i ∈ ids el -> i < nextId s)
  end
  /\ (forall i, activeElement s = Inside i ->
               exists el, document s = Some el /\ i ∈ ids el).

End TokenHud.
End TokenHud.

(** ** The actions sidebar ([class PF2eHudSidebarActions]) *)

Module SidebarActions.
Section SidebarActions.

(** *** Sorting as [R.sortBy] does *)

(** [R.sortBy(data, key)] copies the array and sorts it with
    [Array.prototype.sort], which is stable, on the projected key. The
    stable insertion sort gives the same array. *)
Fixpoint insertBy {A K : Type} (leb : K -> K -> bool) (key : A -> K)
         (x : A) (l : list A) : list A :=
  match l with
  | [] => [x]
  | y :: l' =>
      if leb (key x) (key y) then x :: y :: l' else y :: insertBy leb key x l'
  end.

Definition sortBy {A K : Type} (leb : K -> K -> bool) (key : A -> K)
           (l : list A) : list A :=
  foldr (insertBy leb key) [] l.

(** The order [R.sortBy] leaves the array in. *)
Definition keyLe {A K : Type} (leb : K -> K -> bool) (key : A -> K)
           (a b : A) : Prop :=
  leb (key a) (key b) = true.

(** *** Items of the actor *)

(** The keys of [ACTION_TYPES]: the action types and "exploration". *)
Inductive SectionType :=
  secAction | secReaction | secFree | secPassive | secExploration.

#[global] Instance SectionType_eq_dec : EqDecision SectionType.
Proof. solve_decision. Defined.

Record ActionTypeInfo := mkInfo { sort : nat; label : string }.

Definition ACTION_TYPES (t : SectionType) : ActionTypeInfo :=
  match t with
  | secAction => mkInfo 0 "PF2E.ActionsActionsHeader"
  | secReaction => mkInfo 1 "PF2E.ActionsReactionsHeader"
  | secFree => mkInfo 2 "PF2E.ActionsFreeActionsHeader"
  | secPassive => mkInfo 3 "PF2E.NPC.PassivesLabel"
  | secExploration => mkInfo 3 "PF2E.TravelSpeed.ExplorationActivity"
  end.

(** [ActionCost.type]: an action cost is never passive. *)
Inductive CostType := costAction | costReaction | costFree.

Record ActionCost := mkCost { costType : CostType; costValue : option nat }.

Definition costSection (c : CostType) : SectionType :=
  match c with
  | costAction => secAction
  | costReaction => secReaction
  | costFree => secFree
  end.

Record Frequency := mkFrequency {
  freqMax : Z;
  freqValue : Z;
  freqPer : string;
}.

Inductive ItemType := itAction | itFeat | itEffect | itOther.

#[global] Instance ItemType_eq_dec : EqDecision ItemType.
Proof. solve_decision. Defined.

(** An item of the actor, with the fields the sidebar reads. The UUIDs are
    of the types [CompendiumUUID | null] and [ItemUUID | null]: a UUID that
    is present is a non-empty string, hence truthy. *)
Record Item := mkItem {
  itemId : string;
  itemName : string;
  itemType : ItemType;
  slug : option string;
  compendiumSource : option string;     (* [_stats.compendiumSource] *)
  sourceId : option string;
  actionCost : option ActionCost;
  traits : list string;                 (* [system.traits.value] *)
  frequency : option Frequency;
  selfEffect : bool;                    (* [system.selfEffect] is set *)
}.

(** A weapon behind a strike. *)
Record Weapon := mkWeapon {
  weaponId : string;
  weaponTraits : list string;           (* [weapon.traits], a set *)
  doubleBarrelSelected : bool;          (* [toggles.doubleBarrel.selected] *)
  damageType : string;                  (* [system.damage.damageType] *)
  isThrown : bool;
  isMelee : bool;
}.

Record StrikeUsage := mkUsage { usageItem : Weapon; usageReady : bool }.

Record Strike := mkStrike {
  strikeItem : Weapon;
  strikeReady : bool;
  altUsages : list StrikeUsage;
}.

Definition asUsage (st : Strike) : StrikeUsage :=
  mkUsage (strikeItem st) (strikeReady st).

Record SidebarActor := mkActorData {
  isCharacter : bool;                   (* [actor.isOfType("character")] *)
  kineticist : bool;                    (* [actor.flags.pf2e.kineticist] is set *)
  inParties : nat;                      (* [actor.parties.size] *)
  exploration : list string;            (* [actor.system.exploration] *)
  items : list Item;                    (* [actor.items], in collection order *)
  actions : list Strike;                (* [actor.system.actions] *)
}.

(** [actor.itemTypes[type]] *)
Definition itemTypes (actor : SidebarActor) (t : ItemType) : list Item :=
  filter (fun i => itemType i = t) (items actor).

(** [actorItems(actor, types)] of the helper library: the items of each of
    the types in turn. *)
Definition actorItems (actor : SidebarActor) (types : list ItemType) : list Item :=
  types ≫= itemTypes actor.

(** [actor.items.get(id)] *)
Definition itemsGet (actor : SidebarActor) (id : string) : option Item :=
  List.find (fun i => bool_decide (itemId i = id)) (items actor).

(** *** The optional toolbelt module and the host's tables *)

Record StanceData := mkStance { stanceName : string; actionUUID : string }.

Record Toolbelt := mkToolbelt {
  stancesEnabled : bool;                (* setting "stances.enabled" *)
  getStances : SidebarActor -> list StanceData;
  canUseStances : SidebarActor -> bool;
  actionableEnabled : bool;             (* setting "actionable.enabled" *)
  actionableMessage : bool;             (* setting "actionable.message" *)
  getActionMacro : Item -> option string;
}.

Class ActionsHost := {
  activeToolbelt : option Toolbelt;     (* [getActiveModule("pf2e-toolbelt")] *)
  localize : string -> string;          (* [game.i18n.localize] *)
  frequencies : string -> string;       (* [CONFIG.PF2E.frequencies] *)
  damageTypes : list string;            (* keys of [CONFIG.PF2E.damageTypes] *)
  elementTraits : list string;          (* keys of [CONFIG.PF2E.elementTraits] *)
  getActionGlyph : option ActionCost -> string;
  getActionIcon : option ActionCost -> string;
  numberToString : Z -> string;         (* a number inside a template string *)
}.

Context {AH : ActionsHost}.

(** *** The context: [actionSections] *)

(** The double quote character. *)
Definition quote : string := String (Ascii.ascii_of_nat 34) "".

Record ActionUsage := mkActionUsage { disabled : bool; usageLabel : string }.

Record ActionFrequency := mkActionFrequency {
  afMax : Z;
  afValue : Z;
  afLabel : string;
}.

Record ActionData := mkAction {
  adId : string;
  adUsage : option ActionUsage;
  adFrequency : option ActionFrequency;
  adName : string;
  adImg : string;
  adIsActive : bool;
}.

Record ActionSection := mkSection {
  secType : SectionType;
  secLabel : string;
  secActions : list ActionData;
}.

Record Stances := mkStances {
  stanceActions : list StanceData;
  stancesCanUse : bool;
}.

Definition stances (actor : SidebarActor) : option Stances :=
  match activeToolbelt with
  | Some toolbelt =>
      if negb (isCharacter actor) || negb (stancesEnabled toolbelt) then None
      else
        let actions := getStances toolbelt actor in
        Some (mkStances (sortBy String.leb stanceName actions)
                        (canUseStances toolbelt actor))
  | None => None
  end.

Definition abilityTypes (actor : SidebarActor) : list ItemType :=
  [itAction] ++ (if isCharacter actor then [itFeat] else []).

Definition actionableEnabled' : bool :=
  from_option actionableEnabled false activeToolbelt.

Definition excludedUUIDS (actor : SidebarActor) : list string :=
  from_option (fun st => actionUUID <$> stanceActions st) [] (stances actor).

Definition hasKineticAura (actor : SidebarActor) : bool :=
  isCharacter actor
  && kineticist actor
  && bool_decide
       (is_Some (List.find (fun x => bool_decide (slug x = Some "effect-kinetic-aura"))
                           (itemTypes actor itEffect))).

Definition inParty (actor : SidebarActor) : bool :=
  if isCharacter actor then bool_decide (0 < inParties actor) else false.

Definition explorations (actor : SidebarActor) : list string :=
  if isCharacter actor then exploration actor else [].

(** [ability._stats.compendiumSource ?? ability.sourceId] *)
Definition abilitySourceId (ability : Item) : option string :=
  match compendiumSource ability with
  | Some u => Some u
  | None => sourceId ability
  end.

Definition isExploration (actor : SidebarActor) (ability : Item) : bool :=
  isCharacter actor && bool_decide ("exploration" ∈ traits ability).

(** The test in front of [continue]. *)
Definition skipped (actor : SidebarActor) (ability : Item) : bool :=
  (bool_decide (slug ability = Some "elemental-blast") && hasKineticAura actor)
  || match abilitySourceId ability with
     | Some sourceId => bool_decide (sourceId ∈ excludedUUIDS actor)
     | None => false
     end
  || (bool_decide (itemType ability = itFeat)
      && bool_decide (actionCost ability = None :> option ActionCost))
  || bool_decide ("downtime" ∈ traits ability)
  || (negb (inParty actor) && isExploration actor ability).

Definition abilitySection (actor : SidebarActor) (ability : Item) : SectionType :=
  match actionCost ability with
  | Some cost => costSection (costType cost)
  | None =>
      if isCharacter actor
      then (if isExploration actor ability then secExploration else secFree)
      else secPassive
  end.

Definition abilityFrequency (ability : Item) : option ActionFrequency :=
  match frequency ability with
  | Some frequency =>
      if bool_decide (freqMax frequency = 0%Z) then None
      else
        let perLabel := localize (frequencies (freqPer frequency)) in
        Some (mkActionFrequency (freqMax frequency) (freqValue frequency)
                (numberToString (freqMax frequency) ++ " / " ++ perLabel))
  | None => None
  end.

Definition abilityUsage (actor : SidebarActor) (ability : Item)
           (frequency : option ActionFrequency) : option ActionUsage :=
  if isExploration actor ability then None
  else if bool_decide (frequency = None :> option ActionFrequency)
          && negb (selfEffect ability)
          && (negb actionableEnabled'
              || match activeToolbelt with
                 | Some toolbelt =>
                     bool_decide (getActionMacro toolbelt ability = None)
                 | None => true
                 end)
  then None
  else
    let costIcon := getActionGlyph (actionCost ability) in
    let costLabel :=
      "<span class=" ++ quote ++ "action-glyph" ++ quote ++ ">"
      ++ costIcon ++ "</span>" in
    Some (mkActionUsage
            (bool_decide ((afValue <$> frequency) = Some 0%Z))
            (localize "PF2E.Action.Use" ++ " " ++ costLabel)).

(** "The actor has an active kinetic-aura effect", read on the items. *)
Definition hasKineticAuraEffect (actor : SidebarActor) : Prop :=
  exists e, e ∈ items actor /\ itemType e = itEffect
            /\ slug e = Some "effect-kinetic-aura".

(** The abilities that end up in the section of type [t]: the ones the
    loop does not skip and files under [t], in the order of the loop. *)
Definition sectionAbilities (actor : SidebarActor) (t : SectionType) : list Item :=
  filter (fun ability => skipped actor ability = false
                         /\ abilitySection actor ability = t)
         (actorItems actor (abilityTypes actor)).

(** The object pushed for an ability that is not skipped. *)
Definition actionData (actor : SidebarActor) (ability : Item) : ActionData :=
  let frequency := abilityFrequency ability in
  mkAction (itemId ability)
           (abilityUsage actor ability frequency)
           frequency
           (itemName ability)
           (getActionIcon (actionCost ability))
           (isExploration actor ability
            && bool_decide (itemId ability ∈ explorations actor)).

(** [sections[type] ??= {...}; sections[type].actions.push(a)] on an object
    whose keys keep the order in which they were added. *)
Fixpoint pushAction (t : SectionType) (a : ActionData)
         (sections : list (SectionType * ActionSection))
  : list (SectionType * ActionSection) :=
  match sections with
  | [] => [(t, mkSection t (label (ACTION_TYPES t)) [a])]
  | (t', sec) :: rest =>
      if bool_decide (t' = t)
      then (t', mkSection (secType sec) (secLabel sec) (secActions sec ++ [a])) :: rest
      else (t', sec) :: pushAction t a rest
  end.

(** [sections[t]] *)
Definition lookupSection (t : SectionType)
           (sections : list (SectionType * ActionSection)) : option ActionSection :=
  snd <$> List.find (fun p => bool_decide (p.1 = t)) sections.

(** One turn of the loop over the abilities. *)
Definition visit (actor : SidebarActor)
           (sections : list (SectionType * ActionSection)) (ability : Item)
  : list (SectionType * ActionSection) :=
  if skipped actor ability then sections
  else pushAction (abilitySection actor ability) (actionData actor ability) sections.

Definition actionSections (actor : SidebarActor) : list ActionSection :=
  let sections :=
    fold_left (visit actor) (actorItems actor (abilityTypes actor)) [] in
  (fun x => mkSection (secType x) (secLabel x)
                      (sortBy String.leb adName (secActions x)))
    <$> sortBy Nat.leb (fun x => sort (ACTION_TYPES (secType x))) (sections.*2).

(** *** The listeners

    A listener runs against the host: what it asks of the host is recorded
    in order, and it either completes or throws. *)

Inductive HostCall :=
| TogglesUpdateDoubleBarrel (weapon : string) (selected : bool)
| TogglesUpdateVersatile (weapon : string) (selected : option string)
| BlastSetDamageType (element damageType : string) (melee : bool)
| ItemUpdateFrequencyValue (item : string) (value : Z)
| CreateSelfEffectMessage (item : string)
| MacroExecute (macro : string)
| ItemToMessage (item : string).

(** The calls made, then the error thrown or the value returned. *)
Definition Handler (A : Type) : Type := list HostCall * (string + A).

#[global] Instance Handler_ret : MRet Handler := fun A a => ([], inr a).

#[global] Instance Handler_bind : MBind Handler := fun A B f m =>
  match m with
  | (cs, inl e) => (cs, inl e)
  | (cs, inr a) => let '(cs', r) := f a in ((cs ++ cs')%list, r)
  end.

(** [throw ErrorPF2e(msg)] *)
Definition throw {A : Type} (msg : string) : Handler A := ([], inl msg).

Definition hostCall (c : HostCall) : Handler unit := ([c], inr tt).

Definition callsOf {A : Type} (m : Handler A) : list HostCall := m.1.

Definition threw {A : Type} (m : Handler A) : Prop :=
  exists msg, m.2 = inl msg.

(** The button that was clicked, with what the listeners read from it and
    from the rows around it. *)
Record Button := mkButton {
  dataTrait : option string;            (* [button.dataset.trait] *)
  dataValue : option string;            (* [button.dataset.value] *)
  dataAltUsage : option string;         (* [button.dataset.altUsage] *)
  dataMelee : option string;            (* [button.dataset.melee] *)
  classSelected : bool;                 (* [classList.contains("selected")] *)
  actionIndex : option Z;               (* [Number(closest("[data-index]")...)],
                                           [None] for [NaN] *)
  rowItemId : string;                   (* [closest(".item").dataset.itemId] *)
  rowElement : option string;           (* [itemRow.dataset.element] *)
  rowDamageType : option string;        (* [itemRow.dataset.damageType] *)
}.

(** [array.at(i)]: [NaN] counts as 0, a negative index counts from the end. *)
Definition arrayAt {A : Type} (l : list A) (i : option Z) : option A :=
  let k := default 0%Z i in
  let k := if (k <? 0)%Z then (Z.of_nat (length l) + k)%Z else k in
  if (k <? 0)%Z then None else l !! Z.to_nat k.

Inductive AltUsage := usageThrown | usageMelee.

(** [tupleHasValue(["thrown", "melee"], v) ? v : null] *)
Definition altUsageOf (v : option string) : option AltUsage :=
  match v with
  | Some s =>
      if bool_decide (s = "thrown") then Some usageThrown
      else if bool_decide (s = "melee") then Some usageMelee
      else None
  | None => None
  end.

Definition getStrike (actor : SidebarActor) (button : Button) (readyOnly : bool)
  : option StrikeUsage :=
  let rootAction := arrayAt (actions actor) (actionIndex button) in
  let altUsage := altUsageOf (dataAltUsage button) in
  let strike :=
    match altUsage with
    | Some u =>
        r ← rootAction;
        List.find (fun s => match u with
                            | usageThrown => isThrown (usageItem s)
                            | usageMelee => isMelee (usageItem s)
                            end) (altUsages r)
    | None => asUsage <$> rootAction
    end in
  match strike with
  | Some st => if usageReady st || negb readyOnly then Some st else None
  | None => None
  end.

Definition getBlast (button : Button) : Handler (string * string * bool) :=
  let melee := bool_decide (dataMelee button = Some "true") in
  let element := rowElement button in
  let damageType :=
    match dataValue button with
    | Some v => if bool_decide (v = "") then rowDamageType button else Some v
    | None => rowDamageType button
    end in
  match element with
  | Some element =>
      if bool_decide (element ∈ elementTraits) then
        match damageType with
        | Some damageType =>
            if bool_decide (damageType ∈ damageTypes)
            then mret (element, damageType, melee)
            else throw "Unexpected error retrieving damage type"
        | None => throw "Unexpected error retrieving damage type"
        end
      else throw "Unexpected error retrieve element"
  | None => throw "Unexpected error retrieve element"
  end.

(** [case "blast-set-damage-type"] *)
Definition blastSetDamageType (button : Button) : Handler unit :=
  '(element, damageType, melee) ← getBlast button;
  hostCall (BlastSetDamageType element damageType melee).

(** The value of [selected] in the versatile branch. *)
Inductive Selection := selNull | selUndefined | selValue (v : string).

Definition versatileSelection (button : Button) (weapon : option Weapon)
  : Selection :=
  let baseType := damageType <$> weapon in
  let value := dataValue button in
  if classSelected button
     || match value, baseType with
        | Some v, Some b => bool_decide (v = b)
        | _, _ => false
        end
  then selNull
  else match value with Some v => selValue v | None => selUndefined end.

(** [objectHasKey(CONFIG.PF2E.damageTypes, selected) || selected === null] *)
Definition selectionIsValid (selected : Selection) : bool :=
  match selected with
  | selNull => true
  | selUndefined => false
  | selValue v => bool_decide (v ∈ damageTypes)
  end.

(** [case "toggle-weapon-trait"] *)
Definition toggleWeaponTrait (actor : SidebarActor) (button : Button)
  : Handler unit :=
  let weapon := usageItem <$> getStrike actor button false in
  let trait := dataTrait button in
  let errorMessage := "Unexpected failure while toggling weapon trait" in
  if bool_decide (trait = Some "double-barrel") then
    let selected := negb (from_option doubleBarrelSelected false weapon) in
    match weapon with
    | Some weapon =>
        if bool_decide ("double-barrel" ∈ weaponTraits weapon)
        then hostCall (TogglesUpdateDoubleBarrel (weaponId weapon) selected)
        else throw errorMessage
    | None => throw errorMessage
    end
  else if bool_decide (trait = Some "versatile") then
    let selected := versatileSelection button weapon in
    match weapon with
    | Some weapon =>
        if selectionIsValid selected
        then hostCall (TogglesUpdateVersatile (weaponId weapon)
                         (match selected with selValue v => Some v | _ => None end))
        else throw errorMessage
    | None => throw errorMessage
    end
  else throw errorMessage.

(** Is the call a write of a frequency value? *)
Definition isFrequencyUpdate (c : HostCall) : bool :=
  match c with ItemUpdateFrequencyValue _ _ => true | _ => false end.

(** [case "use-action"] *)
Definition useAction (actor : SidebarActor) (button : Button) : Handler unit :=
  let itemId' := rowItemId button in
  match itemsGet actor itemId' with
  | None => mret tt
  | Some item =>
      if negb (bool_decide (itemType item ∈ [itFeat; itAction])) then mret tt
      else
        _ ← match frequency item with
            | Some frequency =>
                if negb (bool_decide (freqMax frequency = 0%Z))
                   && negb (bool_decide (freqValue frequency = 0%Z))
                then hostCall (ItemUpdateFrequencyValue (itemId item)
                                 (freqValue frequency - 1)%Z)
                else mret tt
            | None => mret tt
            end;
        if selfEffect item then hostCall (CreateSelfEffectMessage (itemId item))
        else
          let toolbelt := activeToolbelt in
          let macro := tb ← toolbelt; getActionMacro tb item in
          _ ← match macro with
              | Some m => hostCall (MacroExecute m)
              | None => mret tt
              end;
          if bool_decide (macro = None)
             || from_option actionableMessage false toolbelt
          then hostCall (ItemToMessage (itemId item))
          else mret tt
  end.

(** [item.update({ "system.frequency.value": v })] on the host's side: the
    value is written into the stored item. *)
Definition applyCall (c : HostCall) (its : list Item) : list Item :=
  match c with
  | ItemUpdateFrequencyValue id v =>
      (fun i =>
         if bool_decide (itemId i = id)
         then mkItem (itemId i) (itemName i) (itemType i) (slug i)
                     (compendiumSource i) (sourceId i) (actionCost i) (traits i)
                     ((fun f => mkFrequency (freqMax f) v (freqPer f)) <$> frequency i)
                     (selfEffect i)
         else i) <$> its
  | _ => its
  end.

Definition applyCalls (cs : list HostCall) (its : list Item) : list Item :=
  fold_left (fun its c => applyCall c its) cs its.

(** The frequency value stored for the item [id]. *)
Definition storedFrequencyValue (its : list Item) (id : string) : option Z :=
  i ← List.find (fun i => bool_decide (itemId i = id)) its;
  freqValue <$> frequency i.


(** *** The context: [heroActions] *)

Record HeroActionFlag := mkHeroAction { heroUuid : string; heroName : string }.

(** [toolbelt.api.heroActions] with the setting "heroActions.enabled". *)
Record HeroActionsApi := mkHeroApi {
  heroActionsEnabled : bool;            (* setting "heroActions.enabled" *)
  getHeroActions : SidebarActor -> list HeroActionFlag;
  usesCountVariant : bool;
  canTrade : bool;
}.

Record HeroActions := mkHeroActions {
  haActions : list HeroActionFlag;
  haUsesCount : bool;
  haMustDiscard : bool;
  haMustDraw : bool;
  haCanUse : bool;
  haCanTrade : bool;                    (* [boolean | 0], as the template tests it *)
  haDiff : Z;
}.

(** [heroApi] is the hero actions part of the toolbelt module and
    [heroPoints] is [actor.heroPoints.value]. *)
Definition heroActions (heroApi : Toolbelt -> HeroActionsApi) (heroPoints : Z)
           (actor : SidebarActor) : option HeroActions :=
  match activeToolbelt with
  | Some toolbelt =>
      if negb (isCharacter actor) || negb (heroActionsEnabled (heroApi toolbelt))
      then None
      else
        let api := heroApi toolbelt in
        let actions := getHeroActions api actor in
        let usesCount := usesCountVariant api in
        let diff := (heroPoints - Z.of_nat (length actions))%Z in
        let mustDiscard := negb usesCount && (diff <? 0)%Z in
        let mustDraw := negb usesCount && (0 <? diff)%Z in
        Some (mkHeroActions
                (sortBy String.leb heroName actions)
                usesCount
                mustDiscard
                mustDraw
                ((usesCount && (0 <? heroPoints)%Z) || (0 <=? diff)%Z)
                (negb (Nat.eqb (length actions) 0) && negb mustDiscard && negb mustDraw
                 && canTrade api)
                (Z.abs diff))
  | None => None
  end.

(** *** The blast listeners *)

Inductive BlastOutcome := outSuccess | outCriticalSuccess.

(** What is handed to [blast.attack] and to [blast.damage]. *)
Inductive BlastRequest :=
| BlastAttack (element damageType : string) (melee : bool) (mapIncreases : option Z)
| BlastDamage (element damageType : string) (melee : bool) (outcome : BlastOutcome).

(** [Math.clamp(n, 0, 2)], with [None] for [NaN]. *)
Definition clampMap (n : option Z) : option Z :=
  (fun n => Z.min (Z.max n 0) 2) <$> n.

(** [case "blast-attack"]; [mapIncreases] is
    [Number(button.dataset.mapIncreases)]. *)
Definition blastAttack (button : Button) (mapIncreases : option Z)
  : Handler BlastRequest :=
  '(element, damageType, melee) ← getBlast button;
  mret (BlastAttack element damageType melee (clampMap mapIncreases)).

(** [case "blast-damage"]; [outcome] is [button.dataset.outcome]. *)
Definition blastDamage (button : Button) (outcome : option string)
  : Handler BlastRequest :=
  '(element, damageType, melee) ← getBlast button;
  mret (BlastDamage element damageType melee
          (if bool_decide (outcome = Some "success")
           then outSuccess else outCriticalSuccess)).

End SidebarActions.
End SidebarActions.

(** ** Concrete inputs *)

Module Examples.
Import Dom TokenHud.

(** Rationals stand in for the geometry numbers of the examples. *)
#[export] Instance QNumber : JsNumber Q := {
jmul := Qmult;
jdiv := Qdiv;
jone := 1%Q;
jhundred := 100%Q;
}.

(** Health as (value, max); the other blocks carry nothing. *)
#[export] Instance exStatTypes : StatTypes := {
Health := Z * Z;
HeaderRest := unit;
StatsAdvanced := unit;
StatsHeaderExtras := unit;
SidebarMenu := string;
}.

(** The actor "Actor.ghost" has no health block, every other actor has one. *)
#[export] Instance exProviders : StatProviders := {
getStatsHeader a :=
  mkStatsHeader
    (if bool_decide (actorUuid a = "Actor.ghost") then None else Some (12, 30)%Z)
    tt;
getAdvancedStats _ := tt;
getStatsHeaderExtras _ := tt;
getSidebars _ := ["actions"; "items"];
}.

(** A HUD template with one input, named "amount". *)
#[export] Instance exTemplates : Templates := {
renderTemplate _ _ := "<input name=amount>";
parseHTML markup :=
  if bool_decide (markup = "<input name=amount>")
  then [mkTpl "input" "amount" [] []]
  else [];
parseHTML_empty := eq_refl;
}.

Definition exSettings : TokenSettings (num := Q) :=
mkSettings true modeExploded false 14%Q false optNever optNever.

Definition exCanvas : Canvas (num := Q) :=
mkCanvas 10%Q 20%Q 4000%Q 3000%Q 100%Q (1 # 2)%Q.

Definition exHero : Actor := mkActor "Actor.hero" character true false.
Definition exGhost : Actor := mkActor "Actor.ghost" npc true false.
Definition exStranger : Actor := mkActor "Actor.stranger" npc false false.

Definition exToken (i : nat) (a : Actor) : TokenPF2e (num := Q) :=
mkToken i (Some a) (mkRect 300%Q 400%Q) (mkDocument "Token" 1%Q 1%Q).

(** The initial state: closed, nothing rendered. *)
Definition exClosed : Hud (num := Q) :=
mkHud None None None false None false emptyPosition exSettings exCanvas
      None NoFocus 0.

(** The HUD open on the hero's token. *)
Definition exOpen : Hud (num := Q) := setToken (Some (exToken 1 exHero)) exClosed.

(** ... with the actions sidebar showing. *)
Definition exOpenSidebar : Hud (num := Q) := toggleSidebar (Some "actions") exOpen.

(** ... while the user types into the HUD's input (element 2). *)
Definition exTyping : Hud (num := Q) := setActiveElement (Inside 2) exOpenSidebar.

(** The HUD open on the hero's token, the user typing into its input. *)
Definition exFocused : Hud (num := Q) := setActiveElement (Inside 2) exOpen.

(** The HUD open on a token whose actor has no health block. *)
Definition exGhostOpen : Hud (num := Q) := setToken (Some (exToken 3 exGhost)) exClosed.

(** The open HUD with a stale position and a stale style on the container,
  as a canvas pan leaves them before the resolver runs again. *)
Definition exStale : Hud (num := Q) :=
setPositionSlot (mkPosition (Some 999%Q) (Some 999%Q) None None None (Some 5%Q))
  (setElement (setProperty "left" (Px 999%Q) <$> element exOpen) true exOpen).

(** The close policies set: the sidebar on a message sent to the chat,
    the whole HUD on a spell cast. *)
Definition exPolicySettings : TokenSettings (num := Q) :=
mkSettings true modeExploded false 14%Q false optSidebar optAll.

(** The HUD open on the hero's token, no sidebar showing, under these
    policies; the same with the actions sidebar; and the closed HUD. *)
Definition exOpenPolicies : Hud (num := Q) := setSettings exPolicySettings exOpen.

Definition exSidebarPolicies : Hud (num := Q) :=
setSettings exPolicySettings exOpenSidebar.

Definition exClosedPolicies : Hud (num := Q) :=
setSettings exPolicySettings exClosed.

(** A session: the hero's token is clicked, the layout is switched to the
    left, the user goes into the input, the actions sidebar is opened, the
    canvas is zoomed, an update of the actor renders the HUD again. *)
Definition exSession : list (Event (num := Q)) :=
  [EvTokenClick (exToken 1 exHero) (mkPointer false false) "select";
   EvChangeMode modeLeft;
   EvFocus 4;
   EvOpenSidebar "actions";
   EvCanvasPan (mkCanvas 0%Q 0%Q 4000%Q 3000%Q 100%Q 2%Q);
   EvRender false].

End Examples.

Module ActionExamples.
Import SidebarActions.

(** The toolbelt with stances on: the crane stance is a stance of every actor. *)
Definition exToolbelt : Toolbelt :=
mkToolbelt true
           (fun _ => [mkStance "Crane Stance" "Compendium.feats.crane"])
           (fun _ => true)
           false false
           (fun _ => None).

#[export] Instance exHost : ActionsHost := {
activeToolbelt := Some exToolbelt;
localize key := key;
frequencies per := per;
damageTypes := ["bludgeoning"; "piercing"; "slashing"; "fire"];
elementTraits := ["air"; "earth"; "fire"; "water"];
getActionGlyph _ := "A";
getActionIcon _ := "icons/action.webp";
numberToString _ := "n";
}.

Definition exAbility (id name : string) (ty : ItemType) (sl src : option string)
         (cost : option ActionCost) (tr : list string) (fr : option Frequency)
: Item :=
mkItem id name ty sl src None cost tr fr false.

Definition exAura : Item :=
exAbility "e1" "Kinetic Aura" itEffect (Some "effect-kinetic-aura") None None [] None.

Definition exBlast : Item :=
exAbility "a1" "Elemental Blast" itAction (Some "elemental-blast") None
          (Some (mkCost costAction (Some 2))) [] None.

Definition exStrideAction : Item :=
exAbility "a2" "Stride" itAction (Some "stride") None
          (Some (mkCost costAction (Some 1))) [] None.

Definition exShieldBlock : Item :=
exAbility "f1" "Shield Block" itFeat (Some "shield-block") None
          (Some (mkCost costReaction None)) [] None.

Definition exCraneStance : Item :=
exAbility "f2" "Crane Stance" itFeat (Some "crane-stance")
          (Some "Compendium.feats.crane")
          (Some (mkCost costAction (Some 1))) [] None.

Definition exBattleCry : Item :=
exAbility "f3" "Battle Cry" itFeat (Some "battle-cry") None
          (Some (mkCost costFree None)) []
          (Some (mkFrequency 3 2 "day")).

Definition exSpent : Item :=
exAbility "f4" "Aid" itFeat (Some "aid") None
          (Some (mkCost costAction (Some 1))) []
          (Some (mkFrequency 1 0 "day")).

(** A double-barrelled pistol with the versatile trait. *)
Definition exPistol : Weapon :=
mkWeapon "w1" ["double-barrel"; "versatile-p"] false "bludgeoning" false false.

Definition exSword : Weapon :=
mkWeapon "w2" ["versatile-p"] false "slashing" false true.

Definition exStrikes : list Strike :=
[mkStrike exPistol true []; mkStrike exSword true []].

(** A kineticist character with its aura up. *)
Definition exKineticist : SidebarActor :=
mkActorData true true 0 []
  [exAura; exBlast; exStrideAction; exShieldBlock; exCraneStance; exBattleCry;
   exSpent]
  exStrikes.

(** A non-player character that carries the same aura effect and the same
  elemental-blast ability. *)
Definition exNpc : SidebarActor :=
mkActorData false false 0 [] [exAura; exBlast; exStrideAction] [].

Definition exButton (trait value : option string) (index : option Z)
         (item : string) : Button :=
mkButton trait value None None false index item None None.

(** The button of a fire blast, on the row of the fire element. *)
Definition exBlastButton (value : option string) (melee : option string) : Button :=
mkButton None value None melee false None "" (Some "fire") (Some "fire").

(** The hero actions of the toolbelt: every actor holds two of them. *)
Definition exHeroApi (_ : Toolbelt) : HeroActionsApi :=
mkHeroApi true
          (fun _ => [mkHeroAction "hero.surge" "Surge of Speed";
                     mkHeroAction "hero.last" "Last Stand"])
          false true.

End ActionExamples.

(** * Properties of the token HUD *)

Section TokenHudFacts.
Import Dom TokenHud.
Context {num : Type} {JN : JsNumber num} {ST : StatTypes} {SP : StatProviders}
        {TP : Templates}.
Implicit Types (s : Hud (num := num)) (tk : TokenPF2e (num := num)).

(** The swap of the markup only writes the main element, the focus and the
    identity counter. *)
Lemma replaceHTML_frame result content options s :
  let s' := (_replaceHTML result content options s).2 in
  token s' = token s /\ sidebar s' = sidebar s /\ element s' = element s
  /\ inserted s' = inserted s /\ canvasPanHook s' = canvasPanHook s
  /\ settings s' = settings s /\ canvas s' = canvas s
  /\ position s' = position s /\ is_Some (mainElement s').
Proof.
  unfold _replaceHTML. repeat case_match; simpl; eauto 10.
Qed.

(** The position resolver keeps everything but the element's styles. *)
Lemma updatePosition_frame p s :
  let s' := (_updatePosition p s).2 in
  token s' = token s /\ sidebar s' = sidebar s /\ inserted s' = inserted s
  /\ mainElement s' = mainElement s /\ canvasPanHook s' = canvasPanHook s
  /\ settings s' = settings s /\ canvas s' = canvas s
  /\ (is_Some (element s) -> is_Some (element s')).
Proof.
  unfold _updatePosition. repeat case_match; simpl; repeat split; eauto.
  all: by intros [? ?].
Qed.

Lemma render_closed force s : token s = None -> render force s = s.
Proof. unfold render. intros ->. reflexivity. Qed.

(** A render keeps the tracked token and the sidebar slot, and leaves the
    container and the main element in place. *)
Lemma render_open force s tk :
  token s = Some tk ->
  let s' := render force s in
  token s' = Some tk /\ sidebar s' = sidebar s /\ settings s' = settings s
  /\ is_Some (element s') /\ is_Some (mainElement s')
  /\ canvasPanHook s' = true.
Proof.
  intros Htk. unfold render. rewrite Htk.
  repeat match goal with
  | |- context [_replaceHTML ?r ?c ?o ?s0] =>
      let H := fresh "Hr" in
      pose proof (replaceHTML_frame r c o s0) as H;
      destruct (_replaceHTML r c o s0) as [? ?]; cbn zeta in H; simpl in H
  | |- context [_updatePosition ?p ?s0] =>
      let H := fresh "Hp" in
      pose proof (updatePosition_frame p s0) as H;
      destruct (_updatePosition p s0) as [? ?]; cbn zeta in H; simpl in H
  | |- context [match element ?s0 with _ => _ end] => destruct (element s0)
  end; simpl in *.
  all: destruct_and?; simpl in *.
  all: repeat split; try congruence; eauto.
Qed.

Lemma toggleSidebar_None s :
  toggleSidebar None s = setSidebarSlot None s.
Proof. reflexivity. Qed.

(** The closing branch of the base class ends in the resting state and
    keeps the sidebar slot as it finds it. *)
Lemma base_setToken_None s :
  let s' := base_setToken None s in
  token s' = None /\ sidebar s' = sidebar s /\ element s' = None
  /\ inserted s' = false /\ mainElement s' = None /\ canvasPanHook s' = false
  /\ settings s' = settings s.
Proof. cbv. repeat split. Qed.

Lemma base_setToken_Some tk s :
  let s' := base_setToken (Some tk) s in
  token s' = Some tk /\ sidebar s' = sidebar s /\ settings s' = settings s
  /\ is_Some (element s') /\ is_Some (mainElement s').
Proof.
  unfold base_setToken, _onSetToken.
  pose proof (render_open true (setTokenSlot (Some tk) s) tk eq_refl) as H.
  cbn zeta in *. destruct_and?. repeat split; auto.
Qed.

Lemma setToken_None_closed s : isClosed (setToken None s).
Proof. cbv. repeat split. Qed.

Lemma close_closed s : isClosed (close s).
Proof. apply setToken_None_closed. Qed.

(** Whatever the candidate, [setToken] leaves no sidebar open. *)
Lemma sidebar_setToken c s : sidebar (setToken c s) = None.
Proof.
  unfold setToken. destruct c as [tk|].
  - case_match.
    + apply (base_setToken_None (toggleSidebar None s)).
    + pose proof (base_setToken_Some tk (toggleSidebar None s)) as Hb.
      cbn zeta in Hb. destruct_and?. etrans; [eassumption|reflexivity].
  - apply (base_setToken_None (toggleSidebar None s)).
Qed.

(** The guard of [setToken] holds exactly for the ineligible candidates. *)
Lemma guard_ineligible tk s :
  match tokenActor tk with
  | None => true
  | Some a =>
      negb (isOwner a) || isOfType a [loot; party] || sheetRendered a
      || persistentIsCurrentActor a (toggleSidebar None s)
  end = true <-> ineligible tk s.
Proof.
  unfold ineligible, isOfType, persistentIsCurrentActor.
  destruct (tokenActor tk) as [a|]; [|tauto].
  rewrite !orb_true_iff, negb_true_iff, !bool_decide_eq_true.
  rewrite elem_of_cons, list_elem_of_singleton. simpl. tauto.
Qed.

(** C1. A non-null candidate whose actor is not owned by the user, is of
    type loot or party, has its sheet rendered or is the actor of the
    persistent HUD is downgraded: [setToken] does what [setToken(null)] does
    and the HUD ends closed. Any other candidate ends tracked, with the HUD
    open on it. *)
Theorem setToken_eligibility tk s :
  (ineligible tk s ->
     setToken (Some tk) s = setToken None s /\ isClosed (setToken (Some tk) s))
  /\ (~ ineligible tk s -> isOpenOn tk (setToken (Some tk) s)).
Proof.
  pose proof (guard_ineligible tk s) as Hg.
  unfold setToken at 1 3 4. cbn zeta.
  split; intros Hi.
  - apply Hg in Hi. rewrite Hi. split; [reflexivity|].
    apply setToken_None_closed.
  - destruct (match tokenActor tk with None => true | Some a => _ end) eqn:E.
    + exfalso. apply Hi, Hg. reflexivity.
    + pose proof (base_setToken_Some tk (toggleSidebar None s)) as H.
      cbn zeta in H. unfold isOpenOn. tauto.
Qed.

Lemma step_sidebar o s : sidebar (step o s) = None.
Proof. destruct o; apply sidebar_setToken. Qed.

Lemma run_snoc (ops : list Op) o s :
  run (ops ++ [o])%list s = step o (run ops s).
Proof. unfold run. rewrite fold_left_app. reflexivity. Qed.

(** C2. The invariant "a sidebar shows only on an open HUD" survives every
    run of [setToken] and [close]; every [setToken] is the base transition
    taken from a state whose sidebar was forced to none first; and a run
    that ends in [close()] or [setToken(null)] leaves the HUD closed with no
    sidebar. *)
Theorem sidebar_invariant_runs ops s :
  sidebarInvariant s ->
  sidebarInvariant (run ops s)
  /\ (forall c s0, sidebar (toggleSidebar None s0) = None
        /\ (exists c', setToken c s0 = base_setToken c' (toggleSidebar None s0))
        /\ sidebar (setToken c s0) = None)
  /\ (forall ops' : list Op,
        ops = (ops' ++ [OpClose])%list \/ ops = (ops' ++ [OpSetToken None])%list ->
        sidebar (run ops s) = None /\ isClosed (run ops s)).
Proof.
  intros Hinv. split; [|split].
  - destruct ops as [|o ops] using rev_ind; [exact Hinv|].
    rewrite run_snoc. intros Hs. rewrite step_sidebar in Hs. congruence.
  - intros c s0. split; [reflexivity|]. split; [|apply sidebar_setToken].
    unfold setToken. destruct c as [tk|]; [|by eexists].
    cbn zeta. by eexists.
  - intros ops' [-> | ->]; rewrite run_snoc; unfold step, close;
      (split; [apply sidebar_setToken | apply setToken_None_closed]).
Qed.

(** C3 (as the code has it). [closeIf] by policy: never changes nothing and
    answers false; all closes the whole HUD; sidebar closes the sidebar and
    leaves the rest of the HUD as it was; the answer is true exactly when
    the policy is not never, whether or not anything was open to close:
    with the policy sidebar and no sidebar showing the answer is true and
    the state is as it was. *)
Theorem closeIf_policy event s :
  let policy := getCloseSetting (eventToSetting event) s in
  let r := closeIf event s in
  (policy = optNever -> r = (false, s))
  /\ (policy = optAll -> r = (true, close s) /\ isClosed r.2)
  /\ (policy = optSidebar ->
        r = (true, toggleSidebar None s) /\ sidebar r.2 = None
        /\ token r.2 = token s /\ element r.2 = element s
        /\ inserted r.2 = inserted s /\ mainElement r.2 = mainElement s
        /\ canvasPanHook r.2 = canvasPanHook s)
  /\ (r.1 = true <-> policy <> optNever)
  /\ (policy = optSidebar -> sidebar s = None -> r = (true, s)).
Proof.
  unfold closeIf. cbn zeta.
  destruct (getCloseSetting (eventToSetting event) s); simpl.
  - repeat split; try congruence.
  - repeat split; try congruence.
    intros _ Hs. f_equal. destruct s. simpl in Hs. subst. reflexivity.
  - repeat split; try congruence; discriminate.
Qed.

(** C7 (as the code has it). With [closeAllOnCLick] a click on the canvas
    layer closes the whole HUD. Without it, a click while an input or a
    text area has the focus only takes the focus away and closes nothing;
    otherwise a click while a sidebar shows closes the sidebar alone, and a
    click while none shows closes the whole HUD. *)
Theorem clickClose_stages s :
  (closeAllOnCLick (settings s) = true ->
     clickClose s = close s /\ isClosed (clickClose s))
  /\ (closeAllOnCLick (settings s) = false ->
       (typing s ->
          clickClose s = setActiveElement NoFocus s
          /\ sidebar (clickClose s) = sidebar s
          /\ token (clickClose s) = token s
          /\ element (clickClose s) = element s)
       /\ (~ typing s -> sidebar s <> None ->
            sidebar (clickClose s) = None
            /\ token (clickClose s) = token s
            /\ element (clickClose s) = element s
            /\ mainElement (clickClose s) = mainElement s)
       /\ (~ typing s -> sidebar s = None -> isClosed (clickClose s))).
Proof.
  unfold clickClose, typing. split; intros Hc; rewrite Hc.
  - split; [reflexivity | apply close_closed].
  - assert (Hdec : bool_decide (activeTag s = "input")
                   || bool_decide (activeTag s = "textarea") = true
                   <-> activeTag s = "input" \/ activeTag s = "textarea").
    { rewrite orb_true_iff, !bool_decide_eq_true. tauto. }
    destruct (bool_decide (activeTag s = "input")
              || bool_decide (activeTag s = "textarea")) eqn:E.
    + split; [intros _; repeat split | split; intros Hn; exfalso; tauto].
    + assert (Hn : ~ (activeTag s = "input" \/ activeTag s = "textarea")).
      { intros Ht. apply Hdec in Ht. congruence. }
      split; [tauto|]. split; intros _ Hs.
      * destruct (sidebar s) eqn:Es; [|congruence]. repeat split.
      * rewrite Hs. apply close_closed.
Qed.

(** C4. When the stat header of the tracked actor has no health block the
    render stops short: the context is the base context without any stat
    block, the markup is the empty string, and the render leaves the token
    tracked and the container and its main element in place. *)
Theorem render_without_health s tk a :
  token s = Some tk ->
  tokenActor tk = Some a ->
  health (getStatsHeader a) = None ->
  let options := mkOptions (fontSize (settings s)) in
  let context := _prepareContext options s in
  context = baseOnly (mkBaseContext (Some a))
  /\ ctxStatsHeader context = None /\ ctxAdvanced context = None
  /\ ctxExtras context = None /\ ctxSidebars context = None
  /\ _renderHTML context options = ""
  /\ token (render true s) = Some tk
  /\ is_Some (element (render true s))
  /\ is_Some (mainElement (render true s))
  /\ sidebar (render true s) = sidebar s.
Proof.
  intros Htk Ha Hh. cbn zeta.
  assert (Hc : _prepareContext (mkOptions (fontSize (settings s))) s
               = baseOnly (mkBaseContext (Some a))).
  { unfold _prepareContext, base_prepareContext, actor.
    rewrite Htk. simpl. rewrite Ha. simpl. rewrite Hh. reflexivity. }
  rewrite Hc. repeat split.
  all: pose proof (render_open true s tk Htk) as Hr; cbn zeta in Hr; tauto.
Qed.

Lemma lookup_setProperty k v (n : Node num) k' :
  style (setProperty k v n) !! k'
  = if decide (k = k') then Some v else style n !! k'.
Proof. apply lookup_insert. Qed.

Lemma childById_setProperty i k v (el : Node num) :
  childById i (setProperty k v el) = childById i el.
Proof. reflexivity. Qed.

Lemma childById_updateChild i f (el : Node num) :
  (forall k, nid (f k) = nid k) ->
  childById i (updateChild i f el) = f <$> childById i el.
Proof.
  intros Hf. unfold childById, updateChild. simpl.
  induction (kids el) as [|k ks IH]; [reflexivity|]. simpl.
  destruct (bool_decide (nid k = i)) eqn:E; simpl.
  - rewrite Hf, E. reflexivity.
  - rewrite E. exact IH.
Qed.

Lemma childById_is_Some i (el : Node num) :
  i ∈ nid <$> kids el -> is_Some (childById i el).
Proof.
  unfold childById. induction (kids el) as [|k ks IH]; simpl.
  - intros H. by apply elem_of_nil in H.
  - intros H. apply elem_of_cons in H.
    destruct (bool_decide (nid k = i)) eqn:E; [by eexists|].
    apply bool_decide_eq_false in E. destruct H; [congruence | auto].
Qed.

(** C6. Without a tracked token or without a container the position comes
    back as it came and nothing is written. With both, what is computed is
    fixed by the canvas, the token and the [scaleDimensions] setting alone:
    the position passed in and the styles left by earlier calls play no
    part. *)
Theorem updatePosition_pure :
  (forall p s, token s = None \/ element s = None -> _updatePosition p s = (p, s))
  /\ (forall p1 p2 s1 s2 tk el1 el2 m1 m2,
        token s1 = Some tk -> token s2 = Some tk ->
        canvas s1 = canvas s2 ->
        scaleDimensions (settings s1) = scaleDimensions (settings s2) ->
        element s1 = Some el1 -> element s2 = Some el2 ->
        mainElement s1 = Some m1 -> mainElement s2 = Some m2 ->
        m1 ∈ nid <$> kids el1 -> m2 ∈ nid <$> kids el2 ->
        geometry (_updatePosition p1 s1) = geometry (_updatePosition p2 s2)).
Proof.
  split.
  - intros p s [H | H]; unfold _updatePosition; rewrite H;
      [reflexivity | by destruct (token s)].
  - intros p1 p2 s1 s2 tk el1 el2 m1 m2 T1 T2 Hc Hs E1 E2 M1 M2 I1 I2.
    unfold geometry, _updatePosition, mainNode.
    rewrite T1, T2, E1, E2, M1, M2, Hc, Hs.
    cbn [fst snd element mainElement setElement posLeft posTop posWidth
         posHeight posScale].
    rewrite M1, M2.
    cbn [mbind option_bind fmap option_fmap option_map].
    rewrite !childById_updateChild by reflexivity.
    rewrite !childById_setProperty.
    destruct (childById_is_Some _ _ I1) as [c1 ->].
    destruct (childById_is_Some _ _ I2) as [c2 ->].
    unfold styleProps, updateChild.
    cbn [fmap list_fmap option_fmap option_map setKids style].
    rewrite !lookup_setProperty. reflexivity.
Qed.

End TokenHudFacts.

(** * More on the DOM of the HUD *)

Section DomFacts.
Import Dom.
Context {num : Type}.
Implicit Types (n el : Node num) (ks : list (Node num)).

Lemma descendants_unfold n :
  descendants n = kids n ≫= (fun k => k :: descendants k).
Proof.
  destruct n as [i tg eid nm cls ds st ks]. simpl.
  induction ks as [|k ks IH]; [reflexivity|].
  simpl. rewrite IH. reflexivity.
Qed.

Lemma ids_unfold n :
  ids n = nid n :: (kids n ≫= ids).
Proof.
  unfold ids. rewrite fmap_cons, descendants_unfold. f_equal.
  generalize (kids n). intros ks.
  induction ks as [|k ks IH]; [reflexivity|].
  rewrite !bind_cons, fmap_app, IH. reflexivity.
Qed.

Lemma contains_ids n i : contains n i = true <-> i ∈ ids n.
Proof. unfold contains. apply bool_decide_eq_true. Qed.

Lemma tsizes_kids t : tsize t = S (tsizes (tKids t)).
Proof.
  destruct t as [tg nm cls ts]. reflexivity.
Qed.

Lemma build_unfold (t : Tpl) (next : nat) :
  build (num := num) t next
  = let '(ks, next') := buildAll (tKids t) (S next) in
    (mkNode next (tTag t) "" (tName t) (tClasses t) ∅ ∅ ks, next').
Proof.
  destruct t as [tg nm cls ts]. reflexivity.
Qed.

(** What [build] numbers: the elements get the identities from [next] on,
    one after the other in document order. *)
Lemma build_ids_aux (fuel : nat) :
  forall (t : Tpl) (next : nat), tsize t <= fuel ->
    ids (build (num := num) t next).1 = seq next (tsize t)
    /\ (build (num := num) t next).2 = next + tsize t.
Proof.
  induction fuel as [|fuel IH]; intros t next Hsz.
  - rewrite tsizes_kids in Hsz. lia.
  - assert (Hall : forall (l : list Tpl) (a : nat),
              tsizes l <= fuel ->
              (buildAll (num := num) l a).1 ≫= ids = seq a (tsizes l)
              /\ (buildAll (num := num) l a).2 = a + tsizes l).
    { induction l as [|t' l IHl]; intros a Hl.
      - simpl. split; [reflexivity | lia].
      - simpl in Hl. cbn [buildAll tsizes].
        destruct (IH t' a ltac:(lia)) as [H1 H2].
        destruct (build (num := num) t' a) as [k n1]. simpl in H1, H2.
        destruct (IHl n1 ltac:(lia)) as [H3 H4].
        destruct (buildAll (num := num) l n1) as [ks' n2]. simpl in H3, H4.
        cbn [fst snd]. rewrite bind_cons, H1, H3, H2, H4. split; [|lia].
        rewrite seq_app. reflexivity. }
    rewrite build_unfold. rewrite tsizes_kids in Hsz |- *.
    destruct (Hall (tKids t) (S next) ltac:(lia)) as [H1 H2].
    destruct (buildAll (num := num) (tKids t) (S next)) as [ks n']. simpl in H1, H2.
    split.
    + rewrite ids_unfold. simpl. rewrite H1. reflexivity.
    + simpl. lia.
Qed.

Lemma buildAll_ids (ts : list Tpl) (next : nat) :
  (buildAll (num := num) ts next).1 ≫= ids = seq next (tsizes ts)
  /\ (buildAll (num := num) ts next).2 = next + tsizes ts.
Proof.
  revert next. induction ts as [|t ts IH]; intros next; cbn [buildAll tsizes].
  - split; [reflexivity | simpl; lia].
  - destruct (build_ids_aux (tsize t) t next (le_n _)) as [H1 H2].
    destruct (build (num := num) t next) as [k n1]. simpl in H1, H2.
    destruct (IH n1) as [H3 H4].
    destruct (buildAll (num := num) ts n1) as [ks n2]. simpl in H3, H4.
    cbn [fst snd]. rewrite bind_cons, H1, H3, H2, H4, seq_app. split; [reflexivity | lia].
Qed.

End DomFacts.

Section DomOps.
Import Dom.
Context {num : Type}.
Implicit Types (el : Node num) (ks : list (Node num)).

Lemma ids_setProperty k v el : ids (setProperty k v el) = ids el.
Proof. rewrite !ids_unfold. reflexivity. Qed.

Lemma ids_setData k v el : ids (setData k v el) = ids el.
Proof. rewrite !ids_unfold. reflexivity. Qed.

Lemma ids_classListAdd c el : ids (classListAdd c el) = ids el.
Proof. rewrite !ids_unfold. reflexivity. Qed.

Lemma ids_setKids ks el : ids (setKids ks el) = nid el :: (ks ≫= ids).
Proof. rewrite ids_unfold. reflexivity. Qed.

(** A write through the reference [i] reaches the first child with that
    identity and no other. *)
Lemma mapChild_split i (f : Node num -> Node num) pre o post :
  nid o = i -> Forall (fun k => nid k <> i) pre ->
  mapChild i f (pre ++ o :: post) = (pre ++ f o :: post)%list.
Proof.
  intros Ho Hpre. induction Hpre as [|k pre Hk _ IH]; simpl.
  - by rewrite bool_decide_eq_true_2.
  - rewrite bool_decide_eq_false_2 by done. by rewrite IH.
Qed.

Lemma find_split i pre (o : Node num) post :
  nid o = i -> Forall (fun k => nid k <> i) pre ->
  List.find (fun k => bool_decide (nid k = i)) (pre ++ o :: post) = Some o.
Proof.
  intros Ho Hpre. induction Hpre as [|k pre Hk _ IH]; simpl.
  - by rewrite bool_decide_eq_true_2.
  - by rewrite bool_decide_eq_false_2.
Qed.

Lemma querySelector_elem (p : Node num -> bool) el x :
  querySelector p el = Some x -> x ∈ descendants el /\ p x = true.
Proof.
  unfold querySelector. intros H.
  apply head_Some_elem_of, list_elem_of_filter in H. tauto.
Qed.

Lemma descendant_ids el x : x ∈ descendants el -> nid x ∈ ids el.
Proof.
  intros H. unfold ids. apply list_elem_of_fmap_2. by apply list_elem_of_further.
Qed.

End DomOps.

Section SwapFacts.
Import Dom TokenHud.
Context {num : Type} {JN : JsNumber num} {ST : StatTypes} {SP : StatProviders}
        {TP : Templates}.
Implicit Types (s : Hud (num := num)) (el content : Node num).

Lemma replaceHTML_unfold result content options s :
  _replaceHTML result content options s
  = let content0 := setProperty "--font-size" (Px (optFontSize options)) content in
    let '(main1, next2) := newMain result s in
    let doc := if inserted s then Some content0 else None in
    let active1 :=
      match focusedName s content0 with
      | Some nm =>
          match querySelector (isInputNamed nm) main1 with
          | Some inp => focus doc inp (activeElement s)
          | None => activeElement s
          end
      | None => activeElement s
      end in
    let content' :=
      match mainElement s with
      | Some old => replaceWith old main1 content0
      | None => appendChild main1 content0
      end in
    let doc' := if inserted s then Some content' else None in
    (content',
     setNextId next2
       (setActiveElement (fixupFocus doc' active1)
          (setMainElement (Some (nid main1)) s))).
Proof.
  unfold _replaceHTML, newMain.
  destruct (createMain result (nextId s)) as [main0 next1].
  destruct (mode (settings s)); reflexivity.
Qed.

(** The new main element: it takes the next identity, carries the id
    attribute of the main element, and it and the elements inside it use up
    the identities between the old and the new counter, each once. *)
Lemma newMain_facts result s :
  nid (newMain result s).1 = nextId s
  /\ elemId (newMain result s).1 = "pf2e-hud-token-main"
  /\ nextId s < (newMain result s).2
  /\ ids (newMain result s).1
     ≡ₚ seq (nextId s) ((newMain result s).2 - nextId s).
Proof.
  unfold newMain, createMain, createWrapper.
  destruct (buildAll_ids (num := num) (parseHTML result) (S (nextId s))) as [H1 H2].
  destruct (buildAll (parseHTML result) (S (nextId s))) as [ks next1].
  simpl in H1, H2. subst next1.
  destruct (mode (settings s)); cbn [fst snd];
    (split; [reflexivity | split; [reflexivity | split; [lia|]]]).
  - rewrite ids_classListAdd, ids_unfold. cbn [nid kids]. rewrite H1.
    match goal with |- context [?a - nextId s] =>
      replace (a - nextId s) with (S (tsizes (parseHTML result))) by lia end.
    reflexivity.
  - rewrite ids_unfold. cbn [nid kids appendChild setKids app].
    rewrite bind_cons. cbn [mbind list_bind]. rewrite app_nil_r, ids_unfold.
    cbn [nid kids]. rewrite H1.
    match goal with |- context [?a - nextId s] =>
      replace (a - nextId s) with (S (tsizes (parseHTML result) + 1)) by lia end.
    cbn [seq]. constructor. rewrite seq_app. cbn [seq].
    rewrite Permutation_app_comm. reflexivity.
  - rewrite ids_unfold. cbn [nid kids appendChild setKids app].
    rewrite bind_cons. cbn [mbind list_bind]. rewrite app_nil_r, ids_unfold.
    cbn [nid kids]. rewrite H1.
    match goal with |- context [?a - nextId s] =>
      replace (a - nextId s) with (S (tsizes (parseHTML result) + 1)) by lia end.
    cbn [seq]. constructor. rewrite seq_app. cbn [seq].
    rewrite Permutation_app_comm. reflexivity.
Qed.

End SwapFacts.

Section RenderFacts.
Import Dom TokenHud.
Context {num : Type} {JN : JsNumber num} {ST : StatTypes} {SP : StatProviders}
        {TP : Templates}.
Implicit Types (s : Hud (num := num)) (el content : Node num).

Lemma render_afterSwap force s tk :
  token s = Some tk ->
  render force s
  = setPositionSlot (_updatePosition (position (afterSwap s)) (afterSwap s)).1
                    (_updatePosition (position (afterSwap s)) (afterSwap s)).2.
Proof.
  intros Htk. unfold render, afterSwap. rewrite Htk.
  destruct (element s); cbn zeta;
    destruct (_replaceHTML _ _ _ _) as [c s1]; cbn zeta;
    match goal with |- context [_updatePosition ?p ?x] =>
      destruct (_updatePosition p x) end; reflexivity.
Qed.

Lemma oneMain_kids m el el' :
  kids el' = kids el -> oneMain m el -> oneMain m el'.
Proof. unfold oneMain. intros ->. done. Qed.

Lemma oneMain_childById m el :
  oneMain m el -> exists o, childById m el = Some o /\ nid o = m
                            /\ elemId o = "pf2e-hud-token-main".
Proof.
  intros (pre & o & post & Hk & Hn & He & Hall). exists o.
  split; [|done]. unfold childById. rewrite Hk.
  apply find_split; [done|].
  apply Forall_app in Hall as [Hpre _].
  eapply Forall_impl; [exact Hpre|]. simpl. tauto.
Qed.

(** Exactly one child of the container carries the id attribute of the
    main element. *)
Lemma oneMain_filter m el :
  oneMain m el ->
  exists o, filter (fun k => elemId k = "pf2e-hud-token-main") (kids el) = [o]
            /\ nid o = m.
Proof.
  intros (pre & o & post & Hk & Hn & He & Hall). exists o. split; [|done].
  rewrite Hk. apply Forall_app in Hall as [Hpre Hpost].
  assert (Hnone : forall l : list (Node num),
            Forall (fun k => nid k <> m /\ elemId k <> "pf2e-hud-token-main") l ->
            filter (fun k => elemId k = "pf2e-hud-token-main") l = []).
  { induction 1 as [|k l [_ Hk'] _ IH]; [reflexivity|].
    by rewrite filter_cons_False. }
  rewrite filter_app, filter_cons_True by done.
  by rewrite (Hnone pre), (Hnone post).
Qed.

Lemma ids_kids_split el pre (o : Node num) post :
  kids el = (pre ++ o :: post)%list ->
  ids el = nid el :: ((pre ≫= ids) ++ ids o ++ (post ≫= ids))%list.
Proof.
  intros Hk. rewrite ids_unfold, Hk, bind_app, bind_cons. reflexivity.
Qed.

Lemma oneMain_updateChild m (g : Node num -> Node num) el :
  (forall k, nid (g k) = nid k /\ elemId (g k) = elemId k /\ ids (g k) = ids k) ->
  oneMain m el ->
  oneMain m (updateChild m g el) /\ ids (updateChild m g el) = ids el.
Proof.
  intros Hg (pre & o & post & Hk & Hn & He & Hall).
  assert (Hpre : Forall (fun k => nid k <> m) pre).
  { apply Forall_app in Hall as [Hpre _].
    eapply Forall_impl; [exact Hpre|]. simpl. tauto. }
  assert (Hkids : kids (updateChild m g el) = (pre ++ g o :: post)%list).
  { unfold updateChild. simpl. rewrite Hk. by apply mapChild_split. }
  destruct (Hg o) as (Hg1 & Hg2 & Hg3). split.
  - exists pre, (g o), post. repeat split; congruence.
  - rewrite (ids_kids_split _ _ _ _ Hkids), (ids_kids_split _ _ _ _ Hk), Hg3.
    reflexivity.
Qed.

End RenderFacts.

Section RenderWellFormed.
Import Dom TokenHud.
Context {num : Type} {JN : JsNumber num} {ST : StatTypes} {SP : StatProviders}
        {TP : Templates}.
Implicit Types (s : Hud (num := num)) (el content : Node num).

Lemma fixupFocus_inside (doc : option (Node num)) a i :
  fixupFocus doc a = Inside i ->
  a = Inside i /\ exists root, doc = Some root /\ i ∈ ids root.
Proof.
  unfold fixupFocus. destruct a as [| |j]; try discriminate.
  destruct doc as [root|]; [|discriminate].
  destruct (contains root j) eqn:Hc; [|discriminate].
  intros [= ->]. split; [reflexivity|]. exists root. split; [reflexivity|].
  by apply contains_ids.
Qed.

Lemma seq_bounds (a n i : nat) : i ∈ seq a n -> a <= i < a + n.
Proof. intros H. apply list_elem_of_In, in_seq in H. lia. Qed.

(** The swap on an open, well-formed HUD, and the first render of a HUD
    that was at rest, both end well-formed. *)
Lemma afterSwap_wellFormed s tk :
  token s = Some tk ->
  (element s = None /\ mainElement s = None /\ inserted s = false)
  \/ wellFormed s ->
  wellFormed (afterSwap s)
  /\ token (afterSwap s) = Some tk /\ sidebar (afterSwap s) = sidebar s
  /\ settings (afterSwap s) = settings s /\ canvas (afterSwap s) = canvas s.
Proof.
  intros Htk [(Hel & Hm & Hins) | Hwf].
  - (* first render *)
    unfold afterSwap. rewrite Hel. cbn zeta. rewrite replaceHTML_unfold. cbn zeta.
    set (result := _renderHTML _ _).
    set (s0 := setNextId (S (nextId s)) s).
    pose proof (newMain_facts result s0) as (Hn1 & Hn2 & Hn3 & Hn4).
    destruct (newMain result s0) as [main1 next2]. simpl in Hn1, Hn2, Hn3, Hn4.
    subst s0. simpl. rewrite Hm, Hins. simpl.
    unfold wellFormed. simpl. rewrite Htk.
    split; [|done]. split.
    + eexists _, _. split; [reflexivity|]. split; [reflexivity|].
      split; [reflexivity|]. split; [reflexivity|].
      split; [|split].
      * exists [], main1, []. repeat split; try done. 
      * rewrite ids_setData, ids_unfold. simpl. rewrite app_nil_r.
        rewrite Hn4. apply NoDup_cons. split; [|apply NoDup_seq].
        intros Hin%seq_bounds. lia.
      * intros i. rewrite ids_setData, ids_unfold. simpl. rewrite app_nil_r, Hn4.
        intros [->|Hin%seq_bounds]%elem_of_cons; lia.
    + intros i Hi. unfold fixupFocus in Hi.
      destruct (match focusedName _ _ with Some _ => _ | None => _ end);
        discriminate Hi.
  - (* re-render *)
    destruct Hwf as [Hopen Hact]. rewrite Htk in Hopen.
    destruct Hopen as (el & m & Hel & Hins & Hm & Hhook & Hone & Hnd & Hfresh).
    unfold afterSwap. rewrite Hel. cbn zeta. rewrite replaceHTML_unfold. cbn zeta.
    set (result := _renderHTML _ _).
    pose proof (newMain_facts result s) as (Hn1 & Hn2 & Hn3 & Hn4).
    destruct (newMain result s) as [main1 next2]. simpl in Hn1, Hn2, Hn3, Hn4.
    rewrite Hm, Hins. simpl.
    destruct Hone as (pre & o & post & Hk & Ho & Heo & Hall).
    set (content0 := setProperty "--font-size" _ el).
    assert (Hk' : kids (replaceWith m main1 content0) = (pre ++ main1 :: post)%list).
    { unfold replaceWith, updateChild. simpl. rewrite Hk.
      apply mapChild_split; [done|].
      apply Forall_app in Hall as [Hpre _].
      eapply Forall_impl; [exact Hpre|]. simpl. tauto. }
    assert (Hids : ids (replaceWith m main1 content0)
                   = nid el :: ((pre ≫= ids) ++ ids main1 ++ (post ≫= ids))%list).
    { by rewrite (ids_kids_split _ _ _ _ Hk'). }
    assert (Hold : ids el = nid el :: ((pre ≫= ids) ++ ids o ++ (post ≫= ids))%list).
    { by apply ids_kids_split. }
    assert (Hsub : forall i, i ∈ ids (replaceWith m main1 content0) ->
                     (i ∈ ids el /\ i < nextId s) \/ (i ∈ ids main1 /\ nextId s <= i < next2)).
    { intros i. rewrite Hids, Hold, Hn4.
      rewrite !elem_of_cons, !elem_of_app.
      intros [-> | [H | [H%seq_bounds | H]]].
      - left. split; [by left|]. apply Hfresh. rewrite Hold. by left.
      - left. assert (i ∈ ids el) by (rewrite Hold, elem_of_cons, !elem_of_app; tauto). auto.
      - right. split; [|lia]. apply list_elem_of_In, in_seq. lia.
      - left. assert (i ∈ ids el) by (rewrite Hold, elem_of_cons, !elem_of_app; tauto). auto. }
    assert (Hrest : NoDup (nid el :: (pre ≫= ids) ++ (post ≫= ids))
                    /\ forall i, i ∈ nid el :: (pre ≫= ids) ++ (post ≫= ids) ->
                                 i < nextId s).
    { split.
      - rewrite Hold in Hnd.
        rewrite (Permutation_app_swap_app (pre ≫= ids)) in Hnd.
        rewrite Permutation_middle in Hnd.
        by apply NoDup_app in Hnd as (_ & _ & Hnd).
      - intros i Hi. apply Hfresh. rewrite Hold.
        revert Hi. rewrite !elem_of_cons, !elem_of_app. tauto. }
    destruct Hrest as [Hrest1 Hrest2].
    unfold wellFormed. simpl. rewrite Htk, ?Hins.
    split; [|done]. split.
    + eexists _, _. split; [reflexivity|]. split; [reflexivity|].
      split; [reflexivity|]. split; [reflexivity|].
      split; [|split].
      * exists pre, main1, post. split; [exact Hk'|]. split; [reflexivity|].
        split; [exact Hn2|].
        apply Forall_forall. intros k Hkin.
        rewrite Forall_forall in Hall. destruct (Hall k Hkin) as [_ Hk2].
        split; [|exact Hk2]. rewrite Hn1.
        assert (nid k < nextId s); [|lia].
        apply Hrest2. apply list_elem_of_further.
        apply elem_of_app in Hkin as [Hkin|Hkin]; apply elem_of_app; [left|right];
          apply list_elem_of_bind; exists k;
          (split; [rewrite ids_unfold; apply list_elem_of_here | exact Hkin]).
      * rewrite Hids. rewrite (Permutation_app_swap_app (pre ≫= ids)).
        rewrite Permutation_middle.
        apply NoDup_app. split; [rewrite Hn4; apply NoDup_seq|]. split; [|exact Hrest1].
        intros i Hi Hi'. rewrite Hn4 in Hi. apply seq_bounds in Hi.
        apply Hrest2 in Hi'. lia.
      * intros i Hi. destruct (Hsub i Hi) as [[_ ?]|[_ ?]]; lia.
    + intros i Hi. apply fixupFocus_inside in Hi as [_ (root & [= <-] & Hin)].
      eexists. split; [reflexivity | exact Hin].
Qed.

End RenderWellFormed.

Section EventFacts.
Import Dom TokenHud.
Context {num : Type} {JN : JsNumber num} {ST : StatTypes} {SP : StatProviders}
        {TP : Templates}.
Implicit Types (s : Hud (num := num)) (el content : Node num).

(** Well-formedness only reads the token, the elements, the hook, the
    counter, the focus and the sidebar. *)
Lemma wellFormed_ext s s' :
  token s' = token s -> sidebar s' = sidebar s -> element s' = element s ->
  inserted s' = inserted s -> mainElement s' = mainElement s ->
  canvasPanHook s' = canvasPanHook s -> nextId s' = nextId s ->
  activeElement s' = activeElement s ->
  wellFormed s -> wellFormed s'.
Proof.
  unfold wellFormed, isClosed, document.
  intros -> -> -> -> -> -> -> ->. done.
Qed.

Lemma updatePosition_wellFormed p s :
  wellFormed s -> wellFormed (_updatePosition p s).2.
Proof.
  intros Hwf.
  destruct (token s) as [tk|] eqn:Htk;
    [|unfold _updatePosition; rewrite Htk; exact Hwf].
  destruct Hwf as [Hshape Hact]. rewrite Htk in Hshape.
  destruct Hshape as (el & m & Hel & Hins & Hm & Hhook & Hone & Hnd & Hfresh).
  unfold _updatePosition. rewrite Htk, Hel, Hm. cbn [snd].
  set (el1 := setProperty "transform" _ _).
  set (g := fun m0 : Node num => setProperty "height" _ _).
  assert (Hone1 : oneMain m el1) by (eapply oneMain_kids; [|exact Hone]; reflexivity).
  assert (Hids1 : ids el1 = ids el) by (subst el1; by rewrite !ids_setProperty).
  destruct (oneMain_updateChild m g el1) as [Hone2 Hids2]; [|exact Hone1|].
  { intros k. subst g. cbn beta. rewrite !ids_setProperty. done. }
  unfold wellFormed, document. simpl. rewrite Htk, Hins. split.
  - exists (updateChild m g el1), m. rewrite Hids2, Hids1. done.
  - intros i Hi. destruct (Hact i Hi) as (root & Hroot & Hin).
    unfold document in Hroot. rewrite Hins, Hel in Hroot. injection Hroot as <-.
    eexists. split; [reflexivity|]. by rewrite Hids2, Hids1.
Qed.

Lemma render_wellFormed force s :
  wellFormed s -> wellFormed (render force s).
Proof.
  intros Hwf. destruct (token s) as [tk|] eqn:Htk.
  - rewrite (render_afterSwap force s tk Htk).
    destruct (afterSwap_wellFormed s tk Htk (or_intror Hwf)) as [Hs _].
    apply (updatePosition_wellFormed (position (afterSwap s))) in Hs.
    revert Hs. by apply wellFormed_ext.
  - unfold render. by rewrite Htk.
Qed.

Lemma closed_wellFormed s :
  isClosed s -> (forall i, activeElement s <> Inside i) -> wellFormed s.
Proof.
  intros Hc Ha. split; [pose proof Hc as [Ht _]; rewrite Ht; exact Hc|].
  intros i Hi. by destruct (Ha i).
Qed.

Lemma setToken_None_wellFormed s : wellFormed (setToken None s).
Proof.
  apply closed_wellFormed; [apply setToken_None_closed|].
  intros i. cbn. destruct (activeElement s); discriminate.
Qed.

Lemma setToken_wellFormed c s : wellFormed s -> wellFormed (setToken c s).
Proof.
  intros Hwf. destruct c as [tk|]; [|apply setToken_None_wellFormed].
  unfold setToken. cbn zeta.
  destruct (match tokenActor tk with Some _ => _ | None => _ end);
    [apply (setToken_None_wellFormed s)|].
  unfold base_setToken, _onSetToken.
  set (s1 := setTokenSlot (Some tk) (toggleSidebar None s)).
  assert (Htk : token s1 = Some tk) by reflexivity.
  rewrite (render_afterSwap true s1 tk Htk).
  assert (Hshape : (element s1 = None /\ mainElement s1 = None /\ inserted s1 = false)
                   \/ wellFormed s1).
  { destruct Hwf as [Hshape Hact].
    destruct (token s) as [tk0|] eqn:Htk0.
    - right. split; [|exact Hact]. exact Hshape.
    - left. destruct Hshape as (_ & _ & ? & ? & ? & _). done. }
  destruct (afterSwap_wellFormed s1 tk Htk Hshape) as [Hs _].
  apply (updatePosition_wellFormed (position (afterSwap s1))) in Hs.
  revert Hs. by apply wellFormed_ext.
Qed.

Lemma close_wellFormed s : wellFormed (close s).
Proof. apply setToken_None_wellFormed. Qed.

Lemma toggleSidebar_None_wellFormed s :
  wellFormed s -> wellFormed (toggleSidebar None s).
Proof.
  intros [Hshape Hact]. split; [|exact Hact]. simpl.
  destruct (token s); [exact Hshape|].
  destruct Hshape as (? & ? & ? & ? & ? & ?). done.
Qed.

(** Every event leaves the state well-formed. *)
Lemma handle_wellFormed e s : wellFormed s -> wellFormed (handle e s).
Proof.
  intros Hwf. destruct e; simpl.
  - by apply setToken_wellFormed.
  - apply close_wellFormed.
  - unfold onTokenClickLeft. repeat case_match; try done.
    + apply close_wellFormed.
    + by apply setToken_wellFormed.
  - apply close_wellFormed.
  - unfold onLayerClickLeft, clickClose. repeat case_match.
    + apply close_wellFormed.
    + destruct Hwf as [Hshape _]. split; [exact Hshape | discriminate].
    + by apply toggleSidebar_None_wellFormed.
    + apply close_wellFormed.
  - apply close_wellFormed.
  - unfold closeIf. case_match; simpl; try done.
    + by apply toggleSidebar_None_wellFormed.
    + apply close_wellFormed.
  - unfold onCanvasPan. cbn zeta.
    assert (Hc : wellFormed (setCanvas cv s)) by (revert Hwf; by apply wellFormed_ext).
    case_match; [by apply updatePosition_wellFormed | done].
  - unfold changeMode, onLayoutSettingChange. apply render_wellFormed.
    apply toggleSidebar_None_wellFormed. revert Hwf. by apply wellFormed_ext.
  - unfold changeScaleDimensions, onLayoutSettingChange. apply render_wellFormed.
    apply toggleSidebar_None_wellFormed. revert Hwf. by apply wellFormed_ext.
  - unfold onOpenSidebarClick. destruct (document s) as [root|] eqn:Hdoc; [|done].
    destruct Hwf as [Hshape Hact]. unfold document in Hdoc.
    destruct (token s) as [tk|] eqn:Htk.
    + unfold toggleSidebar.
      destruct (bool_decide (sidebar s = Some _));
        (split; [simpl; by rewrite Htk | exact Hact]).
    + destruct Hshape as (_ & _ & He & Hi & _). by rewrite Hi in Hdoc.
  - by apply render_wellFormed.
  - unfold userFocus. destruct (document s) as [root|] eqn:Hdoc; [|done].
    destruct (contains root i) eqn:Hc; [|done].
    destruct Hwf as [Hshape _]. split; [exact Hshape|].
    intros j [= <-]. exists root. split; [exact Hdoc | by apply contains_ids].
  - destruct Hwf as [Hshape _]. split; [exact Hshape | discriminate].
Qed.

Lemma runEvents_wellFormed es s : wellFormed s -> wellFormed (runEvents es s).
Proof.
  revert s. induction es as [|e es IH]; intros s Hwf; [exact Hwf|].
  simpl. apply IH. by apply handle_wellFormed.
Qed.

End EventFacts.

Section HudExtras.
Import Dom TokenHud.
Context {num : Type} {JN : JsNumber num} {ST : StatTypes} {SP : StatProviders}
        {TP : Templates}.
Implicit Types (s : Hud (num := num)) (el content : Node num).

(** X1. At any time the container holds exactly one main element: after any
    run of events from a well-formed state, exactly one child of the
    container carries the id of the main element, and it is the element
    that [#mainElement] refers to. *)
Theorem one_main_element es s :
  wellFormed s ->
  forall el, element (runEvents es s) = Some el ->
    exists o,
      filter (fun k => elemId k = "pf2e-hud-token-main") (kids el) = [o]
      /\ mainElement (runEvents es s) = Some (nid o)
      /\ childById (nid o) el = Some o.
Proof.
  intros Hwf el Hel.
  destruct (runEvents_wellFormed es s Hwf) as [Hshape _].
  destruct (token (runEvents es s)).
  - destruct Hshape as (el' & m & Hel' & _ & Hm & _ & Hone & _).
    rewrite Hel in Hel'. injection Hel' as <-.
    destruct (oneMain_filter m el Hone) as (o & Hf & Ho).
    destruct (oneMain_childById m el Hone) as (o' & Hc & _).
    exists o. rewrite Hf. split; [reflexivity|]. subst m. split; [exact Hm|].
    rewrite Hc. f_equal.
    destruct Hone as (pre & o2 & post & Hk & Hn & He & Hall).
    unfold childById in Hc. rewrite Hk in Hc.
    rewrite find_split in Hc; [|exact Hn|].
    + injection Hc as <-.
      assert (Hin : o ∈ filter (fun k => elemId k = "pf2e-hud-token-main") (kids el))
        by (rewrite Hf; apply list_elem_of_here).
      apply list_elem_of_filter in Hin as [Heo Hin]. rewrite Hk in Hin.
      apply elem_of_app in Hin as [Hin|Hin%elem_of_cons].
      * rewrite Forall_forall in Hall. destruct (Hall o) as [_ Hno]; [|done].
        apply elem_of_app. by left.
      * destruct Hin as [->|Hin]; [reflexivity|].
        rewrite Forall_forall in Hall. destruct (Hall o) as [_ Hno]; [|done].
        apply elem_of_app. by right.
    + apply Forall_app in Hall as [Hpre _].
      eapply Forall_impl; [exact Hpre|]. simpl. tauto.
  - destruct Hshape as (_ & _ & Hnone & _). congruence.
Qed.

(** X2. The canvas-pan hook is on, the container is in the document and
    [#mainElement] is set exactly while a token is tracked. *)
Theorem hook_follows_token es s :
  wellFormed s ->
  let s' := runEvents es s in
  (canvasPanHook s' = true <-> isOpen s')
  /\ (is_Some (mainElement s') <-> isOpen s')
  /\ (is_Some (element s') <-> isOpen s')
  /\ (inserted s' = true <-> isOpen s').
Proof.
  intros Hwf. cbn zeta.
  destruct (runEvents_wellFormed es s Hwf) as [Hshape _].
  unfold isOpen. destruct (token (runEvents es s)) as [tk|].
  - destruct Hshape as (el & m & -> & -> & -> & -> & _).
    repeat split; eauto.
  - destruct Hshape as (_ & _ & -> & -> & -> & ->).
    repeat split; try discriminate; intros [? ?]; discriminate.
Qed.

(** X3. Whatever the events, a sidebar shows only while the HUD is open. *)
Theorem sidebar_only_when_open es s :
  wellFormed s -> sidebarInvariant (runEvents es s).
Proof.
  intros Hwf Hsb.
  destruct (runEvents_wellFormed es s Hwf) as [Hshape _].
  unfold isOpen. destruct (token (runEvents es s)); [by eexists|].
  destruct Hshape as (_ & Hs & _). congruence.
Qed.

End HudExtras.

Section FocusFacts.
Import Dom TokenHud.
Context {num : Type} {JN : JsNumber num} {ST : StatTypes} {SP : StatProviders}
        {TP : Templates}.
Implicit Types (s : Hud (num := num)) (el content : Node num).

Lemma updatePosition_activeElement p s :
  activeElement (_updatePosition p s).2 = activeElement s.
Proof. unfold _updatePosition. repeat case_match; reflexivity. Qed.

Lemma fixupFocus_cases (doc : option (Node num)) a :
  fixupFocus doc a = a \/ fixupFocus doc a = NoFocus.
Proof. unfold fixupFocus. repeat case_match; auto. Qed.

(** The swap on an open HUD, field by field. The call of [focus] changes
    nothing: the input it is called on is not in the document. *)
Lemma afterSwap_open s el m :
  element s = Some el -> inserted s = true -> mainElement s = Some m ->
  (forall i, i ∈ ids el -> i < nextId s) ->
  let main1 := (newMain (renderResult s) s).1 in
  let content' :=
    replaceWith m main1 (setProperty "--font-size" (Px (fontSize (settings s))) el) in
  element (afterSwap s) = Some content'
  /\ mainElement (afterSwap s) = Some (nid main1)
  /\ activeElement (afterSwap s) = fixupFocus (Some content') (activeElement s)
  /\ token (afterSwap s) = token s.
Proof.
  intros Hel Hins Hm Hfresh. cbn zeta.
  unfold afterSwap. rewrite Hel. cbn zeta. rewrite replaceHTML_unfold. cbn zeta.
  fold (renderResult s).
  pose proof (newMain_facts (renderResult s) s) as (Hn1 & Hn2 & Hn3 & Hn4).
  destruct (newMain (renderResult s) s) as [main1 next2].
  cbn [fst snd] in *. rewrite Hm, Hins. simpl.
  repeat split. f_equal.
  destruct (focusedName s _) as [nm|]; [|reflexivity].
  destruct (querySelector (isInputNamed nm) main1) as [inp|] eqn:Hq; [|reflexivity].
  unfold focus. destruct (contains _ (nid inp)) eqn:Hc; [|reflexivity].
  exfalso. apply contains_ids in Hc. rewrite ids_setProperty in Hc.
  apply Hfresh in Hc.
  apply querySelector_elem in Hq as [Hin _]. apply descendant_ids in Hin.
  rewrite Hn4 in Hin. apply seq_bounds in Hin. lia.
Qed.

(** X4. A render of the open HUD never gives the focus to an element it
    creates. The focus stays where it was or is dropped; when it was inside
    the old main element (on one of the HUD's inputs, say) it is dropped;
    and no element of the new main element has it afterwards. *)
Theorem rerender_focus force s :
  wellFormed s -> isOpen s ->
  (activeElement (render force s) = activeElement s
   \/ activeElement (render force s) = NoFocus)
  /\ (forall o i, mainNode s = Some o -> i ∈ ids o ->
                  activeElement s = Inside i ->
                  activeElement (render force s) = NoFocus)
  /\ (forall o' i, mainNode (render force s) = Some o' -> i ∈ ids o' ->
                   activeElement (render force s) <> Inside i).
Proof.
  intros Hwf [tk Htk]. pose proof Hwf as [Hshape Hact]. rewrite Htk in Hshape.
  destruct Hshape as (el & m & Hel & Hins & Hm & Hhook & Hone & Hnd & Hfresh).
  rewrite (render_afterSwap force s tk Htk).
  assert (Ha : forall p (x : Hud (num := num)),
             activeElement (setPositionSlot p x) = activeElement x)
    by reflexivity.
  rewrite Ha, updatePosition_activeElement.
  destruct (afterSwap_open s el m Hel Hins Hm Hfresh) as (HelA & HmA & HaA & HtA).
  cbn zeta in HelA, HmA, HaA.
  pose proof (newMain_facts (renderResult s) s) as (Hn1 & Hn2 & Hn3 & Hn4).
  set (main1 := (newMain (renderResult s) s).1) in *.
  set (next2 := (newMain (renderResult s) s).2) in *.
  set (content0 := setProperty "--font-size" (Px (fontSize (settings s))) el) in *.
  destruct Hone as (pre & o & post & Hk & Ho & Heo & Hall).
  assert (Hpre : Forall (fun k => nid k <> m) pre).
  { apply Forall_app in Hall as [Hpre _].
    eapply Forall_impl; [exact Hpre|]. simpl. tauto. }
  assert (Hk' : kids (replaceWith m main1 content0) = (pre ++ main1 :: post)%list).
  { unfold replaceWith, updateChild. simpl. rewrite Hk. by apply mapChild_split. }
  assert (Hids : ids (replaceWith m main1 content0)
                 = nid el :: ((pre ≫= ids) ++ ids main1 ++ (post ≫= ids))%list).
  { by rewrite (ids_kids_split _ _ _ _ Hk'). }
  assert (Hold : ids el = nid el :: ((pre ≫= ids) ++ ids o ++ (post ≫= ids))%list).
  { by apply ids_kids_split. }
  assert (Hnew : forall i, i ∈ ids main1 -> nextId s <= i).
  { intros i Hi. rewrite Hn4 in Hi. apply seq_bounds in Hi. lia. }
  rewrite HaA. split; [apply fixupFocus_cases|]. split.
  - intros o0 i Hmain Hi Hfoc.
    assert (o0 = o) as ->.
    { unfold mainNode in Hmain. rewrite Hel, Hm in Hmain. simpl in Hmain.
      unfold childById in Hmain. rewrite Hk, (find_split m pre o post Ho Hpre) in Hmain.
      congruence. }
    rewrite Hfoc. unfold fixupFocus.
    destruct (contains _ i) eqn:Hc; [|reflexivity].
    exfalso. apply contains_ids in Hc. rewrite Hids in Hc.
    rewrite Hold in Hnd.
    rewrite (Permutation_app_swap_app (pre ≫= ids)), Permutation_middle in Hnd.
    apply NoDup_app in Hnd as (_ & Hdisj & _).
    apply elem_of_cons in Hc as [Hc | Hc].
    + apply (Hdisj i Hi). subst i. apply list_elem_of_here.
    + apply elem_of_app in Hc as [Hc | Hc].
      * apply (Hdisj i Hi). apply list_elem_of_further, elem_of_app. by left.
      * apply elem_of_app in Hc as [Hc | Hc].
        -- apply Hnew in Hc.
           assert (i < nextId s); [|lia].
           apply Hfresh. rewrite Hold. apply list_elem_of_further.
           apply elem_of_app. right. apply elem_of_app. by left.
        -- apply (Hdisj i Hi). apply list_elem_of_further, elem_of_app. by right.
  - intros o' i Hmain Hi Hfoc.
    (* the focus, if any, is on an element that was there before *)
    assert (Hlt : i < nextId s).
    { destruct (fixupFocus_cases (Some (replaceWith m main1 content0))
                  (activeElement s)) as [Hsame | Hnone];
        [|rewrite Hnone in Hfoc; discriminate Hfoc].
      rewrite Hsame in Hfoc. destruct (Hact i Hfoc) as (root & Hroot & Hin).
      unfold document in Hroot. rewrite Hins, Hel in Hroot. injection Hroot as <-.
      by apply Hfresh. }
    (* the new main element only holds new elements *)
    assert (Hge : nextId s <= i); [|lia].
    apply Hnew.
    unfold mainNode in Hmain. cbn [element mainElement setPositionSlot] in Hmain.
    unfold _updatePosition in Hmain. rewrite HtA, Htk, HelA, HmA in Hmain.
    cbn [snd element mainElement setElement mbind option_bind] in Hmain.
    rewrite HmA in Hmain. cbn [mbind option_bind] in Hmain.
    rewrite childById_updateChild in Hmain by reflexivity.
    rewrite !childById_setProperty in Hmain.
    unfold childById in Hmain. rewrite Hk' in Hmain.
    rewrite (find_split (nid main1) pre main1 post eq_refl) in Hmain.
    + simpl in Hmain. injection Hmain as <-.
      by rewrite !ids_setProperty in Hi.
    + apply Forall_forall. intros k Hkin. rewrite Hn1.
      assert (nid k < nextId s); [|lia].
      apply Hfresh. rewrite Hold. apply list_elem_of_further.
      apply elem_of_app. left. apply list_elem_of_bind. exists k.
      split; [rewrite ids_unfold; apply list_elem_of_here | exact Hkin].
Qed.

End FocusFacts.

Section GestureFacts.
Import Dom TokenHud.
Context {num : Type} {JN : JsNumber num} {ST : StatTypes} {SP : StatProviders}
        {TP : Templates}.
Implicit Types (s : Hud (num := num)) (el content : Node num).

Lemma setToken_Some_cases tk s :
  (ineligible tk s -> isClosed (setToken (Some tk) s))
  /\ (~ ineligible tk s -> isOpenOn tk (setToken (Some tk) s)).
Proof.
  pose proof (guard_ineligible tk s) as Hg.
  unfold setToken. cbn zeta.
  split; intros Hi.
  - apply Hg in Hi. rewrite Hi. apply setToken_None_closed.
  - destruct (match tokenActor tk with None => true | Some a => _ end) eqn:E.
    + exfalso. apply Hi, Hg. reflexivity.
    + pose proof (base_setToken_Some tk (toggleSidebar None s)) as H.
      cbn zeta in H. unfold isOpenOn. tauto.
Qed.

(** X5. The click on a token. With shift or control held, or with another
    tool than "select", nothing happens. Otherwise a click on the tracked
    token closes the HUD, a click on another token opens the HUD on it when
    it is eligible and closes the HUD when it is not; so two clicks in a row
    on an eligible token that was not tracked leave the HUD closed. *)
Theorem token_click_toggles this event tool s :
  let click := onTokenClickLeft this event tool in
  (shiftKey event = true \/ ctrlKey event = true \/ tool <> "select" ->
     click s = s)
  /\ (shiftKey event = false -> ctrlKey event = false -> tool = "select" ->
      (isTrackedToken this s = true -> isClosed (click s))
      /\ (isTrackedToken this s = false -> ~ ineligible this s ->
          isOpenOn this (click s) /\ isClosed (click (click s)))
      /\ (isTrackedToken this s = false -> ineligible this s ->
          isClosed (click s))).
Proof.
  cbn zeta. unfold onTokenClickLeft. split.
  - intros [-> | [-> | Ht]]; [reflexivity | by rewrite orb_true_r |].
    rewrite (bool_decide_eq_false_2 _ Ht). by rewrite orb_true_r.
  - intros Hs Hc Ht. rewrite Hs, Hc, (bool_decide_eq_true_2 _ Ht).
    cbn [negb orb]. split; [|split].
    + intros ->. apply close_closed.
    + intros -> Hel.
      pose proof (proj2 (setToken_Some_cases this s) Hel) as Hopen.
      split; [exact Hopen|].
      destruct Hopen as (Htk & _). unfold isTrackedToken at 1. rewrite Htk.
      rewrite bool_decide_eq_true_2 by reflexivity. apply close_closed.
    + intros -> Hin.
      exact (proj1 (setToken_Some_cases this s) Hin).
Qed.

Lemma setProperty_twice k v (n : Node num) :
  setProperty k v (setProperty k v n) = setProperty k v n.
Proof. unfold setProperty. simpl. by rewrite insert_insert_eq. Qed.

Lemma setProperty_comm k1 v1 k2 v2 (n : Node num) :
  k1 <> k2 ->
  setProperty k1 v1 (setProperty k2 v2 n) = setProperty k2 v2 (setProperty k1 v1 n).
Proof. intros Hk. unfold setProperty. simpl. by rewrite insert_insert_ne. Qed.

Lemma insert_chain_lookup {V : Type} (l : list (string * V)) (m : gmap string V) k :
  foldr (fun kv x => <[kv.1:=kv.2]> x) m l !! k
  = match List.find (fun kv => bool_decide (kv.1 = k)) l with
    | Some kv => Some kv.2
    | None => m !! k
    end.
Proof.
  induction l as [|[k' v] l IH]; [reflexivity|]. simpl.
  rewrite lookup_insert. destruct (decide (k' = k)) as [->|Hne].
  - by rewrite bool_decide_eq_true_2.
  - by rewrite bool_decide_eq_false_2.
Qed.

(** Writing the same properties a second time changes nothing. *)
Lemma insert_chain_twice {V : Type} (l : list (string * V)) (m : gmap string V) :
  foldr (fun kv x => <[kv.1:=kv.2]> x) (foldr (fun kv x => <[kv.1:=kv.2]> x) m l) l
  = foldr (fun kv x => <[kv.1:=kv.2]> x) m l.
Proof.
  apply map_eq. intros k. rewrite !insert_chain_lookup.
  by destruct (List.find _ l).
Qed.

Lemma node_ext (a b : Node num) :
  nid a = nid b -> tag a = tag b -> elemId a = elemId b -> name a = name b ->
  classes a = classes b -> dataset a = dataset b -> style a = style b ->
  kids a = kids b -> a = b.
Proof. destruct a, b. simpl. congruence. Qed.

Lemma style_setProperty k v (n : Node num) :
  style (setProperty k v n) = <[k:=v]> (style n).
Proof. reflexivity. Qed.

Lemma style_updateChild i f (n : Node num) : style (updateChild i f n) = style n.
Proof. reflexivity. Qed.

Lemma kids_setProperty k v (n : Node num) : kids (setProperty k v n) = kids n.
Proof. reflexivity. Qed.

Lemma kids_updateChild i f (n : Node num) :
  kids (updateChild i f n) = mapChild i f (kids n).
Proof. reflexivity. Qed.

Lemma mapChild_twice i (g : Node num -> Node num) (ks : list (Node num)) :
  (forall k, nid (g k) = nid k) -> (forall k, g (g k) = g k) ->
  mapChild i g (mapChild i g ks) = mapChild i g ks.
Proof.
  intros Hn Hg. induction ks as [|k ks IH]; [reflexivity|]. simpl.
  destruct (bool_decide (nid k = i)) eqn:E; simpl.
  - by rewrite Hn, E, Hg.
  - by rewrite E, IH.
Qed.

(** X6. Resolving the position twice is resolving it once: the second call
    finds every value already in place. *)
Theorem updatePosition_idempotent p s :
  _updatePosition (_updatePosition p s).1 (_updatePosition p s).2
  = _updatePosition p s.
Proof.
  unfold _updatePosition.
  destruct (token s) as [tk|] eqn:Htk; [|simpl; by rewrite Htk].
  destruct (element s) as [el|] eqn:Hel; [|simpl; by rewrite Htk, Hel].
  cbn [fst snd token element mainElement canvas settings setElement posZIndex].
  rewrite Htk.
  set (u := if scaleDimensions (settings s) then jone else stageScale (canvas s)).
  set (sc := if scaleDimensions (settings s) then stageScale (canvas s) else jone).
  assert (Hstyle : forall (st : gmap string (CssValue num)) (l : list (string * CssValue num)),
            foldr (fun kv x => <[kv.1:=kv.2]> x)
                  (foldr (fun kv x => <[kv.1:=kv.2]> x) st l) l
            = foldr (fun kv x => <[kv.1:=kv.2]> x) st l)
    by (intros; apply insert_chain_twice).
  destruct (mainElement s) as [m|]; f_equal; unfold setElement;
    cbn [token sidebar element inserted mainElement canvasPanHook position
         settings canvas persistentActor activeElement nextId];
    f_equal; f_equal.
  - apply node_ext; try reflexivity.
    + rewrite !style_updateChild, !style_setProperty, !style_updateChild,
        !style_setProperty.
      exact (Hstyle (style el)
               [("transform", _); ("height", _); ("width", _); ("top", _); ("left", _)]).
    + rewrite !kids_updateChild, !kids_setProperty, !kids_updateChild,
        !kids_setProperty.
      rewrite mapChild_twice; [reflexivity | reflexivity |].
      intros k. apply node_ext; try reflexivity.
      rewrite !style_setProperty.
      exact (Hstyle (style k)
               [("height", _); ("width", _); ("top", _); ("left", _)]).
  - apply node_ext; try reflexivity.
    rewrite !style_setProperty.
    exact (Hstyle (style el)
             [("transform", _); ("height", _); ("width", _); ("top", _); ("left", _)]).
Qed.

End GestureFacts.

(** * Properties of the actions sidebar *)

Section SortByFacts.
Import SidebarActions.
Context {A K : Type} (leb : K -> K -> bool) (key : A -> K).
Hypothesis leb_total : forall x y, leb x y = true \/ leb y x = true.

Local Abbreviation keyLe := (keyLe leb key).

Lemma insertBy_perm x l : insertBy leb key x l ≡ₚ x :: l.
Proof.
  induction l as [|y l IH]; simpl; [reflexivity|].
  destruct (leb (key x) (key y)); [reflexivity|].
  rewrite IH. apply Permutation_swap.
Qed.

Lemma sortBy_perm l : sortBy leb key l ≡ₚ l.
Proof.
  induction l as [|x l IH]; simpl; [reflexivity|].
  rewrite insertBy_perm, IH. reflexivity.
Qed.

Lemma insertBy_HdRel x y l :
  keyLe y x -> HdRel keyLe y l -> HdRel keyLe y (insertBy leb key x l).
Proof.
  intros Hyx Hl. destruct l as [|z l]; simpl.
  - by constructor.
  - destruct (leb (key x) (key z)); constructor; [done|].
    by inversion Hl.
Qed.

Lemma insertBy_sorted x l :
  Sorted keyLe l -> Sorted keyLe (insertBy leb key x l).
Proof.
  induction 1 as [|y l Hs IH Hhd]; simpl.
  - repeat constructor.
  - destruct (leb (key x) (key y)) eqn:E.
    + constructor; [by constructor|]. by constructor.
    + constructor; [exact IH|].
      apply insertBy_HdRel; [|exact Hhd].
      destruct (leb_total (key x) (key y)) as [H|H]; [congruence | exact H].
Qed.

Lemma sortBy_sorted l : Sorted keyLe (sortBy leb key l).
Proof.
  induction l as [|x l IH]; simpl; [constructor|].
  by apply insertBy_sorted.
Qed.

End SortByFacts.

Section ActionSectionsFacts.
Import SidebarActions.
Context {AH : ActionsHost}.
Implicit Types (actor : SidebarActor) (ability : Item) (t : SectionType)
         (secs : list (SectionType * ActionSection)).

Lemma lookup_pushAction t a secs t' :
  lookupSection t' (pushAction t a secs)
  = if decide (t' = t)
    then Some match lookupSection t secs with
              | Some sec =>
                  mkSection (secType sec) (secLabel sec) (secActions sec ++ [a])
              | None => mkSection t (label (ACTION_TYPES t)) [a]
              end
    else lookupSection t' secs.
Proof.
  unfold lookupSection.
  induction secs as [|[k sec] secs IH]; simpl.
  - destruct (decide (t' = t)) as [->|Hne].
    + rewrite bool_decide_eq_true_2 by done. reflexivity.
    + rewrite bool_decide_eq_false_2 by congruence. reflexivity.
  - destruct (decide (k = t)) as [->|Hk].
    + rewrite bool_decide_eq_true_2 by done. simpl.
      destruct (decide (t' = t)) as [->|Hne].
      * rewrite bool_decide_eq_true_2 by done. reflexivity.
      * rewrite !bool_decide_eq_false_2 by congruence. reflexivity.
    + rewrite (bool_decide_eq_false_2 (k = t)) by done. simpl.
      destruct (decide (k = t')) as [->|Hk'].
      * rewrite bool_decide_eq_true_2 by done.
        destruct (decide (t' = t)); [congruence | reflexivity].
      * rewrite bool_decide_eq_false_2 by done. exact IH.
Qed.

Lemma keys_pushAction t a secs :
  (pushAction t a secs).*1 = if decide (t ∈ secs.*1) then secs.*1 else (secs.*1 ++ [t])%list.
Proof.
  induction secs as [|[k sec] secs IH]; cbn [pushAction].
  - simpl. destruct (decide (t ∈ [])) as [H|_]; [by apply elem_of_nil in H | reflexivity].
  - destruct (decide (k = t)) as [->|Hk]; cbn [fst].
    + rewrite bool_decide_eq_true_2 by done. rewrite !fmap_cons. cbn [fst].
      rewrite decide_True by apply list_elem_of_here. reflexivity.
    + rewrite bool_decide_eq_false_2 by done. rewrite !fmap_cons, IH. cbn [fst].
      destruct (decide (t ∈ secs.*1)) as [Hin|Hin].
      * rewrite decide_True by (by apply list_elem_of_further). reflexivity.
      * rewrite decide_False; [reflexivity|].
        intros [?|?]%elem_of_cons; congruence.
Qed.

Lemma lookupSection_None t secs :
  lookupSection t secs = None <-> t ∉ secs.*1.
Proof.
  unfold lookupSection. induction secs as [|[k sec] secs IH]; simpl.
  - split; [intros _; apply not_elem_of_nil | done].
  - destruct (decide (k = t)) as [->|Hk].
    + rewrite bool_decide_eq_true_2 by done. simpl. split; [done|].
      intros H. exfalso. apply H, list_elem_of_here.
    + rewrite bool_decide_eq_false_2 by done. rewrite IH, not_elem_of_cons.
      split; [intros ?; split; [congruence | done] | tauto].
Qed.

Lemma lookupSection_elem t sec secs :
  NoDup secs.*1 -> (t, sec) ∈ secs -> lookupSection t secs = Some sec.
Proof.
  unfold lookupSection. induction secs as [|[k sec'] secs IH]; simpl.
  - intros _ H. by apply elem_of_nil in H.
  - intros [Hk Hnd]%NoDup_cons [Heq | Hin]%elem_of_cons.
    + injection Heq as -> ->. rewrite bool_decide_eq_true_2 by done. reflexivity.
    + destruct (decide (k = t)) as [->|Hne].
      * exfalso. apply Hk. apply list_elem_of_fmap. by exists (t, sec).
      * rewrite bool_decide_eq_false_2 by done. by apply IH.
Qed.

(** After the loop over [l]: one entry per section type in use, each with
    the actions of its abilities in the order of the loop. *)
Lemma sections_fold actor (l : list Item) :
  let keep t := fun ability =>
    skipped actor ability = false /\ abilitySection actor ability = t in
  let secs := fold_left (visit actor) l [] in
  NoDup secs.*1
  /\ forall t,
      lookupSection t secs
      = if decide (filter (keep t) l = [])
        then None
        else Some (mkSection t (label (ACTION_TYPES t))
                             (actionData actor <$> filter (keep t) l)).
Proof.
  cbn zeta. induction l as [|x l IH] using rev_ind.
  - simpl. split; [constructor|]. intros t. reflexivity.
  - rewrite fold_left_app. simpl. destruct IH as [Hnd Hl].
    set (secs := fold_left (visit actor) l []) in *.
    unfold visit. destruct (skipped actor x) eqn:Hsk.
    + split; [exact Hnd|]. intros t. rewrite filter_app.
      rewrite (filter_cons_False _ x) by (intros [? _]; congruence).
      rewrite filter_nil, app_nil_r. apply Hl.
    + split.
      * rewrite keys_pushAction. case_decide; [exact Hnd|].
        apply NoDup_app. split; [exact Hnd|]. split; [|apply NoDup_singleton].
        intros k Hk ->%list_elem_of_singleton. done.
      * intros t. rewrite lookup_pushAction, filter_app.
        destruct (decide (t = abilitySection actor x)) as [->|Hne].
        -- rewrite (filter_cons_True _ x) by done. rewrite filter_nil.
           rewrite decide_False by (intros H; by apply app_eq_nil in H as [_ ?]).
           rewrite Hl. f_equal. case_decide as Hf.
           ++ rewrite Hf. reflexivity.
           ++ simpl. rewrite fmap_app. reflexivity.
        -- rewrite (filter_cons_False _ x) by (intros [_ ?]; congruence).
           rewrite filter_nil, app_nil_r. apply Hl.
Qed.

Lemma lookupSection_Some t sec secs :
  lookupSection t secs = Some sec -> (t, sec) ∈ secs.
Proof.
  unfold lookupSection. intros H.
  destruct (List.find _ secs) as [[k sec']|] eqn:E; [|discriminate].
  injection H as ->. apply find_some in E as [Hin Hk].
  apply bool_decide_eq_true in Hk. simpl in Hk. subst k.
  by apply list_elem_of_In.
Qed.

Lemma Sorted_fmap_mono {X Y : Type} (R : relation X) (R' : relation Y)
      (f : X -> Y) (l : list X) :
  (forall x y, R x y -> R' (f x) (f y)) ->
  Sorted R l -> Sorted R' (f <$> l).
Proof.
  intros Hf. induction 1 as [|x l Hs IH Hhd]; simpl; constructor; [exact IH|].
  destruct Hhd; simpl; constructor. by apply Hf.
Qed.

(** What the aura test of the loop decides. *)
Lemma hasKineticAura_true actor :
  hasKineticAura actor = true
  <-> isCharacter actor = true /\ kineticist actor = true
      /\ hasKineticAuraEffect actor.
Proof.
  unfold hasKineticAura, hasKineticAuraEffect, itemTypes.
  rewrite !andb_true_iff, bool_decide_eq_true.
  split.
  - intros [[Hc Hk] [e He]]. split; [done|]. split; [done|].
    apply find_some in He as [Hin Hs]. apply bool_decide_eq_true in Hs.
    apply list_elem_of_In, list_elem_of_filter in Hin as [Hty Hin].
    by exists e.
  - intros (Hc & Hk & e & Hin & Hty & Hs). split; [done|].
    destruct (List.find _ _) as [e'|] eqn:E; [by eexists|].
    exfalso. eapply find_none in E.
    + apply bool_decide_eq_false in E. exact (E Hs).
    + apply list_elem_of_In, list_elem_of_filter. done.
Qed.

(** C8 (as the code has it). The sections are one per action type, in the
    order of [ACTION_TYPES] (action, reaction, free, then passive and
    exploration); the actions of a section are those of the abilities filed
    under its type, sorted by name; every ability that is not skipped shows
    in the section of its type; and no section holds an ability whose
    source UUID is in the stance list, nor the elemental-blast ability of a
    character that has the kineticist flag and a kinetic-aura effect. *)
Theorem actionSections_grouped_sorted actor :
  let secs := actionSections actor in
  NoDup (secType <$> secs)
  /\ Sorted (fun x y => sort (ACTION_TYPES (secType x))
                        <= sort (ACTION_TYPES (secType y))) secs
  /\ (forall sec, sec ∈ secs ->
        Sorted (fun a b => String.leb (adName a) (adName b) = true) (secActions sec)
        /\ secActions sec ≡ₚ actionData actor <$> sectionAbilities actor (secType sec)
        /\ secActions sec <> [])
  /\ (forall ability,
        ability ∈ actorItems actor (abilityTypes actor) ->
        skipped actor ability = false ->
        exists sec, sec ∈ secs /\ secType sec = abilitySection actor ability
                    /\ actionData actor ability ∈ secActions sec)
  /\ (forall ability t,
        ability ∈ sectionAbilities actor t ->
        (forall u, abilitySourceId ability = Some u -> u ∉ excludedUUIDS actor)
        /\ ~ (slug ability = Some "elemental-blast"
              /\ isCharacter actor = true /\ kineticist actor = true
              /\ hasKineticAuraEffect actor)).
Proof.
  cbn zeta. unfold actionSections.
  set (l := actorItems actor (abilityTypes actor)).
  destruct (sections_fold actor l) as [Hnd Hlook].
  set (raw := fold_left (visit actor) l []) in *.
  set (key := fun x => sort (ACTION_TYPES (secType x))).
  set (f := fun x => mkSection (secType x) (secLabel x)
                               (sortBy String.leb adName (secActions x))).
  assert (Hraw : forall t sec, (t, sec) ∈ raw ->
            sec = mkSection t (label (ACTION_TYPES t))
                            (actionData actor <$> sectionAbilities actor t)
            /\ sectionAbilities actor t <> []).
  { intros t sec Hin. apply (lookupSection_elem _ _ _ Hnd) in Hin.
    rewrite Hlook in Hin. case_decide as Hf; [discriminate|].
    injection Hin as <-. done. }
  assert (Hty : secType <$> raw.*2 = raw.*1).
  { rewrite <- list_fmap_compose. apply Forall_fmap_ext, Forall_forall.
    intros [t sec] Hin. simpl. by destruct (Hraw t sec Hin) as [-> _]. }
  assert (Hsorted : forall sec, sec ∈ sortBy Nat.leb key raw.*2 ->
            exists t, (t, sec) ∈ raw).
  { intros sec Hin. rewrite sortBy_perm in Hin.
    apply list_elem_of_fmap in Hin as [[t sec'] [-> Hin]]. by exists t. }
  split; [|split; [|split; [|split]]].
  - rewrite <- list_fmap_compose.
    change (secType ∘ f) with secType.
    rewrite sortBy_perm, Hty. exact Hnd.
  - eapply Sorted_fmap_mono; [|apply (sortBy_sorted Nat.leb key)].
    + intros x y Hxy. unfold SidebarActions.keyLe in Hxy. simpl.
      by apply Nat.leb_le in Hxy.
    + intros x y. destruct (Nat.leb_spec x y); [by left|right].
      apply Nat.leb_le. lia.
  - intros sec [sec0 [-> Hin]]%list_elem_of_fmap.
    destruct (Hsorted _ Hin) as [t Ht]. destruct (Hraw _ _ Ht) as [-> Hne].
    simpl. split; [|split].
    + apply (sortBy_sorted String.leb adName). apply String.leb_total.
    + apply sortBy_perm.
    + intros Hnil. apply Hne.
      apply (f_equal length) in Hnil.
      rewrite (Permutation_length (sortBy_perm _ _ _)), length_fmap in Hnil.
      by apply nil_length_inv.
  - intros ability Hin Hsk.
    set (t := abilitySection actor ability).
    assert (Hmem : ability ∈ sectionAbilities actor t).
    { apply list_elem_of_filter. done. }
    pose proof (Hlook t) as Ht. case_decide as Hf.
    { exfalso. unfold sectionAbilities in Hmem. fold l in Hmem.
      rewrite Hf in Hmem. by apply elem_of_nil in Hmem. }
    apply lookupSection_Some in Ht.
    exists (f (mkSection t (label (ACTION_TYPES t))
                 (actionData actor <$> sectionAbilities actor t))).
    split; [|split; [reflexivity|]].
    + apply list_elem_of_fmap_2. rewrite sortBy_perm.
      apply list_elem_of_fmap. by eexists (t, _).
    + simpl. rewrite sortBy_perm. by apply list_elem_of_fmap_2.
  - intros ability t [[Hsk _] _]%list_elem_of_filter.
    unfold skipped in Hsk. rewrite !orb_false_iff in Hsk.
    destruct Hsk as [[[[Hblast Hsrc] _] _] _]. split.
    + intros u Hu. rewrite Hu in Hsrc. by apply bool_decide_eq_false in Hsrc.
    + intros (Hs & Hc & Hk & He).
      rewrite bool_decide_eq_true_2 in Hblast by done. simpl in Hblast.
      assert (hasKineticAura actor = true) by (by apply hasKineticAura_true).
      congruence.
Qed.

End ActionSectionsFacts.

Section ListenerFacts.
Import SidebarActions.
Context {AH : ActionsHost}.
Implicit Types (actor : SidebarActor) (button : Button).

Local Abbreviation toggleError :=
  (throw "Unexpected failure while toggling weapon trait" : Handler unit).

Lemma toggle_doubleBarrel_ok actor button w :
  usageItem <$> getStrike actor button false = Some w ->
  dataTrait button = Some "double-barrel" ->
  "double-barrel" ∈ weaponTraits w ->
  toggleWeaponTrait actor button
  = hostCall (TogglesUpdateDoubleBarrel (weaponId w) (negb (doubleBarrelSelected w))).
Proof.
  intros Hw Ht Hin. unfold toggleWeaponTrait.
  rewrite Hw, (bool_decide_eq_true_2 _ Ht). simpl.
  rewrite (bool_decide_eq_true_2 _ Hin). reflexivity.
Qed.

Lemma toggle_doubleBarrel_bad actor button :
  dataTrait button = Some "double-barrel" ->
  (forall w, usageItem <$> getStrike actor button false = Some w ->
             "double-barrel" ∉ weaponTraits w) ->
  toggleWeaponTrait actor button = toggleError.
Proof.
  intros Ht Hbad. unfold toggleWeaponTrait.
  rewrite (bool_decide_eq_true_2 _ Ht).
  destruct (usageItem <$> getStrike actor button false) as [w|]; [|reflexivity].
  simpl. rewrite bool_decide_eq_false_2 by (by apply Hbad). reflexivity.
Qed.

Lemma toggle_versatile_ok actor button w :
  usageItem <$> getStrike actor button false = Some w ->
  dataTrait button = Some "versatile" ->
  selectionIsValid (versatileSelection button (Some w)) = true ->
  toggleWeaponTrait actor button
  = hostCall (TogglesUpdateVersatile (weaponId w)
                match versatileSelection button (Some w) with
                | selValue v => Some v
                | _ => None
                end).
Proof.
  intros Hw Ht Hsel. unfold toggleWeaponTrait.
  rewrite Hw, (bool_decide_eq_true_2 _ Ht), Hsel.
  rewrite bool_decide_eq_false_2 by (rewrite Ht; discriminate). reflexivity.
Qed.

Lemma toggle_versatile_bad actor button :
  dataTrait button = Some "versatile" ->
  usageItem <$> getStrike actor button false = None
  \/ selectionIsValid
       (versatileSelection button (usageItem <$> getStrike actor button false))
     = false ->
  toggleWeaponTrait actor button = toggleError.
Proof.
  intros Ht Hbad. unfold toggleWeaponTrait.
  rewrite (bool_decide_eq_true_2 _ Ht).
  rewrite bool_decide_eq_false_2 by (rewrite Ht; discriminate).
  destruct (usageItem <$> getStrike actor button false) as [w|]; [|reflexivity].
  destruct Hbad as [Hbad | Hbad]; [discriminate | rewrite Hbad; reflexivity].
Qed.

Lemma toggle_other actor button :
  dataTrait button <> Some "double-barrel" ->
  dataTrait button <> Some "versatile" ->
  toggleWeaponTrait actor button = toggleError.
Proof.
  intros H1 H2. unfold toggleWeaponTrait.
  rewrite !bool_decide_eq_false_2 by done. reflexivity.
Qed.

(** C9. The toggle-weapon-trait listener throws, having asked nothing of
    the host, when the trait is "double-barrel" and the resolved weapon is
    missing or lacks that trait, when the trait is "versatile" and the
    weapon is missing or the selected damage type is not valid, and when
    the trait is anything else. Only a valid combination of trait, weapon
    and selection asks the host for the toggle update, once. *)
Theorem toggleWeaponTrait_outcome actor button :
  let weapon := usageItem <$> getStrike actor button false in
  let r := toggleWeaponTrait actor button in
  ((dataTrait button = Some "double-barrel"
      /\ (forall w, weapon = Some w -> "double-barrel" ∉ weaponTraits w))
   \/ (dataTrait button = Some "versatile"
       /\ (weapon = None
           \/ selectionIsValid (versatileSelection button weapon) = false))
   \/ (dataTrait button <> Some "double-barrel"
       /\ dataTrait button <> Some "versatile")
   -> r = throw "Unexpected failure while toggling weapon trait"
      /\ threw r /\ callsOf r = [])
  /\ (forall w, weapon = Some w ->
        dataTrait button = Some "double-barrel" ->
        "double-barrel" ∈ weaponTraits w ->
        r = hostCall (TogglesUpdateDoubleBarrel (weaponId w)
                        (negb (doubleBarrelSelected w))))
  /\ (forall w, weapon = Some w ->
        dataTrait button = Some "versatile" ->
        selectionIsValid (versatileSelection button weapon) = true ->
        exists sel,
          r = hostCall (TogglesUpdateVersatile (weaponId w) sel)
          /\ (sel = None \/ exists v, sel = Some v /\ v ∈ damageTypes))
  /\ (callsOf r <> [] ->
        ~ threw r
        /\ exists w, weapon = Some w
           /\ ((dataTrait button = Some "double-barrel"
                /\ "double-barrel" ∈ weaponTraits w)
               \/ (dataTrait button = Some "versatile"
                   /\ selectionIsValid (versatileSelection button weapon) = true))).
Proof.
  cbn zeta.
  assert (Hbad :
    (dataTrait button = Some "double-barrel"
       /\ (forall w, usageItem <$> getStrike actor button false = Some w ->
                     "double-barrel" ∉ weaponTraits w))
    \/ (dataTrait button = Some "versatile"
        /\ (usageItem <$> getStrike actor button false = None
            \/ selectionIsValid
                 (versatileSelection button
                    (usageItem <$> getStrike actor button false)) = false))
    \/ (dataTrait button <> Some "double-barrel"
        /\ dataTrait button <> Some "versatile")
    -> toggleWeaponTrait actor button = toggleError).
  { intros [[H1 H2] | [[H1 H2] | [H1 H2]]].
    - by apply toggle_doubleBarrel_bad.
    - by apply toggle_versatile_bad.
    - by apply toggle_other. }
  split; [|split; [|split]].
  - intros Hcase. rewrite (Hbad Hcase).
    split; [reflexivity|]. split; [by eexists | reflexivity].
  - intros w Hw Ht Hin. by apply toggle_doubleBarrel_ok.
  - intros w Hw Ht Hsel. rewrite Hw in Hsel.
    rewrite (toggle_versatile_ok _ _ w Hw Ht Hsel). eexists. split; [reflexivity|].
    destruct (versatileSelection button (Some w)) as [| |v];
      [by left | discriminate | right].
    exists v. split; [reflexivity|]. by apply bool_decide_eq_true in Hsel.
  - intros Hcalls.
    destruct (usageItem <$> getStrike actor button false) as [w|] eqn:Hw.
    + destruct (decide (dataTrait button = Some "double-barrel")) as [Hdb|Hdb].
      * destruct (decide ("double-barrel" ∈ weaponTraits w)) as [Hin|Hin].
        -- rewrite (toggle_doubleBarrel_ok _ _ w Hw Hdb Hin).
           split; [intros [msg Hm]; discriminate Hm|].
           exists w. split; [reflexivity|]. by left.
        -- exfalso. apply Hcalls. rewrite Hbad; [reflexivity|].
           left. split; [done|]. intros w' [= <-]. done.
      * destruct (decide (dataTrait button = Some "versatile")) as [Hv|Hv].
        -- destruct (selectionIsValid (versatileSelection button (Some w))) eqn:Hsel.
           ++ rewrite (toggle_versatile_ok _ _ w Hw Hv Hsel).
              split; [intros [msg Hm]; discriminate Hm|].
              exists w. split; [reflexivity|]. by right.
           ++ exfalso. apply Hcalls. rewrite Hbad; [reflexivity|].
              right. left. split; [done|]. by right.
        -- exfalso. apply Hcalls. rewrite Hbad; [reflexivity|].
           right. right. done.
    + exfalso. apply Hcalls. rewrite Hbad; [reflexivity|].
      destruct (decide (dataTrait button = Some "double-barrel")) as [Hdb|Hdb].
      * left. split; [done|]. intros w' Hw'. discriminate Hw'.
      * destruct (decide (dataTrait button = Some "versatile")) as [Hv|Hv].
        -- right. left. split; [done|]. by left.
        -- right. right. done.
Qed.

(** The calls of use-action: at most one write of a frequency value, then
    calls that write no frequency; and it completes. *)
Lemma useAction_calls actor button :
  exists rest,
    Forall (fun c => isFrequencyUpdate c = false) rest
    /\ (useAction actor button).2 = inr tt
    /\ callsOf (useAction actor button)
       = (match itemsGet actor (rowItemId button) with
          | Some item =>
              if bool_decide (itemType item ∈ [itFeat; itAction]) then
                match frequency item with
                | Some f =>
                    if negb (bool_decide (freqMax f = 0%Z))
                       && negb (bool_decide (freqValue f = 0%Z))
                    then [ItemUpdateFrequencyValue (itemId item) (freqValue f - 1)%Z]
                    else []
                | None => []
                end
              else []
          | None => []
          end ++ rest)%list.
Proof.
  unfold useAction, callsOf.
  destruct (itemsGet actor (rowItemId button)) as [item|];
    [|exists []; repeat split; constructor].
  destruct (bool_decide (itemType item ∈ [itFeat; itAction])); simpl;
    [|exists []; repeat split; constructor].
  destruct (frequency item) as [f|];
    [destruct (negb (bool_decide (freqMax f = 0%Z))
               && negb (bool_decide (freqValue f = 0%Z)))|];
    destruct (selfEffect item);
    destruct (activeToolbelt ≫= (fun tb : Toolbelt => getActionMacro tb item));
    destruct (from_option actionableMessage false activeToolbelt);
    simpl; eexists; (split; [|split; reflexivity]); by repeat constructor.
Qed.

Lemma applyCalls_no_frequency (rest : list HostCall) its :
  Forall (fun c => isFrequencyUpdate c = false) rest ->
  applyCalls rest its = its.
Proof.
  unfold applyCalls. induction 1 as [|c rest Hc _ IH]; simpl; [reflexivity|].
  destruct c; try discriminate Hc; exact IH.
Qed.

Lemma stored_after_update (its : list Item) id0 v0 id :
  storedFrequencyValue (applyCall (ItemUpdateFrequencyValue id0 v0) its) id
  = if decide (id = id0)
    then (fun _ => v0) <$> storedFrequencyValue its id
    else storedFrequencyValue its id.
Proof.
  unfold storedFrequencyValue, applyCall.
  induction its as [|i its IH]; simpl.
  - by destruct (decide (id = id0)).
  - destruct (decide (itemId i = id0)) as [Hi|Hi].
    + rewrite (bool_decide_eq_true_2 _ Hi). simpl.
      destruct (decide (itemId i = id)) as [Hid|Hid].
      * rewrite (bool_decide_eq_true_2 _ Hid). simpl.
        rewrite decide_True by congruence. by destruct (frequency i).
      * rewrite (bool_decide_eq_false_2 _ Hid). exact IH.
    + rewrite (bool_decide_eq_false_2 _ Hi).
      destruct (decide (itemId i = id)) as [Hid|Hid].
      * rewrite (bool_decide_eq_true_2 _ Hid). simpl.
        rewrite decide_False by congruence. reflexivity.
      * rewrite (bool_decide_eq_false_2 _ Hid). exact IH.
Qed.

(** C10. In the use-action listener: an item with a frequency whose max is
    set and whose value is above zero gets its value written back lowered
    by exactly one; with the value at zero, or without a frequency max, no
    frequency is written; so a stored frequency value that is not negative
    stays so. The listener does not throw. *)
Theorem useAction_frequency actor button :
  let r := useAction actor button in
  (forall item f,
      itemsGet actor (rowItemId button) = Some item ->
      itemType item ∈ [itFeat; itAction] ->
      frequency item = Some f ->
      freqMax f <> 0%Z -> (0 < freqValue f)%Z ->
      filter (fun c => isFrequencyUpdate c = true) (callsOf r)
      = [ItemUpdateFrequencyValue (itemId item) (freqValue f - 1)%Z])
  /\ (forall item,
        itemsGet actor (rowItemId button) = Some item ->
        (forall f, frequency item = Some f ->
                   freqMax f = 0%Z \/ freqValue f = 0%Z) ->
        filter (fun c => isFrequencyUpdate c = true) (callsOf r) = [])
  /\ (forall id v,
        storedFrequencyValue (items actor) id = Some v -> (0 <= v)%Z ->
        exists v',
          storedFrequencyValue (applyCalls (callsOf r) (items actor)) id = Some v'
          /\ (0 <= v')%Z /\ (v' = v \/ v' = (v - 1)%Z))
  /\ ~ threw r.
Proof.
  cbn zeta.
  assert (Hfilter : forall rest : list HostCall,
            Forall (fun c => isFrequencyUpdate c = false) rest ->
            filter (fun c => isFrequencyUpdate c = true) rest = []).
  { induction 1 as [|c rest Hc _ IH]; [reflexivity|].
    rewrite filter_cons_False by congruence. exact IH. }
  destruct (useAction_calls actor button) as (rest & Hrest & Hout & Hcalls).
  rewrite Hcalls.
  split; [|split; [|split]].
  - intros item f Hget Hty Hf Hmax Hval.
    rewrite Hget, (bool_decide_eq_true_2 _ Hty), Hf.
    rewrite !bool_decide_eq_false_2 by lia. simpl.
    rewrite filter_cons_True by reflexivity. by rewrite Hfilter.
  - intros item Hget Hf. rewrite Hget.
    destruct (bool_decide (itemType item ∈ [itFeat; itAction]));
      [|by rewrite Hfilter].
    destruct (frequency item) as [f|]; [|by rewrite Hfilter].
    destruct (Hf f eq_refl) as [H0 | H0];
      rewrite (bool_decide_eq_true_2 _ H0), ?andb_false_r; simpl;
      by rewrite Hfilter.
  - intros id v Hv Hpos.
    unfold applyCalls. rewrite fold_left_app.
    fold (applyCalls rest). rewrite applyCalls_no_frequency by done.
    destruct (itemsGet actor (rowItemId button)) as [item|] eqn:Hget;
      [|exists v; simpl; auto].
    destruct (bool_decide (itemType item ∈ [itFeat; itAction]));
      [|exists v; simpl; auto].
    destruct (frequency item) as [f|] eqn:Hf; [|exists v; simpl; auto].
    destruct (decide (freqMax f = 0%Z)) as [Hm|Hm].
    { rewrite (bool_decide_eq_true_2 _ Hm). exists v. simpl. auto. }
    destruct (decide (freqValue f = 0%Z)) as [Hz|Hz].
    { rewrite (bool_decide_eq_true_2 _ Hz), andb_false_r. exists v. simpl. auto. }
    rewrite !bool_decide_eq_false_2 by done. cbn [negb andb fold_left].
    rewrite stored_after_update.
    destruct (decide (id = itemId item)) as [->|Hid]; [|exists v; auto].
    rewrite Hv. simpl.
    (* the item that was resolved is the one whose value is stored *)
    unfold itemsGet in Hget. pose proof Hget as Hfound.
    apply find_some in Hfound as [_ Hid]. apply bool_decide_eq_true in Hid.
    unfold storedFrequencyValue in Hv. rewrite Hid, Hget in Hv. simpl in Hv.
    rewrite Hf in Hv. injection Hv as <-.
    exists (freqValue f - 1)%Z. split; [reflexivity|]. split; [lia | by right].
  - intros [msg Hm]. rewrite Hout in Hm. discriminate Hm.
Qed.

End ListenerFacts.

(** * More of the actions sidebar *)

Section StrikeFacts.
Import SidebarActions.
Context {AH : ActionsHost}.
Implicit Types (actor : SidebarActor) (button : Button).

Lemma arrayAt_elem {A : Type} (l : list A) i x : arrayAt l i = Some x -> x ∈ l.
Proof.
  unfold arrayAt. cbn zeta.
  destruct (_ <? 0)%Z; [discriminate|]. apply list_elem_of_lookup_2.
Qed.

Lemma arrayAt_NaN {A : Type} (l : list A) : arrayAt l None = head l.
Proof. unfold arrayAt. simpl. by destruct l. Qed.

(** X7. The strike behind a button. A strike that is returned is a strike
    of the actor at the index of the row, or, when the button asks for the
    thrown or the melee usage, the first alternative usage of that strike
    whose weapon is thrown or melee; with [readyOnly] it is ready, and it is
    the strike returned without [readyOnly]. Without [readyOnly] a strike
    that is not ready is returned all the same. A button in no row with an
    index resolves to the first strike of the actor. *)
Theorem getStrike_resolution actor button :
  (forall readyOnly st,
      getStrike actor button readyOnly = Some st ->
      (readyOnly = true -> usageReady st = true)
      /\ getStrike actor button false = Some st
      /\ exists root,
          arrayAt (actions actor) (actionIndex button) = Some root
          /\ root ∈ actions actor
          /\ match altUsageOf (dataAltUsage button) with
             | None => st = asUsage root
             | Some usageThrown =>
                 st ∈ altUsages root /\ isThrown (usageItem st) = true
             | Some usageMelee =>
                 st ∈ altUsages root /\ isMelee (usageItem st) = true
             end)
  /\ (forall st, getStrike actor button false = Some st ->
        getStrike actor button true = if usageReady st then Some st else None)
  /\ (getStrike actor button false = None -> getStrike actor button true = None)
  /\ (actionIndex button = None ->
      arrayAt (actions actor) (actionIndex button) = head (actions actor)).
Proof.
  unfold getStrike. cbn zeta.
  set (rootAction := arrayAt (actions actor) (actionIndex button)).
  set (strike := match altUsageOf (dataAltUsage button) with
                 | Some u => _ | None => _ end).
  assert (Hstrike : forall st, strike = Some st ->
            exists root, rootAction = Some root /\ root ∈ actions actor
              /\ match altUsageOf (dataAltUsage button) with
                 | None => st = asUsage root
                 | Some usageThrown =>
                     st ∈ altUsages root /\ isThrown (usageItem st) = true
                 | Some usageMelee =>
                     st ∈ altUsages root /\ isMelee (usageItem st) = true
                 end).
  { intros st Hst. subst strike.
    destruct rootAction as [root|] eqn:Hroot;
      [|by destruct (altUsageOf (dataAltUsage button))].
    exists root. split; [reflexivity|].
    split; [by apply arrayAt_elem in Hroot|].
    destruct (altUsageOf (dataAltUsage button)) as [[]|]; simpl in Hst.
    - apply find_some in Hst as [Hin Ht]. split; [by apply list_elem_of_In | done].
    - apply find_some in Hst as [Hin Ht]. split; [by apply list_elem_of_In | done].
    - by injection Hst as <-. }
  split; [|split; [|split]].
  - intros readyOnly st Hst.
    destruct strike as [st'|] eqn:E; [|discriminate].
    rewrite orb_true_r.
    destruct (usageReady st' || negb readyOnly) eqn:Hr; [|discriminate].
    injection Hst as <-. split; [|split; [reflexivity | by apply Hstrike]].
    intros ->. by rewrite orb_false_r in Hr.
  - intros st. destruct strike as [st'|]; [|discriminate].
    rewrite orb_true_r, orb_false_r. by intros [= ->].
  - destruct strike as [st'|]; [|done]. by rewrite orb_true_r.
  - intros Hi. subst rootAction. rewrite Hi. apply arrayAt_NaN.
Qed.

End StrikeFacts.

Section BlastFacts.
Import SidebarActions.
Context {AH : ActionsHost}.
Implicit Types (button : Button).

(** The damage type [getBlast] reads: the value of the button unless it is
    missing or empty, then the damage type of the row. *)
Lemma getBlast_cases button :
  (exists e d,
      getBlast button = mret (e, d, bool_decide (dataMelee button = Some "true"))
      /\ rowElement button = Some e /\ e ∈ elementTraits /\ d ∈ damageTypes
      /\ (dataValue button = Some d /\ d <> ""
          \/ (dataValue button = None \/ dataValue button = Some "")
             /\ rowDamageType button = Some d))
  \/ (exists msg, getBlast button = throw msg)
     /\ ~ (exists e d, rowElement button = Some e /\ e ∈ elementTraits
                       /\ d ∈ damageTypes
                       /\ (dataValue button = Some d /\ d <> ""
                           \/ (dataValue button = None \/ dataValue button = Some "")
                              /\ rowDamageType button = Some d)).
Proof.
  unfold getBlast. cbn zeta.
  destruct (rowElement button) as [e|]; cycle 1.
  { right. split; [by eexists|]. by intros (e & d & ? & _). }
  case_bool_decide as He; cycle 1.
  { right. split; [by eexists|]. intros (e' & d & [= <-] & ? & _). done. }
  set (dt := match dataValue button with Some v => _ | None => _ end).
  assert (Hdt : forall d, dt = Some d <->
            (dataValue button = Some d /\ d <> ""
             \/ (dataValue button = None \/ dataValue button = Some "")
                /\ rowDamageType button = Some d)).
  { intros d. subst dt. destruct (dataValue button) as [v|].
    - case_bool_decide as Hv.
      + subst v. split; [intros ?; right; split; [by right | done]|].
        intros [[[= <-] ?] | [_ ?]]; done.
      + split; [intros [= ->]; by left|].
        intros [[[= ->] _] | [[?|[= ?]] _]]; done.
    - split; [intros ?; right; split; [by left | done]|].
      intros [[? _] | [_ ?]]; done. }
  destruct dt as [d|]; cycle 1.
  { right. split; [by eexists|]. intros (e' & d & _ & _ & _ & Hd).
    by apply Hdt in Hd. }
  case_bool_decide as Hd.
  - left. exists e, d. split; [reflexivity|]. split; [reflexivity|].
    split; [exact He|]. split; [exact Hd|]. by apply Hdt.
  - right. split; [by eexists|]. intros (e' & d' & _ & _ & Hd' & Hv).
    apply Hdt in Hv. by injection Hv as ->.
Qed.

(** X8. The three blast listeners. Each of them throws, with nothing asked
    of the host, unless the element of the row is an element trait and the
    damage type (the value of the button, or for want of one the damage type
    of the row) is a damage type of the system. Otherwise the request is made
    with that element and damage type, melee exactly when the button says
    "true"; the attack's multiple attack penalty count lies between 0 and 2
    whenever it is a number, and the damage is that of a success only when
    the button says so, a critical success otherwise. *)
Theorem blast_listeners_validate button (mapIncreases : option Z)
        (outcome : option string) :
  let valid e d :=
    rowElement button = Some e /\ e ∈ elementTraits /\ d ∈ damageTypes
    /\ (dataValue button = Some d /\ d <> ""
        \/ (dataValue button = None \/ dataValue button = Some "")
           /\ rowDamageType button = Some d) in
  let melee := bool_decide (dataMelee button = Some "true") in
  ((exists e d, valid e d) ->
     exists e d, valid e d
       /\ blastSetDamageType button = hostCall (BlastSetDamageType e d melee)
       /\ (blastAttack button mapIncreases).1 = []
       /\ (exists m, (blastAttack button mapIncreases).2
                     = inr (BlastAttack e d melee m)
                     /\ (forall k, m = Some k -> (0 <= k <= 2)%Z)
                     /\ (is_Some m <-> is_Some mapIncreases)
                     /\ (forall k, mapIncreases = Some k -> (0 <= k <= 2)%Z ->
                                   m = Some k))
       /\ blastDamage button outcome
          = mret (BlastDamage e d melee
                    (if decide (outcome = Some "success")
                     then outSuccess else outCriticalSuccess)))
  /\ (~ (exists e d, valid e d) ->
      threw (blastSetDamageType button) /\ callsOf (blastSetDamageType button) = []
      /\ threw (blastAttack button mapIncreases)
      /\ callsOf (blastAttack button mapIncreases) = []
      /\ threw (blastDamage button outcome)
      /\ callsOf (blastDamage button outcome) = []).
Proof.
  cbn zeta. unfold blastSetDamageType, blastAttack, blastDamage.
  destruct (getBlast_cases button) as [(e & d & Hg & Hv) | [[msg Hg] Hno]];
    rewrite Hg.
  - split; [|intros Hn; exfalso; apply Hn; by exists e, d].
    intros _. exists e, d. split; [exact Hv|]. split; [reflexivity|].
    split; [reflexivity|]. split.
    + exists (clampMap mapIncreases). split; [reflexivity|].
      unfold clampMap. destruct mapIncreases as [k|]; simpl.
      * split; [intros ? [= <-]; lia|]. split; [by split; eexists|].
        intros ? [= <-] ?. f_equal. lia.
      * split; [done|]. split; [split; intros [? [=]] | done].
    + destruct (decide (outcome = Some "success")) as [Ho|Ho];
        [rewrite (bool_decide_eq_true_2 _ Ho) | rewrite (bool_decide_eq_false_2 _ Ho)];
        reflexivity.
  - split; [intros H; by destruct (Hno H)|].
    intros _. repeat split; try reflexivity; by exists msg.
Qed.

End BlastFacts.

Section ContextFacts.
Import SidebarActions.
Context {AH : ActionsHost}.
Implicit Types (actor : SidebarActor) (ability : Item) (t : SectionType).

(** X9. The hero actions of the context, when they are shown: the actor is
    a character and the toolbelt has them enabled. With the count variant
    nothing has to be drawn or discarded. Without it, the actor has to
    discard when it holds more actions than hero points and to draw when it
    holds fewer, never both, and [diff] is the number of actions to discard
    or to draw; an actor that has to discard cannot use an action. Trading
    needs an action in hand and nothing to draw or discard. *)
Theorem heroActions_flags heroApi (heroPoints : Z) actor h :
  heroActions heroApi heroPoints actor = Some h ->
  let n := Z.of_nat (length (haActions h)) in
  (isCharacter actor = true
   /\ exists tb, activeToolbelt = Some tb
        /\ heroActionsEnabled (heroApi tb) = true
        /\ haActions h ≡ₚ getHeroActions (heroApi tb) actor
        /\ Sorted (fun a b => String.leb (heroName a) (heroName b) = true) (haActions h)
        /\ haUsesCount h = usesCountVariant (heroApi tb))
  /\ (haUsesCount h = true ->
      haMustDiscard h = false /\ haMustDraw h = false
      /\ (haCanUse h = true <-> (0 < heroPoints \/ n <= heroPoints)%Z))
  /\ (haUsesCount h = false ->
      (haMustDiscard h = true <-> (heroPoints < n)%Z)
      /\ (haMustDraw h = true <-> (n < heroPoints)%Z)
      /\ (haCanUse h = negb (haMustDiscard h)))
  /\ (haMustDiscard h = true -> (n = heroPoints + haDiff h)%Z)
  /\ (haMustDraw h = true -> (heroPoints = n + haDiff h)%Z)
  /\ (haMustDiscard h = true -> haMustDraw h = true -> False)
  /\ (haCanTrade h = true ->
      haActions h <> [] /\ haMustDiscard h = false /\ haMustDraw h = false)
  /\ (0 <= haDiff h)%Z.
Proof.
  unfold heroActions. destruct activeToolbelt as [tb|] eqn:Htb; [|discriminate].
  destruct (isCharacter actor); [|discriminate].
  destruct (heroActionsEnabled (heroApi tb)) eqn:Hen; [|discriminate].
  cbn [negb orb]. cbn zeta. intros [= <-]. cbn [haActions haUsesCount haMustDiscard
    haMustDraw haCanUse haCanTrade haDiff].
  pose proof (sortBy_perm String.leb heroName (getHeroActions (heroApi tb) actor)) as Hp.
  rewrite (Permutation_length Hp).
  set (m := Z.of_nat (length (getHeroActions (heroApi tb) actor))).
  split; [|split; [|split; [|split; [|split; [|split; [|split]]]]]].
  - split; [reflexivity|]. exists tb. split; [reflexivity|]. split; [exact Hen|].
    split; [exact Hp|]. split; [|reflexivity].
    apply (sortBy_sorted String.leb heroName). apply String.leb_total.
  - intros ->. cbn [negb andb]. split; [reflexivity|]. split; [reflexivity|].
    rewrite orb_true_iff. cbn [andb]. rewrite Z.ltb_lt, Z.leb_le. lia.
  - intros ->. cbn [negb andb orb]. rewrite !Z.ltb_lt.
    split; [lia|]. split; [lia|].
    destruct (Z.ltb_spec (heroPoints - m) 0), (Z.leb_spec 0 (heroPoints - m));
      simpl; lia || reflexivity.
  - rewrite andb_true_iff, Z.ltb_lt. lia.
  - rewrite andb_true_iff, Z.ltb_lt. lia.
  - rewrite !andb_true_iff, !Z.ltb_lt. lia.
  - rewrite !andb_true_iff, !negb_true_iff. intros [[[Hl Hd] Hw] _].
    split; [|done]. intros Hnil. apply Nat.eqb_neq in Hl. apply Hl.
    rewrite <- (Permutation_length Hp), Hnil. reflexivity.
  - lia.
Qed.

(** X10. The stances of the context are shown exactly to a character when
    the toolbelt is active with its stances enabled; they are the stances
    the toolbelt gives for the actor, sorted by name, and it is their
    actions that the sections leave out. *)
Theorem stances_shown actor :
  (is_Some (stances actor)
   <-> isCharacter actor = true
       /\ exists tb, activeToolbelt = Some tb /\ stancesEnabled tb = true)
  /\ (forall st, stances actor = Some st ->
        exists tb, activeToolbelt = Some tb
          /\ stanceActions st ≡ₚ getStances tb actor
          /\ Sorted (fun a b => String.leb (stanceName a) (stanceName b) = true)
                    (stanceActions st)
          /\ stancesCanUse st = canUseStances tb actor
          /\ excludedUUIDS actor ≡ₚ actionUUID <$> getStances tb actor)
  /\ (stances actor = None -> excludedUUIDS actor = []).
Proof.
  unfold excludedUUIDS, stances.
  destruct activeToolbelt as [tb|]; cycle 1.
  { split; [|split; [intros ? [=] | reflexivity]].
    split; [intros [? [=]] | intros (_ & ? & [=] & _)]. }
  destruct (isCharacter actor), (stancesEnabled tb) eqn:Hen; cbn [negb orb].
  2-4: split; [|split; [intros ? [=] | reflexivity]];
       (split; [intros [? [=]] | intros (? & ? & [= <-] & ?); congruence]).
  split; [|split; [|intros [=]]].
  - split; [intros _; split; [reflexivity | by exists tb] | by eexists].
  - intros st [= <-]. exists tb. simpl.
    pose proof (sortBy_perm String.leb stanceName (getStances tb actor)) as Hp.
    split; [reflexivity|]. split; [exact Hp|]. split; [|split; [reflexivity|]].
    + apply (sortBy_sorted String.leb stanceName), String.leb_total.
    + by rewrite Hp.
Qed.

(** A section of the result holds the actions of the abilities filed under
    its type. *)
Lemma actionSections_elem actor sec :
  sec ∈ actionSections actor ->
  secLabel sec = label (ACTION_TYPES (secType sec))
  /\ secActions sec ≡ₚ actionData actor <$> sectionAbilities actor (secType sec).
Proof.
  unfold actionSections. cbn zeta.
  set (l := actorItems actor (abilityTypes actor)).
  destruct (sections_fold actor l) as [Hnd Hlook].
  set (raw := fold_left (visit actor) l []) in *.
  intros (x & -> & Hx)%list_elem_of_fmap.
  rewrite sortBy_perm in Hx.
  apply list_elem_of_fmap in Hx as ([t x'] & -> & Hin). simpl.
  apply (lookupSection_elem _ _ _ Hnd) in Hin. rewrite Hlook in Hin.
  case_decide; [discriminate|]. injection Hin as <-. simpl.
  split; [reflexivity|]. apply sortBy_perm.
Qed.

Lemma actorItems_elem actor types ability :
  ability ∈ actorItems actor types
  <-> ability ∈ items actor /\ itemType ability ∈ types.
Proof.
  unfold actorItems, itemTypes. rewrite list_elem_of_bind. split.
  - intros (ty & [Hty Hin]%list_elem_of_filter & Hty'). by subst ty.
  - intros [Hin Hty]. exists (itemType ability). split; [|exact Hty].
    by apply list_elem_of_filter.
Qed.

(** X11. What the sections hold. Every listed action is that of an item of
    the actor that is an action, or for a character a feat with an action
    cost; none has the downtime trait; an exploration ability of a character
    is listed only for a member of a party, and has no use button. A passive
    section is one of a non-character and an exploration section one of a
    character, both hold abilities without an action cost only. An action
    is marked active only when it is an exploration ability of a character
    whose id is among the actor's exploration activities; and a use button
    is disabled exactly when the frequency shown has no use left. *)
Theorem actionSections_contents actor sec a :
  sec ∈ actionSections actor -> a ∈ secActions sec ->
  secLabel sec = label (ACTION_TYPES (secType sec))
  /\ exists ability,
      ability ∈ items actor /\ a = actionData actor ability
      /\ secType sec = abilitySection actor ability
      /\ (itemType ability = itAction
          \/ (itemType ability = itFeat /\ isCharacter actor = true
              /\ is_Some (actionCost ability)))
      /\ ("downtime" ∉ traits ability)
      /\ (isCharacter actor = true -> "exploration" ∈ traits ability ->
          0 < inParties actor /\ adUsage a = None)
      /\ (secType sec = secPassive ->
          isCharacter actor = false /\ actionCost ability = None)
      /\ (secType sec = secExploration ->
          isCharacter actor = true /\ "exploration" ∈ traits ability
          /\ actionCost ability = None)
      /\ (adIsActive a = true ->
          isCharacter actor = true /\ "exploration" ∈ traits ability
          /\ adId a ∈ exploration actor)
      /\ (forall u, adUsage a = Some u ->
          (disabled u = true
           <-> exists f, adFrequency a = Some f /\ afValue f = 0%Z)).
Proof.
  intros Hsec Ha. destruct (actionSections_elem actor sec Hsec) as [Hlab Hperm].
  split; [exact Hlab|].
  rewrite Hperm in Ha. apply list_elem_of_fmap in Ha as (ability & -> & Hab).
  unfold sectionAbilities in Hab.
  apply list_elem_of_filter in Hab as [[Hskip Hty] Hin].
  apply actorItems_elem in Hin as [Hin Hit].
  exists ability. split; [exact Hin|]. split; [reflexivity|].
  split; [by symmetry|].
  unfold skipped in Hskip. rewrite !orb_false_iff in Hskip.
  destruct Hskip as [[[[_ _] Hfeat] Hdown] Hexp].
  apply bool_decide_eq_false in Hdown.
  assert (Hexp' : isCharacter actor = true -> "exploration" ∈ traits ability ->
                  0 < inParties actor /\ isExploration actor ability = true).
  { intros Hc Htr. unfold inParty, isExploration in *. rewrite Hc in *.
    rewrite (bool_decide_eq_true_2 _ Htr) in *. cbn [andb] in *.
    apply andb_false_iff in Hexp as [Hp | Hp]; [|discriminate].
    apply negb_false_iff, bool_decide_eq_true in Hp. done. }
  split; [|split; [exact Hdown | split; [|split; [|split; [|split]]]]].
  - unfold abilityTypes in Hit. destruct (isCharacter actor) eqn:Hc; simpl in Hit.
    + apply elem_of_cons in Hit as [Hit | Hit%list_elem_of_singleton]; [by left|].
      right. split; [exact Hit|]. split; [reflexivity|].
      rewrite (bool_decide_eq_true_2 _ Hit) in Hfeat. cbn [andb] in Hfeat.
      apply bool_decide_eq_false in Hfeat.
      by destruct (actionCost ability); [eexists|].
    + apply list_elem_of_singleton in Hit. by left.
  - intros Hc Htr. destruct (Hexp' Hc Htr) as [Hp Hx]. split; [exact Hp|].
    unfold actionData. cbn [adUsage]. unfold abilityUsage. by rewrite Hx.
  - rewrite <- Hty. unfold abilitySection.
    destruct (actionCost ability) as [[[] ?]|]; [discriminate..|].
    destruct (isCharacter actor); [by destruct (isExploration actor ability)|done].
  - rewrite <- Hty. unfold abilitySection.
    destruct (actionCost ability) as [[[] ?]|]; [discriminate..|].
    unfold isExploration.
    destruct (isCharacter actor); [|discriminate]. cbn [andb].
    destruct (bool_decide ("exploration" ∈ traits ability)) eqn:E;
      [apply bool_decide_eq_true in E; done | discriminate].
  - unfold actionData. cbn [adIsActive adId]. unfold isExploration, explorations.
    rewrite !andb_true_iff, !bool_decide_eq_true.
    intros [[Hc Htr] Hid]. rewrite Hc in Hid. done.
  - intros u Hu. unfold actionData in *. cbn [adUsage adFrequency] in *.
    unfold abilityUsage in Hu.
    destruct (isExploration actor ability); [discriminate|].
    match type of Hu with (if ?c then _ else _) = _ => destruct c end;
      [discriminate|].
    injection Hu as <-. cbn [disabled].
    rewrite bool_decide_eq_true.
    destruct (abilityFrequency ability) as [f|]; simpl.
    + split; [intros [= ?]; by exists f | intros (? & [= <-] & ->); done].
    + split; [discriminate | intros (? & [=] & _)].
Qed.

End ContextFacts.

Section UseActionFacts.
Import SidebarActions.
Context {AH : ActionsHost}.
Implicit Types (actor : SidebarActor) (button : Button) (ability item : Item).

Lemma itemsGet_Some actor id item :
  itemsGet actor id = Some item -> item ∈ items actor /\ itemId item = id.
Proof.
  unfold itemsGet. intros [Hin Hid]%find_some.
  split; [by apply list_elem_of_In | by apply bool_decide_eq_true in Hid].
Qed.

Lemma find_fmap_id (g : Item -> Item) (its : list Item) id :
  (forall i, itemId (g i) = itemId i) ->
  List.find (fun i => bool_decide (itemId i = id)) (g <$> its)
  = g <$> List.find (fun i => bool_decide (itemId i = id)) its.
Proof.
  intros Hg. induction its as [|i its IH]; [reflexivity|].
  simpl. rewrite Hg. by destruct (bool_decide (itemId i = id)).
Qed.

Lemma applyCalls_app cs1 cs2 (its : list Item) :
  applyCalls (cs1 ++ cs2)%list its = applyCalls cs2 (applyCalls cs1 its).
Proof. unfold applyCalls. apply fold_left_app. Qed.

(** X12. The use button of the context and the use-action listener agree.
    For an ability the row resolves to: when its button is shown disabled
    the listener writes no frequency; when a frequency is shown with a value
    other than zero the listener writes that value lowered by one for this
    ability, and nothing else; and the frequency the context shows for the
    ability after the click is the one shown before with the new value, its
    maximum and its label unchanged. *)
Theorem use_button_matches_listener actor button ability :
  itemsGet actor (rowItemId button) = Some ability ->
  itemType ability ∈ [itFeat; itAction] ->
  let a := actionData actor ability in
  let calls := callsOf (useAction actor button) in
  let writes := filter (fun c => isFrequencyUpdate c = true) calls in
  (forall u, adUsage a = Some u -> disabled u = true -> writes = [])
  /\ (adFrequency a = None -> writes = [])
  /\ (forall f, adFrequency a = Some f ->
        let v' := if decide (afValue f = 0%Z) then 0%Z else (afValue f - 1)%Z in
        writes = (if decide (afValue f = 0%Z) then []
                  else [ItemUpdateFrequencyValue (adId a) v'])
        /\ exists ability',
            List.find (fun i => bool_decide (itemId i = adId a))
                      (applyCalls calls (items actor)) = Some ability'
            /\ abilityFrequency ability'
               = Some (mkActionFrequency (afMax f) v' (afLabel f))).
Proof.
  intros Hget Hty. cbn zeta.
  assert (Hfilter : forall rest : list HostCall,
            Forall (fun c => isFrequencyUpdate c = false) rest ->
            filter (fun c => isFrequencyUpdate c = true) rest = []).
  { induction 1 as [|c rest Hc _ IH]; [reflexivity|].
    rewrite filter_cons_False by congruence. exact IH. }
  destruct (useAction_calls actor button) as (rest & Hrest & _ & Hcalls).
  rewrite Hcalls, Hget, (bool_decide_eq_true_2 _ Hty).
  unfold actionData. cbn [adUsage adFrequency adId].
  pose proof (itemsGet_Some _ _ _ Hget) as [Hin Hid].
  unfold abilityFrequency.
  destruct (frequency ability) as [fr|] eqn:Hfr; cycle 1.
  { rewrite app_nil_l, (Hfilter _ Hrest).
    split; [done|]. split; [done|]. intros f [=]. }
  case_bool_decide as Hmax; cbn [negb andb].
  { rewrite app_nil_l, (Hfilter _ Hrest).
    split; [done|]. split; [done|]. intros f [=]. }
  split; [|split; [discriminate|]].
  - intros u Hu Hd. unfold abilityUsage in Hu.
    destruct (isExploration actor ability); [discriminate|].
    match type of Hu with (if ?c then _ else _) = _ => destruct c end;
      [discriminate|].
    injection Hu as <-. cbn [disabled] in Hd.
    apply bool_decide_eq_true in Hd. injection Hd as Hd.
    rewrite (bool_decide_eq_true_2 _ Hd). cbn [negb].
    by rewrite app_nil_l, (Hfilter _ Hrest).
  - intros f [= <-]. cbn [afValue afMax afLabel].
    assert (Hfind : List.find (fun i => bool_decide (itemId i = itemId ability))
                              (items actor) = Some ability).
    { unfold itemsGet in Hget. by rewrite Hid. }
    destruct (decide (freqValue fr = 0%Z)) as [Hv|Hv].
    + rewrite (bool_decide_eq_true_2 _ Hv). cbn [negb].
      rewrite app_nil_l, (Hfilter _ Hrest). split; [reflexivity|].
      rewrite (applyCalls_no_frequency _ _ Hrest).
      exists ability. split; [exact Hfind|].
      rewrite Hfr, (bool_decide_eq_false_2 _ Hmax), Hv. reflexivity.
    + rewrite (bool_decide_eq_false_2 _ Hv). cbn [negb].
      rewrite filter_app, filter_cons_True by reflexivity.
      rewrite filter_nil, (Hfilter _ Hrest). split; [reflexivity|].
      rewrite applyCalls_app, (applyCalls_no_frequency _ _ Hrest).
      unfold applyCalls, applyCall. cbn [fold_left].
      rewrite find_fmap_id by (intros i; by case_bool_decide).
      rewrite Hfind. eexists. split; [reflexivity|].
      rewrite bool_decide_eq_true_2 by reflexivity. cbn [frequency].
      rewrite Hfr. cbn [fmap option_fmap option_map freqMax freqValue freqPer].
      by rewrite (bool_decide_eq_false_2 _ Hmax).
Qed.

Lemma useAction_unfold actor button item :
  itemsGet actor (rowItemId button) = Some item ->
  itemType item ∈ [itFeat; itAction] ->
  exists pre,
    (pre = [] \/ exists v, pre = [ItemUpdateFrequencyValue (itemId item) v])
    /\ callsOf (useAction actor button)
       = (pre ++
          if selfEffect item then [CreateSelfEffectMessage (itemId item)]
          else match activeToolbelt ≫= (fun tb => getActionMacro tb item) with
               | Some m =>
                   MacroExecute m ::
                   (if from_option actionableMessage false activeToolbelt
                    then [ItemToMessage (itemId item)] else [])
               | None => [ItemToMessage (itemId item)]
               end)%list.
Proof.
  intros Hget Hty. unfold useAction, callsOf.
  rewrite Hget, (bool_decide_eq_true_2 _ Hty). cbn [negb].
  set (pre := match frequency item with Some _ => _ | None => _ end).
  assert (Hpre : pre = mret tt
                 \/ exists v, pre = hostCall (ItemUpdateFrequencyValue (itemId item) v)).
  { subst pre. destruct (frequency item) as [f|]; [|by left].
    destruct (_ && _); [right; by eexists | by left]. }
  destruct Hpre as [-> | [v ->]];
    [exists [] | exists [ItemUpdateFrequencyValue (itemId item) v]];
    (split; [by eauto|]);
    destruct (selfEffect item); [reflexivity| |reflexivity|];
    destruct (activeToolbelt ≫= (fun tb => getActionMacro tb item));
    destruct (from_option actionableMessage false activeToolbelt); reflexivity.
Qed.

(** X13. The use-action listener is never silent on an action or a feat:
    it posts the self-effect message of the item when the item has a self
    effect, and then neither runs a macro nor posts the item; otherwise it
    runs the item's macro when the toolbelt has one for it, and posts the
    item to the chat when there is no macro or when the toolbelt is set to
    post next to the macro. Whatever it asks is about this item or its
    macro. On anything else than an action or a feat it asks nothing of the
    host. *)
Theorem useAction_feedback actor button :
  let calls := callsOf (useAction actor button) in
  (forall item,
      itemsGet actor (rowItemId button) = Some item ->
      itemType item ∈ [itFeat; itAction] ->
      let macro := activeToolbelt ≫= (fun tb => getActionMacro tb item) in
      (CreateSelfEffectMessage (itemId item) ∈ calls <-> selfEffect item = true)
      /\ (forall m, MacroExecute m ∈ calls
                    <-> selfEffect item = false /\ macro = Some m)
      /\ (ItemToMessage (itemId item) ∈ calls
          <-> selfEffect item = false
              /\ (macro = None
                  \/ from_option actionableMessage false activeToolbelt = true))
      /\ (exists c, last calls = Some c
            /\ (c = CreateSelfEffectMessage (itemId item)
                \/ c = ItemToMessage (itemId item)
                \/ exists m, c = MacroExecute m))
      /\ (forall c, c ∈ calls ->
            c = CreateSelfEffectMessage (itemId item)
            \/ c = ItemToMessage (itemId item)
            \/ (exists m, c = MacroExecute m)
            \/ exists v, c = ItemUpdateFrequencyValue (itemId item) v))
  /\ ((forall item, itemsGet actor (rowItemId button) = Some item ->
                    itemType item ∉ [itFeat; itAction]) ->
      calls = []).
Proof.
  cbn zeta. split.
  - intros item Hget Hty.
    destruct (useAction_unfold actor button item Hget Hty) as (pre & Hpre & ->).
    set (macro := activeToolbelt ≫= (fun tb => getActionMacro tb item)).
    set (msg := from_option actionableMessage false activeToolbelt).
    assert (Hin : forall c tail, c ∈ (pre ++ tail)%list
              <-> (exists v, pre = [c] /\ c = ItemUpdateFrequencyValue (itemId item) v)
                  \/ c ∈ tail).
    { intros c tail. rewrite elem_of_app.
      destruct Hpre as [-> | [v ->]].
      - rewrite elem_of_nil. split; [intros [[]|?]; by right|].
        intros [(v & [=] & _) | ?]; by right.
      - rewrite list_elem_of_singleton. split.
        + intros [-> | ?]; [left; by exists v | by right].
        + intros [(v' & [= <-] & _) | ?]; [by left | by right]. }
    split; [|split; [|split; [|split]]].
    + rewrite Hin. destruct (selfEffect item).
      * split; [done|]. intros _. right. apply list_elem_of_here.
      * split; [|done]. intros [(v & _ & [=]) | Hc]. exfalso.
        destruct macro; [destruct msg|];
          repeat (apply elem_of_cons in Hc as [[=] | Hc]); by apply elem_of_nil in Hc.
    + intros m. rewrite Hin. destruct (selfEffect item).
      * split; [|intros [[=] _]]. intros [(v & _ & [=]) | Hc].
        apply list_elem_of_singleton in Hc. discriminate Hc.
      * split.
        -- intros [(v & _ & [=]) | Hc]. split; [reflexivity|].
           destruct macro as [m'|]; [destruct msg|];
             repeat (apply elem_of_cons in Hc as [[=] | Hc]);
             try (by apply elem_of_nil in Hc); by subst.
        -- intros [_ ->]. right. apply list_elem_of_here.
    + rewrite Hin. destruct (selfEffect item).
      * split; [|intros [[=] _]]. intros [(v & _ & [=]) | Hc].
        apply list_elem_of_singleton in Hc. discriminate Hc.
      * split.
        -- intros [(v & _ & [=]) | Hc]. split; [reflexivity|].
           destruct macro as [m'|]; [destruct msg|]; [by right | | by left].
           repeat (apply elem_of_cons in Hc as [[=] | Hc]). by apply elem_of_nil in Hc.
        -- intros [_ [-> | Hm]]; right; [apply list_elem_of_here|].
           rewrite Hm. destruct macro; [|apply list_elem_of_here].
           apply list_elem_of_further, list_elem_of_here.
    + destruct (selfEffect item);
        [|destruct macro as [m'|]; [destruct msg|]];
        eexists; (split; [destruct Hpre as [-> | [v ->]]; reflexivity|]); eauto.
    + intros c. rewrite Hin. intros [(v & _ & ->) | Hc]; [by eauto|].
      destruct (selfEffect item);
        [|destruct macro as [m'|]; [destruct msg|]];
        repeat (apply elem_of_cons in Hc as [-> | Hc]); eauto;
        by apply elem_of_nil in Hc.
  - intros Hno. unfold useAction, callsOf.
    destruct (itemsGet actor (rowItemId button)) as [item|]; [|done].
    rewrite bool_decide_eq_false_2 by (apply Hno; reflexivity). reflexivity.
Qed.

End UseActionFacts.

(** * The token HUD on concrete inputs *)

Section TokenHudExamples.
Import Dom TokenHud Examples.

(** A token of an actor the user does not own is downgraded, the hero's
    token is tracked. *)
Lemma setToken_eligibility_witness :
  (setToken (Some (exToken 2 exStranger)) exOpenSidebar = setToken None exOpenSidebar
   /\ isClosed (setToken (Some (exToken 2 exStranger)) exOpenSidebar))
  /\ isOpenOn (exToken 1 exHero) (setToken (Some (exToken 1 exHero)) exClosed).
Proof.
  split.
  - apply (proj1 (setToken_eligibility (exToken 2 exStranger) exOpenSidebar)).
    simpl. left. reflexivity.
  - apply (proj2 (setToken_eligibility (exToken 1 exHero) exClosed)).
    simpl. intros [H | [H | [H | [H | H]]]]; discriminate H.
Defined.

(** From the open HUD with its actions sidebar: selecting a stranger's
    token and closing leaves the HUD closed, without a sidebar. *)
Lemma sidebar_invariant_runs_witness :
  sidebar exOpenSidebar = Some "actions"
  /\ sidebarInvariant (run [OpSetToken (Some (exToken 2 exStranger)); OpClose] exOpenSidebar)
  /\ isClosed (run [OpSetToken (Some (exToken 2 exStranger)); OpClose] exOpenSidebar).
Proof.
  assert (Hinv : sidebarInvariant exOpenSidebar).
  { intros _. vm_compute. eexists. reflexivity. }
  destruct (sidebar_invariant_runs
              [OpSetToken (Some (exToken 2 exStranger)); OpClose] exOpenSidebar Hinv)
    as (H1 & _ & H3).
  split; [reflexivity|]. split; [exact H1|].
  apply (H3 [OpSetToken (Some (exToken 2 exStranger))]). left. reflexivity.
Defined.

(** C3, the statement as given fails: a message is sent to the chat under
    the policy sidebar while no sidebar shows, and a spell is cast under the
    policy all while the HUD is closed; both times [closeIf] answers true
    and nothing was closed, the state is as it was. *)
Lemma closeIf_true_nothing_closed_counterexample :
  (getCloseSetting (eventToSetting evSendToChat) exOpenPolicies = optSidebar
   /\ sidebar exOpenPolicies = None
   /\ isOpen exOpenPolicies
   /\ closeIf evSendToChat exOpenPolicies = (true, exOpenPolicies))
  /\ (getCloseSetting (eventToSetting evCastSpell) exClosedPolicies = optAll
      /\ isClosed exClosedPolicies
      /\ closeIf evCastSpell exClosedPolicies = (true, exClosedPolicies)).
Proof.
  split.
  - split; [reflexivity|]. split; [reflexivity|].
    split; [vm_compute; eexists; reflexivity | vm_compute; reflexivity].
  - split; [reflexivity|]. split; [vm_compute; repeat split|].
    vm_compute. reflexivity.
Qed.

(** A message is sent to the chat while the actions sidebar shows: the
    sidebar goes, the HUD stays on its token. *)
Lemma closeIf_policy_witness :
  sidebar exSidebarPolicies = Some "actions"
  /\ (closeIf evSendToChat exSidebarPolicies).1 = true
  /\ sidebar (closeIf evSendToChat exSidebarPolicies).2 = None
  /\ token (closeIf evSendToChat exSidebarPolicies).2 = token exSidebarPolicies.
Proof.
  destruct (closeIf_policy evSendToChat exSidebarPolicies)
    as (_ & _ & Hsb & Htrue & _).
  destruct (Hsb eq_refl) as (_ & Hs & Ht & _).
  split; [reflexivity|]. split; [|split; [exact Hs | exact Ht]].
  apply Htrue. discriminate.
Defined.

(** The click policies on the open HUD with its sidebar, nobody typing. *)
Lemma clickClose_stages_witness :
  sidebar (clickClose exOpenSidebar) = None
  /\ token (clickClose exOpenSidebar) = token exOpenSidebar
  /\ isClosed (clickClose (clickClose exOpenSidebar)).
Proof.
  destruct (clickClose_stages exOpenSidebar) as [_ H].
  destruct (H eq_refl) as (_ & Hs & _).
  assert (Hn : ~ typing exOpenSidebar).
  { vm_compute. intros [E | E]; discriminate E. }
  assert (Hsb : sidebar exOpenSidebar <> None) by discriminate.
  destruct (Hs Hn Hsb) as (H1 & H2 & _).
  split; [exact H1|]. split; [exact H2|].
  vm_compute. repeat split.
Defined.

(** C7, the statement as given fails: with the sidebar showing and the
    single-stage setting off, a click while the user types into an input
    leaves the sidebar showing; and with no sidebar showing such a click
    leaves the HUD open. *)
Lemma clickClose_typing_counterexample :
  (isOpen exTyping
   /\ closeAllOnCLick (settings exTyping) = false
   /\ sidebar exTyping = Some "actions"
   /\ sidebar (clickClose exTyping) = Some "actions")
  /\ (isOpen exFocused
      /\ closeAllOnCLick (settings exFocused) = false
      /\ sidebar exFocused = None
      /\ token (clickClose exFocused) = token exFocused
      /\ is_Some (token (clickClose exFocused))).
Proof.
  vm_compute. repeat split; eexists; reflexivity.
Qed.

(** A render for an actor without a health block. *)
Lemma render_without_health_witness :
  _renderHTML (_prepareContext (mkOptions 14%Q) exGhostOpen) (mkOptions 14%Q) = ""
  /\ token (render true exGhostOpen) = Some (exToken 3 exGhost)
  /\ is_Some (element (render true exGhostOpen)).
Proof.
  destruct (render_without_health exGhostOpen (exToken 3 exGhost) exGhost)
    as (_ & _ & _ & _ & _ & H1 & H2 & H3 & _); [reflexivity..|].
  split; [exact H1|]. split; [exact H2 | exact H3].
Defined.

(** The resolver on the closed HUD, and on the open HUD fresh and stale. *)
Lemma updatePosition_pure_witness :
  _updatePosition emptyPosition exClosed = (emptyPosition, exClosed)
  /\ geometry (_updatePosition emptyPosition exOpen)
     = geometry (_updatePosition (position exStale) exStale).
Proof.
  destruct (updatePosition_pure (num := Q)) as [H1 H2]. split.
  - apply H1. left. reflexivity.
  - eapply (H2 emptyPosition (position exStale) exOpen exStale
               (exToken 1 exHero) _ _ 1 1).
    1-8: vm_compute; reflexivity.
    all: vm_compute; apply list_elem_of_here.
Defined.

(** C5, where the code falls short. The user types into the input named
    "amount" of the open HUD and a render swaps the markup. The new main
    element has an input of that name, and [focus] is called on it, but
    while the new element is still detached: the call has no effect, the
    old input leaves the document with the swap, and no element of the HUD
    has the focus afterwards. The container does hold exactly one main
    element. *)
Lemma rerender_drops_focus :
  let s := exFocused in
  let s' := render true s in
  activeElement s = Inside 2
  /\ (name <$> (mainNode s ≫= querySelector (isFocusedInput (activeElement s))))
     = Some "amount"
  /\ (nid <$> (mainNode s' ≫= querySelector (isInputNamed "amount"))) = Some 4
  /\ activeElement s' = NoFocus
  /\ (elemId <$> from_option kids [] (element s')) = ["pf2e-hud-token-main"].
Proof.
  vm_compute. repeat split.
Qed.

End TokenHudExamples.

(** * More of the token HUD on concrete inputs *)

Section TokenHudSession.
Import Dom TokenHud Examples.

Lemma exClosed_wellFormed : wellFormed exClosed.
Proof.
  apply closed_wellFormed; [vm_compute; repeat split | discriminate].
Qed.

(** After the session the container holds the one main element. *)
Lemma one_main_element_witness :
  exists el o,
    element (runEvents exSession exClosed) = Some el
    /\ filter (fun k => elemId k = "pf2e-hud-token-main") (kids el) = [o]
    /\ mainElement (runEvents exSession exClosed) = Some (nid o)
    /\ childById (nid o) el = Some o.
Proof.
  destruct (element (runEvents exSession exClosed)) as [el|] eqn:Hel;
    [|vm_compute in Hel; discriminate Hel].
  destruct (one_main_element exSession exClosed exClosed_wellFormed el Hel)
    as (o & H1 & H2 & H3).
  exists el, o. split; [reflexivity|]. split; [exact H1|]. split; [exact H2 | exact H3].
Defined.

(** After the session the HUD is open and its hook is on. *)
Lemma hook_follows_token_witness :
  isOpen (runEvents exSession exClosed)
  /\ canvasPanHook (runEvents exSession exClosed) = true.
Proof.
  destruct (hook_follows_token exSession exClosed exClosed_wellFormed) as (H1 & _).
  assert (Hopen : isOpen (runEvents exSession exClosed))
    by (vm_compute; eexists; reflexivity).
  split; [exact Hopen | by apply H1].
Defined.

(** The actions sidebar shows after the session, on the open HUD. *)
Lemma sidebar_only_when_open_witness :
  sidebar (runEvents exSession exClosed) = Some "actions"
  /\ isOpen (runEvents exSession exClosed).
Proof.
  split; [vm_compute; reflexivity|].
  apply (sidebar_only_when_open exSession exClosed exClosed_wellFormed).
  vm_compute. discriminate.
Defined.

(** The user is in the input (element 4) when the actor's update renders
    the HUD again: the focus is gone. *)
Lemma rerender_focus_witness :
  activeElement (runEvents (take 5 exSession) exClosed) = Inside 4
  /\ activeElement (render false (runEvents (take 5 exSession) exClosed)) = NoFocus.
Proof.
  split; [vm_compute; reflexivity|].
  assert (Hwf : wellFormed (runEvents (take 5 exSession) exClosed))
    by (apply runEvents_wellFormed, exClosed_wellFormed).
  assert (Hopen : isOpen (runEvents (take 5 exSession) exClosed))
    by (vm_compute; eexists; reflexivity).
  destruct (mainNode (runEvents (take 5 exSession) exClosed)) as [o|] eqn:Ho;
    [|vm_compute in Ho; discriminate Ho].
  apply (proj1 (proj2 (rerender_focus false _ Hwf Hopen)) o 4 Ho).
  - assert (Hids : ids <$> mainNode (runEvents (take 5 exSession) exClosed)
                   = Some [3; 5; 4]) by (vm_compute; reflexivity).
    rewrite Ho in Hids.
    assert (E : ids o = [3; 5; 4]) by (apply (inj Some); exact Hids).
    rewrite E.
    do 2 apply list_elem_of_further. apply list_elem_of_here.
  - vm_compute. reflexivity.
Defined.

(** Two clicks on the hero's token: open, then closed. *)
Lemma token_click_toggles_witness :
  isOpenOn (exToken 1 exHero)
           (onTokenClickLeft (exToken 1 exHero) (mkPointer false false) "select" exClosed)
  /\ isClosed (onTokenClickLeft (exToken 1 exHero) (mkPointer false false) "select"
                 (onTokenClickLeft (exToken 1 exHero) (mkPointer false false) "select"
                    exClosed)).
Proof.
  apply (proj1 (proj2 (proj2 (token_click_toggles (exToken 1 exHero)
           (mkPointer false false) "select" exClosed) eq_refl eq_refl eq_refl))).
  - reflexivity.
  - simpl. intros [H | [H | [H | [H | H]]]]; discriminate H.
Defined.

End TokenHudSession.

(** * The actions sidebar on concrete inputs *)

Section ActionExamplesFacts.
Import SidebarActions ActionExamples.

(** C8, the statement as given fails: a non-player character has the
    kinetic-aura effect, and its elemental-blast ability is still listed,
    in the section of the actions. *)
Lemma actionSections_aura_counterexample :
  hasKineticAuraEffect exNpc
  /\ exBlast ∈ actorItems exNpc (abilityTypes exNpc)
  /\ slug exBlast = Some "elemental-blast"
  /\ ((fun sec => (secType sec, adName <$> secActions sec)) <$> actionSections exNpc)
     = [(secAction, ["Elemental Blast"; "Stride"])].
Proof.
  split; [|split; [|split]].
  - exists exAura. split; [apply list_elem_of_here | done].
  - vm_compute. apply list_elem_of_here.
  - reflexivity.
  - vm_compute. reflexivity.
Qed.

(** The sections of the kineticist character: the blast and the stance are
    left out, the rest is grouped and sorted. *)
Lemma actionSections_grouped_sorted_witness :
  ((fun sec => (secType sec, adName <$> secActions sec)) <$> actionSections exKineticist)
  = [(secAction, ["Aid"; "Stride"]); (secReaction, ["Shield Block"]);
     (secFree, ["Battle Cry"])]
  /\ NoDup (secType <$> actionSections exKineticist)
  /\ (exBlast ∉ sectionAbilities exKineticist secAction)
  /\ (exCraneStance ∉ sectionAbilities exKineticist secAction).
Proof.
  destruct (actionSections_grouped_sorted exKineticist) as (Hnd & _ & _ & _ & Hex).
  split; [vm_compute; reflexivity|]. split; [exact Hnd|]. split.
  - intros Hin. destruct (Hex _ _ Hin) as [_ Hno]. apply Hno.
    split; [reflexivity|]. split; [reflexivity|]. split; [reflexivity|].
    exists exAura. split; [apply list_elem_of_here | done].
  - intros Hin. destruct (Hex _ _ Hin) as [Hno _].
    apply (Hno "Compendium.feats.crane"); [reflexivity|].
    vm_compute. apply list_elem_of_here.
Defined.

(** The toggle on the pistol, and on the sword that has no second barrel. *)
Lemma toggleWeaponTrait_outcome_witness :
  toggleWeaponTrait exKineticist (exButton (Some "double-barrel") None (Some 0%Z) "")
  = hostCall (TogglesUpdateDoubleBarrel "w1" true)
  /\ toggleWeaponTrait exKineticist (exButton (Some "double-barrel") None (Some 1%Z) "")
     = throw "Unexpected failure while toggling weapon trait"
  /\ callsOf (toggleWeaponTrait exKineticist
                (exButton (Some "versatile") (Some "acid") (Some 1%Z) "")) = [].
Proof.
  split; [|split].
  - apply (proj1 (proj2 (toggleWeaponTrait_outcome exKineticist
             (exButton (Some "double-barrel") None (Some 0%Z) ""))) exPistol).
    + reflexivity.
    + reflexivity.
    + vm_compute. apply list_elem_of_here.
  - apply (proj1 (toggleWeaponTrait_outcome exKineticist
             (exButton (Some "double-barrel") None (Some 1%Z) ""))).
    left. split; [reflexivity|]. intros w [= <-]. vm_compute.
    intros [H | H]%elem_of_cons; [discriminate H | by apply elem_of_nil in H].
  - apply (proj1 (toggleWeaponTrait_outcome exKineticist
             (exButton (Some "versatile") (Some "acid") (Some 1%Z) ""))).
    right. left. split; [reflexivity|]. right. vm_compute. reflexivity.
Defined.

(** Using the battle cry, two uses left out of three, and the spent aid. *)
Lemma useAction_frequency_witness :
  filter (fun c => isFrequencyUpdate c = true)
         (callsOf (useAction exKineticist (exButton None None None "f3")))
  = [ItemUpdateFrequencyValue "f3" 1%Z]
  /\ filter (fun c => isFrequencyUpdate c = true)
            (callsOf (useAction exKineticist (exButton None None None "f4")))
     = [].
Proof.
  split.
  - apply (proj1 (useAction_frequency exKineticist (exButton None None None "f3"))
             exBattleCry (mkFrequency 3 2 "day")).
    + reflexivity.
    + vm_compute. apply list_elem_of_here.
    + reflexivity.
    + discriminate.
    + reflexivity.
  - apply (proj1 (proj2 (useAction_frequency exKineticist
             (exButton None None None "f4"))) exSpent).
    + reflexivity.
    + intros f [= <-]. right. reflexivity.
Defined.

End ActionExamplesFacts.

(** * More of the actions sidebar on concrete inputs *)

Section ActionExtrasExamples.
Import SidebarActions ActionExamples.

(** The button of the second strike resolves to the sword, ready. *)
Lemma getStrike_resolution_witness :
  getStrike exKineticist (exButton None None (Some 1%Z) "") true
  = Some (mkUsage exSword true)
  /\ usageReady (mkUsage exSword true) = true
  /\ getStrike exKineticist (exButton None None (Some 1%Z) "") false
     = Some (mkUsage exSword true).
Proof.
  split; [reflexivity|].
  destruct (proj1 (getStrike_resolution exKineticist
                     (exButton None None (Some 1%Z) ""))
                  true (mkUsage exSword true) eq_refl) as (Hr & Hf & _).
  split; [exact (Hr eq_refl) | exact Hf].
Defined.

(** The fire blast: the damage type of the row is used for want of a value
    on the button, and five times the attack counts as twice. *)
Lemma blast_listeners_validate_witness :
  blastSetDamageType (exBlastButton None (Some "true"))
  = hostCall (BlastSetDamageType "fire" "fire" true)
  /\ (blastAttack (exBlastButton None (Some "true")) (Some 5%Z)).2
     = inr (BlastAttack "fire" "fire" true (Some 2%Z))
  /\ threw (blastSetDamageType (exBlastButton (Some "cold") None)).
Proof.
  split; [reflexivity|]. split; [reflexivity|].
  apply (proj2 (blast_listeners_validate (exBlastButton (Some "cold") None)
                  None None)).
  intros (e & d & _ & _ & Hd & [[[= <-] _] | [[[=] | [=]] _]]).
  vm_compute in Hd. repeat (apply elem_of_cons in Hd as [[=] | Hd]).
  by apply elem_of_nil in Hd.
Defined.

(** One hero point and two hero actions: one action has to go. *)
Lemma heroActions_flags_witness :
  exists h,
    heroActions exHeroApi 1 exKineticist = Some h
    /\ heroName <$> haActions h = ["Last Stand"; "Surge of Speed"]
    /\ haMustDiscard h = true /\ haCanUse h = false /\ haDiff h = 1%Z
    /\ haCanTrade h = false.
Proof.
  assert (Hd : haMustDiscard <$> heroActions exHeroApi 1 exKineticist = Some true)
    by (vm_compute; reflexivity).
  assert (Hn : (fun h => heroName <$> haActions h) <$> heroActions exHeroApi 1 exKineticist
               = Some ["Last Stand"; "Surge of Speed"])
    by (vm_compute; reflexivity).
  assert (Hu : haUsesCount <$> heroActions exHeroApi 1 exKineticist = Some false)
    by (vm_compute; reflexivity).
  destruct (heroActions exHeroApi 1 exKineticist) as [h|] eqn:Hh;
    [|discriminate Hd].
  apply (inj Some) in Hd, Hn, Hu.
  exists h. split; [reflexivity|].
  destruct (heroActions_flags exHeroApi 1 exKineticist h Hh)
    as (_ & _ & Hnc & Hdis & _ & _ & Htr & _).
  split; [exact Hn|]. split; [exact Hd|].
  destruct (Hnc Hu) as (_ & _ & Hcan). rewrite Hd in Hcan.
  split; [exact Hcan|]. split.
  - specialize (Hdis Hd). apply (f_equal length) in Hn.
    rewrite length_fmap in Hn. rewrite Hn in Hdis. simpl in Hdis. lia.
  - destruct (haCanTrade h); [|reflexivity].
    destruct (Htr eq_refl) as (_ & Hd' & _). congruence.
Defined.

(** The kineticist is a character and the toolbelt has its stances on. *)
Lemma stances_shown_witness :
  is_Some (stances exKineticist)
  /\ excludedUUIDS exKineticist ≡ₚ ["Compendium.feats.crane"].
Proof.
  destruct (stances_shown exKineticist) as (Hshow & Hst & _).
  assert (Hs : is_Some (stances exKineticist)).
  { apply Hshow. split; [reflexivity|]. exists exToolbelt. split; reflexivity. }
  split; [exact Hs|]. destruct Hs as [st Hs].
  destruct (Hst st Hs) as (tb & Htb & _ & _ & _ & Hex).
  injection Htb as <-. exact Hex.
Defined.

Lemma head_elem {A : Type} (l : list A) x : head l = Some x -> x ∈ l.
Proof. destruct l; [discriminate|]. intros [= ->]. apply list_elem_of_here. Qed.

(** The first action of the first section of the kineticist. *)
Lemma actionSections_contents_witness :
  exists sec a,
    head (actionSections exKineticist) = Some sec
    /\ head (secActions sec) = Some a
    /\ secLabel sec = label (ACTION_TYPES (secType sec))
    /\ exists ability, ability ∈ items exKineticist
                       /\ a = actionData exKineticist ability.
Proof.
  destruct (head (actionSections exKineticist)) as [sec|] eqn:Hsec;
    [|vm_compute in Hsec; discriminate Hsec].
  destruct (head (secActions sec)) as [a|] eqn:Ha.
  - exists sec, a. split; [reflexivity|]. split; [exact Ha|].
    destruct (actionSections_contents exKineticist sec a
                (head_elem _ _ Hsec) (head_elem _ _ Ha))
      as (Hlab & ability & Hin & Heq & _).
    split; [exact Hlab|]. by exists ability.
  - exfalso. apply (f_equal (fun o => o ≫= (fun s => head (secActions s)))) in Hsec.
    cbn [mbind option_bind] in Hsec. rewrite Ha in Hsec.
    vm_compute in Hsec. discriminate Hsec.
Defined.

(** The battle cry, two uses left of three: the click writes one. *)
Lemma use_button_matches_listener_witness :
  filter (fun c => isFrequencyUpdate c = true)
         (callsOf (useAction exKineticist (exButton None None None "f3")))
  = [ItemUpdateFrequencyValue "f3" 1%Z].
Proof.
  apply (proj1 (proj2 (proj2 (use_button_matches_listener exKineticist
           (exButton None None None "f3") exBattleCry eq_refl
           ltac:(apply list_elem_of_here)))
         _ eq_refl)).
Defined.

(** The battle cry has no self effect and no macro: it is posted. *)
Lemma useAction_feedback_witness :
  ItemToMessage "f3" ∈ callsOf (useAction exKineticist (exButton None None None "f3")).
Proof.
  apply (proj1 (useAction_feedback exKineticist (exButton None None None "f3"))
               exBattleCry eq_refl ltac:(apply list_elem_of_here)).
  split; [reflexivity | by left].
Defined.

End ActionExtrasExamples.
